(** * pymonetdb.mapi: the MAPI client protocol core

    A shallow embedding of [pymonetdb/mapi.py] and the properties its
    specification states about it.

    Conventions of the embedding:
    - a Python [str] is a [string]: a sequence of characters addressed by
      position.  The code only compares characters with ASCII literals and
      slices by position, so nothing depends on the alphabet;
    - a Python [bytes]/[bytearray]/[memoryview] is a [list byte];
    - a Python [int] is a [Z]; positions inside a [str] that are never
      negative are [nat];
    - a call that may raise returns an [outcome]; code that reads or writes the
      connection object, a socket or the log runs in the monad [M];
    - a socket is the byte sequence its peer sends and what was sent on it;
      socket objects live in a store and [self.socket] refers into it;
    - what the module takes from outside (the UTF-8 codec, [hashlib],
      [int()], the network, [ssl], [pymonetdb.target],
      [pymonetdb.filetransfer], the fallbacks of handshake options) is a
      field of the environment [Env]; timeouts are not modelled. *)

From Stdlib Require Import ZArith Lia String Ascii List Bool.
From Stdlib Require Import Init.Byte Strings.Byte.
From Stdlib Require Import DecimalString.
From stdpp Require Import base option list strings gmap.

Open Scope string_scope.
Open Scope Z_scope.

(* ===================================================================== *)
(** ** Exceptions and outcomes *)
(* ===================================================================== *)

(** The exception classes [mapi.py] raises or lets through.  The first
    seven are [pymonetdb.exceptions]; the others are Python built-ins. *)
Inductive exn_class : Type :=
  | OperationalError | DatabaseError | ProgrammingError | NotSupportedError
  | IntegrityError | InternalError | InterfaceError
  | BrokenPipeError | OSError | ValueError | IndexError | AttributeError
  | AssertionError | StructError | UnicodeDecodeError | SSLError.

#[global] Instance exn_class_eq_dec : EqDecision exn_class.
Proof. solve_decision. Defined.

Record exn : Type := Exn { exn_kind : exn_class; exn_msg : string }.

#[global] Instance exn_eq_dec : EqDecision exn.
Proof. solve_decision. Defined.

(** What a call does: return a value, raise, or (for the model only) use up
    the recursion budget it was given. *)
Inductive outcome (A : Type) : Type :=
  | Return (a : A)
  | Raise (e : exn)
  | Timeout.
Arguments Return {A} a.
Arguments Raise {A} e.
Arguments Timeout {A}.

(** [except OSError]: the class and its subclasses. *)
Definition is_OSError (c : exn_class) : bool :=
  match c with
  | OSError | BrokenPipeError | SSLError => true
  | _ => false
  end.

(** [except Exception]: every class above. *)
Definition is_Exception (c : exn_class) : bool := true.

(** What a call returns where the code returns a [str] on some paths and
    falls off the end on others. *)
Inductive retval : Type :=
  | RNone
  | RStr (s : string).

(* ===================================================================== *)
(** ** Python [str] operations *)
(* ===================================================================== *)

Module Str.

(** [s[:n]] for [n >= 0]. *)
Fixpoint take (n : nat) (s : string) : string :=
  match n, s with
  | O, _ => EmptyString
  | S _, EmptyString => EmptyString
  | S n', String a s' => String a (take n' s')
  end.

(** [s[n:]] for [n >= 0]. *)
Fixpoint drop (n : nat) (s : string) : string :=
  match n, s with
  | O, _ => s
  | S _, EmptyString => EmptyString
  | S n', String _ s' => drop n' s'
  end.

(** Position of the first [c] in [s], if any. *)
Fixpoint find (c : ascii) (s : string) : option nat :=
  match s with
  | EmptyString => None
  | String a s' => if Ascii.eqb a c then Some O else S <$> find c s'
  end.

(** [str.index(s, c, start)] for a one-character [c]: [None] is
    [ValueError: substring not found]. *)
Definition index (s : string) (c : ascii) (start : nat) : option nat :=
  if (start <=? String.length s)%nat
  then (fun i => (start + i)%nat) <$> find c (drop start s)
  else None.

(** [s.startswith(p)]. *)
Fixpoint startswith (p s : string) : bool :=
  match p, s with
  | EmptyString, _ => true
  | String _ _, EmptyString => false
  | String a p', String b s' => Ascii.eqb a b && startswith p' s'
  end.

(** [s.split(sep)] for a one-character [sep]: never the empty list. *)
Fixpoint split (sep : ascii) (s : string) : list string :=
  match s with
  | EmptyString => [EmptyString]
  | String a s' =>
      if Ascii.eqb a sep then EmptyString :: split sep s'
      else match split sep s' with
           | [] => [String a EmptyString]
           | w :: ws => String a w :: ws
           end
  end.

(** [sep.join(l)]. *)
Fixpoint join (sep : string) (l : list string) : string :=
  match l with
  | [] => EmptyString
  | [x] => x
  | x :: l' => x ++ sep ++ join sep l'
  end.

(** The characters [str.strip()] removes, among the first 256 code
    points: [str.isspace]. *)
Definition isspace (a : ascii) : bool :=
  let n := N_of_ascii a in
  ((9 <=? n) && (n <=? 13) || (28 <=? n) && (n <=? 32)
   || (n =? 133) || (n =? 160))%N.

Fixpoint lstrip (s : string) : string :=
  match s with
  | EmptyString => EmptyString
  | String a s' => if isspace a then lstrip s' else s
  end.

Fixpoint rstrip (s : string) : string :=
  match s with
  | EmptyString => EmptyString
  | String a s' =>
      match rstrip s' with
      | EmptyString => if isspace a then EmptyString else String a EmptyString
      | r => String a r
      end
  end.

Definition strip (s : string) : string := rstrip (lstrip s).

(** [str(n)] for an [int]. *)
Definition of_int (z : Z) : string := NilZero.string_of_int (Z.to_int z).

End Str.

(* ===================================================================== *)
(** ** The error classifier *)
(* ===================================================================== *)

(** [errors]: MonetDB error codes. *)
Definition errors : gmap string exn_class :=
  list_to_map
    [ ("42S02", OperationalError)   (* no such table *)
    ; ("40002", IntegrityError)     (* INSERT INTO: UNIQUE constraint violated *)
    ; ("2D000", IntegrityError)     (* COMMIT: failed *)
    ; ("40000", IntegrityError)     (* DROP TABLE: FOREIGN KEY constraint violated *)
    ; ("M0M29", IntegrityError)     (* The code monetdb emitted before Jun2020 *)
    ].

(** The second half of [handle_error], on the (possibly stripped) string. *)
Definition classify (error : string) : exn_class * string :=
  if (5 <? String.length error)%nat then
    match errors !! Str.take 5 error with
    | Some cls => (cls, error)
    | None => (OperationalError, error)
    end
  else (OperationalError, error).

(** [handle_error(error)]: the exception class matching the error code, and
    the message.  [str.index] raises [ValueError] when there is no [':']. *)
Definition handle_error (error : string) : outcome (exn_class * string) :=
  if String.eqb (Str.take 13 error) "SQLException:" then
    match Str.index error ":" 14 with
    | Some idx => Return (classify (Str.drop (idx + 10) error))
    | None => Raise (Exn ValueError "substring not found")
    end
  else Return (classify error).


(* ===================================================================== *)
(** ** Bytes and byte strings *)
(* ===================================================================== *)

#[global] Instance byte_eq_decision : EqDecision byte := Byte.byte_eq_dec.

Definition byte_to_Z (b : byte) : Z := Z.of_N (Byte.to_N b).

(** The byte with value [z], for [0 <= z < 256]. *)
Definition byte_of_Z (z : Z) : byte :=
  match Byte.of_N (Z.to_N z) with
  | Some b => b
  | None => x00
  end.

(** [len(l)]. *)
Definition len {A} (l : list A) : Z := Z.of_nat (length l).

(** How Python resolves a slice bound against a sequence of length [n]. *)
Definition slice_bound (n i : Z) : Z :=
  if i <? 0 then Z.max 0 (i + n) else Z.min i n.

(** [l[lo:hi]]. *)
Definition slice {A} (l : list A) (lo hi : Z) : list A :=
  let a := slice_bound (len l) lo in
  let b := slice_bound (len l) hi in
  take (Z.to_nat (b - a)) (drop (Z.to_nat a) l).

(** [bytes(n)]: [n] zero bytes. *)
Definition zeros (n : Z) : list byte := replicate (Z.to_nat n) x00.

(** What [recv_into(memoryview(buffer)[offset:...])] does to [buffer] when
    it receives [data]: the bytes land at [offset]. *)
Definition write_at (buffer : list byte) (offset : Z) (data : list byte)
  : list byte :=
  take (Z.to_nat offset) buffer ++ data
  ++ drop (Z.to_nat offset + length data) buffer.

(** [struct.pack('<H', v)]: two bytes, least significant first. *)
Definition struct_pack_H (v : Z) : outcome (list byte) :=
  if (0 <=? v) && (v <=? 65535)
  then Return [byte_of_Z (v mod 256); byte_of_Z (v / 256)]
  else Raise (Exn StructError "ushort format requires 0 <= number <= 65535").

Definition bytes_of_string (s : string) : list byte := list_byte_of_string s.

Definition byte_eqb (a b : byte) : bool := Byte.eqb a b.

(** The last position [>= i] at which [c] occurs in [l], whose first element
    has position [i]; [acc] if there is none. *)
Fixpoint last_index (c : byte) (l : list byte) (i acc : Z) : Z :=
  match l with
  | [] => acc
  | x :: l' => last_index c l' (i + 1) (if byte_eqb x c then i else acc)
  end.

(** [buffer.rfind(c, start, end)] for a one-byte [c]; [-1] when absent. *)
Definition rfind (buffer : list byte) (c : byte) (start end_ : Z) : Z :=
  last_index c (slice buffer start end_) (slice_bound (len buffer) start) (-1).

(** The first position at which [c] occurs in [l]. *)
Fixpoint first_index (c : byte) (l : list byte) (i : Z) : Z :=
  match l with
  | [] => -1
  | x :: l' => if byte_eqb x c then i else first_index c l' (i + 1)
  end.

(** [b.find(c)] for a one-byte [c]; [-1] when absent. *)
Definition bfind (b : list byte) (c : byte) : Z := first_index c b 0.

(** The bytes [bytes.strip()] removes: ASCII whitespace. *)
Definition byte_isspace (b : byte) : bool :=
  let n := Byte.to_N b in ((9 <=? n) && (n <=? 13) || (n =? 32))%N.

Fixpoint bytes_lstrip (l : list byte) : list byte :=
  match l with
  | [] => []
  | b :: l' => if byte_isspace b then bytes_lstrip l' else l
  end.

Definition bytes_strip (l : list byte) : list byte :=
  rev (bytes_lstrip (rev (bytes_lstrip l))).

(* ===================================================================== *)
(** ** Sockets *)
(* ===================================================================== *)

(** A connected, blocking stream socket seen from the client.  The peer's
    behaviour is the byte sequence it sends before it closes its side, and how
    the operating system cuts it up between [recv] calls. *)
Module Socket.

Record t : Type := Make {
  inbound : list byte;   (** what is still to arrive; then end of stream *)
  sched : list nat;      (** the next [recv] delivers at most
                             [1 + hd sched] bytes; any number when empty *)
  outbound : list byte;  (** everything sent so far *)
  closed : bool;         (** [close()] was called *)
  shut_wr : bool         (** [shutdown(SHUT_WR)] was called *)
}.

Definition bad_fd {A} : outcome A :=
  Raise (Exn OSError "[Errno 9] Bad file descriptor").

(** A fresh connection on which the peer will send [input]. *)
Definition connected (input : list byte) (sch : list nat) : t :=
  Make input sch [] false false.

(** The bytes one [recv] of at most [k] bytes delivers: at least one while
    the stream lasts, none at its end. *)
Definition recv (k : Z) (s : t) : outcome (list byte) * t :=
  if closed s then (bad_fd, s)
  else
    let quota := match sched s with
                 | [] => length (inbound s)
                 | q :: _ => S q
                 end in
    let n := (Z.to_nat k `min` (quota `min` length (inbound s)))%nat in
    (Return (take n (inbound s)),
     Make (drop n (inbound s)) (tail (sched s)) (outbound s)
          (closed s) (shut_wr s)).

(** [send(data)]: on a blocking socket the whole of [data] is queued; the
    number of bytes is returned. *)
Definition send (data : list byte) (s : t) : outcome Z * t :=
  if closed s then (bad_fd, s)
  else if shut_wr s then
    (Raise (Exn BrokenPipeError "[Errno 32] Broken pipe"), s)
  else (Return (len data),
        Make (inbound s) (sched s) (outbound s ++ data)
             (closed s) (shut_wr s)).

Definition shutdown_wr (s : t) : outcome unit * t :=
  if closed s then (bad_fd, s)
  else (Return tt,
        Make (inbound s) (sched s) (outbound s) (closed s) true).

Definition close (s : t) : outcome unit * t :=
  (Return tt, Make (inbound s) (sched s) (outbound s) true (shut_wr s)).

End Socket.

(* ===================================================================== *)
(** ** Data model *)
(* ===================================================================== *)

(** The attributes of [pymonetdb.target.Target] this module reads. *)
Module Target.
Record t : Type := Make {
  user : option string;
  password : option string;
  database : option string;
  effective_language : string;
  effective_use_tls : bool;
  effective_unix_sock : option string;
  effective_tcp_host : option string;
  effective_port : Z;
  effective_connect_timeout : option Z
}.

(** [Target()]: a target with nothing filled in. *)
Definition default : t :=
  Make None None None "sql" false None None 50000 None.
End Target.

(** The value of a handshake option: an [int] or a [bool]. *)
Inductive optval : Type :=
  | VInt (z : Z)
  | VBool (b : bool).

(** [int(value)]. *)
Definition int_of_optval (v : optval) : Z :=
  match v with
  | VInt z => z
  | VBool b => if b then 1 else 0
  end.

(** [class HandshakeOption].  [fallback] names the function-like object;
    what calling it does is a parameter of the connection code below. *)
Module HandshakeOption.
Record t : Type := Make {
  level : Z;
  name : string;
  value : optval;
  fallback : nat;
  sent : bool
}.

(** [HandshakeOption(level, name, fallback, value)]. *)
Definition __init__ (level : Z) (name : string) (fallback : nat)
  (value : optval) : t :=
  Make level name value fallback false.

(** [opt.sent = True]. *)
Definition mark_sent (o : t) : t :=
  Make (level o) (name o) (value o) (fallback o) true.
End HandshakeOption.

Definition STATE_INIT : Z := 0.
Definition STATE_READY : Z := 1.

Definition MAX_PACKAGE_LENGTH : Z := (1024 * 8) - 2.

Definition MSG_PROMPT : string := "".
Definition MSG_MORE : string := String "001" (String "002" (String "010" "")).
Definition MSG_FILETRANS : string :=
  String "001" (String "003" (String "010" "")).
Definition MSG_INFO : string := "#".
Definition MSG_ERROR : string := "!".
Definition MSG_Q : string := "&".
Definition MSG_QUPDATE : string := "&2".
Definition MSG_HEADER : string := "%".
Definition MSG_TUPLE : string := "[".
Definition MSG_REDIRECT : string := "^".
Definition MSG_OK : string := "=OK".

Definition MSG_ERROR_B : list byte := bytes_of_string MSG_ERROR.
Definition MSG_FILETRANS_B : list byte := bytes_of_string MSG_FILETRANS.

(** [class Connection]: the attributes of one connection object.  [socket]
    is a reference into the store of socket objects. *)
Record Connection : Type := MkConnection {
  state : Z;
  target : Target.t;
  socket : option nat;
  is_tcp : option bool;
  is_raw_control : option bool;
  handshake_options_callback : option (Z -> list HandshakeOption.t);
  remaining_handshake_options : list HandshakeOption.t;
  stashed_buffer : option (list byte);
  server_endian : option string;
  binexport_level : Z
}.

(** The class attributes: a connection nobody has touched yet. *)
Definition new_connection : Connection :=
  MkConnection STATE_INIT Target.default None None None None [] None None 0.

Inductive loglevel : Type := DEBUG | INFO | ERROR.

(** Everything the code can see or change: the connection object, the socket
    objects ever created, what was logged, and which fallbacks were called
    with which value (oldest first). *)
Record World : Type := MkWorld {
  self : Connection;
  sockets : list Socket.t;
  logged : list (loglevel * string);
  fallback_calls : list (nat * optval)
}.

Definition new_world : World := MkWorld new_connection [] [] [].

(* ===================================================================== *)
(** ** The monad of connection code *)
(* ===================================================================== *)

Definition M (A : Type) : Type := World -> outcome A * World.

Definition ret {A} (a : A) : M A := fun w => (Return a, w).

Definition raise {A} (cls : exn_class) (msg : string) : M A :=
  fun w => (Raise (Exn cls msg), w).

Definition timeout {A} : M A := fun w => (Timeout, w).

Definition bind {A B} (m : M A) (k : A -> M B) : M B :=
  fun w =>
    match m w with
    | (Return a, w') => k a w'
    | (Raise e, w') => (Raise e, w')
    | (Timeout, w') => (Timeout, w')
    end.

Declare Scope mapi_scope.
Delimit Scope mapi_scope with mapi.
Notation "x <- m ;; k" := (bind m (fun x => k))
  (at level 100, m at next level, right associativity) : mapi_scope.
Notation "m ;; k" := (bind m (fun _ => k))
  (at level 100, right associativity) : mapi_scope.
Open Scope mapi_scope.

(** A pure call that may raise. *)
Definition lift {A} (o : outcome A) : M A := fun w => (o, w).

(** [assert b]. *)
Definition assert (b : bool) : M unit :=
  if b then ret tt else raise AssertionError "".

(** [try: m  except cls: handler]. *)
Definition try_except {A} (m : M A) (catches : exn_class -> bool)
  (handler : exn -> M A) : M A :=
  fun w =>
    match m w with
    | (Raise e, w') => if catches (exn_kind e) then handler e w'
                       else (Raise e, w')
    | r => r
    end.

(** Reading and assigning the attributes of [self]. *)
Definition get {A} (f : Connection -> A) : M A := fun w => (Return (f (self w)), w).

Definition update (f : Connection -> Connection) : M unit :=
  fun w => (Return tt,
            MkWorld (f (self w)) (sockets w) (logged w) (fallback_calls w)).

Definition set_state (v : Z) : M unit :=
  update (fun c => MkConnection v (target c) (socket c) (is_tcp c)
    (is_raw_control c) (handshake_options_callback c)
    (remaining_handshake_options c) (stashed_buffer c) (server_endian c)
    (binexport_level c)).

Definition set_target (v : Target.t) : M unit :=
  update (fun c => MkConnection (state c) v (socket c) (is_tcp c)
    (is_raw_control c) (handshake_options_callback c)
    (remaining_handshake_options c) (stashed_buffer c) (server_endian c)
    (binexport_level c)).

Definition set_socket (v : option nat) : M unit :=
  update (fun c => MkConnection (state c) (target c) v (is_tcp c)
    (is_raw_control c) (handshake_options_callback c)
    (remaining_handshake_options c) (stashed_buffer c) (server_endian c)
    (binexport_level c)).

Definition set_is_tcp (v : option bool) : M unit :=
  update (fun c => MkConnection (state c) (target c) (socket c) v
    (is_raw_control c) (handshake_options_callback c)
    (remaining_handshake_options c) (stashed_buffer c) (server_endian c)
    (binexport_level c)).

Definition set_is_raw_control (v : option bool) : M unit :=
  update (fun c => MkConnection (state c) (target c) (socket c) (is_tcp c)
    v (handshake_options_callback c)
    (remaining_handshake_options c) (stashed_buffer c) (server_endian c)
    (binexport_level c)).

Definition set_handshake_options_callback
  (v : option (Z -> list HandshakeOption.t)) : M unit :=
  update (fun c => MkConnection (state c) (target c) (socket c) (is_tcp c)
    (is_raw_control c) v
    (remaining_handshake_options c) (stashed_buffer c) (server_endian c)
    (binexport_level c)).

Definition set_remaining_handshake_options (v : list HandshakeOption.t)
  : M unit :=
  update (fun c => MkConnection (state c) (target c) (socket c) (is_tcp c)
    (is_raw_control c) (handshake_options_callback c)
    v (stashed_buffer c) (server_endian c) (binexport_level c)).

Definition set_stashed_buffer (v : option (list byte)) : M unit :=
  update (fun c => MkConnection (state c) (target c) (socket c) (is_tcp c)
    (is_raw_control c) (handshake_options_callback c)
    (remaining_handshake_options c) v (server_endian c) (binexport_level c)).

Definition set_server_endian (v : option string) : M unit :=
  update (fun c => MkConnection (state c) (target c) (socket c) (is_tcp c)
    (is_raw_control c) (handshake_options_callback c)
    (remaining_handshake_options c) (stashed_buffer c) v (binexport_level c)).

Definition set_binexport_level (v : Z) : M unit :=
  update (fun c => MkConnection (state c) (target c) (socket c) (is_tcp c)
    (is_raw_control c) (handshake_options_callback c)
    (remaining_handshake_options c) (stashed_buffer c) (server_endian c) v).

(** [logger.debug], [logger.info], [logger.error]. *)
Definition logger (lvl : loglevel) (msg : string) : M unit :=
  fun w => (Return tt,
            MkWorld (self w) (sockets w) (logged w ++ [(lvl, msg)])
                    (fallback_calls w)).

(** A method call on the socket object behind reference [r]. *)
Definition on_socket {A} (r : nat) (f : Socket.t -> outcome A * Socket.t)
  : M A :=
  fun w =>
    match sockets w !! r with
    | Some s =>
        let '(o, s') := f s in
        (o, MkWorld (self w) (<[r := s']> (sockets w)) (logged w)
                    (fallback_calls w))
    | None => (Raise (Exn AttributeError "no such socket object"), w)
    end.

(** A method call on [self.socket]; on [None] Python raises
    [AttributeError]. *)
Definition on_self_socket {A} (f : Socket.t -> outcome A * Socket.t) : M A :=
  r <- get socket ;;
  match r with
  | Some r => on_socket r f
  | None => raise AttributeError "'NoneType' object has no attribute"
  end.

(** [socket.socket(...)] followed by a successful [connect]: a new socket
    object. *)
Definition new_socket (s : Socket.t) : M nat :=
  fun w => (Return (length (sockets w)),
            MkWorld (self w) (sockets w ++ [s]) (logged w) (fallback_calls w)).

(** The socket object [self.socket] refers to, if any. *)
Definition the_socket (w : World) : option Socket.t :=
  r ← socket (self w); sockets w !! r.

(* ===================================================================== *)
(** ** The connection code *)
(* ===================================================================== *)

(** What the module takes from outside. *)
Record Env : Type := MkEnv {
  (** [str(b, 'utf-8')] ([None]: [UnicodeDecodeError]) and [s.encode()]. *)
  env_utf8_decode : list byte -> option string;
  env_utf8_encode : string -> list byte;
  (** [hashlib.new(name)]: [None] is the [ValueError] for a name the client
      does not implement; otherwise the function from everything fed to
      [update] to [hexdigest()]. *)
  env_hashlib_new : string -> option (list byte -> string);
  (** [int(s)] on a [str]: [None] is [ValueError]. *)
  env_int_of_str : string -> option Z;
  (** The network: what connecting to a Unix socket path or to a resolved
      address gives, and [socket.getaddrinfo] ([inl msg]: [OSError(msg)]). *)
  env_unix_connect : string -> string + Socket.t;
  env_getaddrinfo : string -> Z -> string + list (string * Z);
  env_tcp_connect : string * Z -> string + Socket.t;
  (** [pymonetdb.target]: [validate], [parse_url] and
      [parse_mapi_merovingian_url] ([inl msg]: [ValueError(msg)]). *)
  env_target_validate : Target.t -> option string;
  env_target_parse_url : Target.t -> string -> string + Target.t;
  env_target_parse_mapi_merovingian_url
    : Target.t -> string -> string + Target.t;
  (** The TLS branch of [prime_or_wrap_connection] (the [ssl] module). *)
  env_tls_wrap : M unit;
  (** [pymonetdb.filetransfer.handle_file_transfer(self, cmd)]. *)
  env_handle_file_transfer : string -> M unit;
  (** What calling the fallback named [f] with a value does. *)
  env_fallback_body : nat -> optval -> M unit
}.

Section Mapi.

Context (env : Env).

#[local] Abbreviation utf8_decode := (env_utf8_decode env).
#[local] Abbreviation utf8_encode := (env_utf8_encode env).
#[local] Abbreviation hashlib_new := (env_hashlib_new env).
#[local] Abbreviation int_of_str := (env_int_of_str env).
#[local] Abbreviation unix_connect := (env_unix_connect env).
#[local] Abbreviation getaddrinfo := (env_getaddrinfo env).
#[local] Abbreviation tcp_connect := (env_tcp_connect env).
#[local] Abbreviation target_validate := (env_target_validate env).
#[local] Abbreviation target_parse_url := (env_target_parse_url env).
#[local] Abbreviation target_parse_mapi_merovingian_url :=
  (env_target_parse_mapi_merovingian_url env).
#[local] Abbreviation tls_wrap := (env_tls_wrap env).
#[local] Abbreviation handle_file_transfer :=
  (env_handle_file_transfer env).
#[local] Abbreviation fallback_body := (env_fallback_body env).

(** [x.encode('utf-8')] / [str(b, 'utf-8')] in the monad. *)
Definition decode (b : list byte) : M string :=
  match utf8_decode b with
  | Some s => ret s
  | None => raise UnicodeDecodeError "'utf-8' codec can't decode"
  end.

(** *** Reading blocks *)

(** The [while offset < end] loop of [_getbytes]. *)
Fixpoint _getbytes_loop (fuel : nat) (buffer : list byte) (offset end_ : Z)
  : M (list byte) :=
  if offset <? end_ then
    match fuel with
    | O => timeout
    | S fuel' =>
        let view := slice buffer offset end_ in
        data <- on_self_socket (Socket.recv (len view)) ;;
        let n := len data in
        if n =? 0 then raise BrokenPipeError "Server closed connection"
        else _getbytes_loop fuel' (write_at buffer offset data)
                            (offset + n) end_
    end
  else ret buffer.

(** [_getbytes(buffer, offset, count)]: read [count] bytes from the socket
    into [buffer] starting at [offset], enlarging it if necessary; the
    buffer and [offset + count]. *)
Definition _getbytes (buffer : list byte) (offset count : Z)
  : M (list byte * Z) :=
  s <- get socket ;;
  assert (bool_decide (is_Some s)) ;;
  let end_ := count + offset in
  let buffer :=
    if len buffer <? end_ then
      (* enlarge *)
      let nblocks := 1 + (end_ - len buffer) / 8192 in
      (buffer ++ zeros (nblocks * 8192))%list
    else buffer in
  buffer <- _getbytes_loop (Z.to_nat (end_ - offset)) buffer offset end_ ;;
  ret (buffer, end_).

(** [buffer[i]] for [i >= 0]. *)
Definition getitem (buffer : list byte) (i : Z) : M Z :=
  match (if i <? 0 then None else buffer !! Z.to_nat i) with
  | Some b => ret (byte_to_Z b)
  | None => raise IndexError "bytearray index out of range"
  end.

(** [_get_minor_block(buffer, offset)]. *)
Definition _get_minor_block (buffer : list byte) (offset : Z)
  : M (list byte * Z * bool) :=
  r <- _getbytes buffer offset 2 ;;
  let buffer := fst r in
  b0 <- getitem buffer offset ;;
  b1 <- getitem buffer (offset + 1) ;;
  let unpacked := b0 + 256 * b1 in
  let length := Z.shiftr unpacked 1 in
  let last := Z.land unpacked 1 in
  r <- (if length =? 0 then ret (buffer, offset)
        else _getbytes buffer offset length) ;;
  ret (fst r, snd r, negb (last =? 0)).

(** The [while not last] loop of [_getblock_raw]. *)
Fixpoint _getblock_raw_loop (fuel : nat) (buffer : list byte) (offset : Z)
  : M (list byte * Z) :=
  match fuel with
  | O => timeout
  | S fuel' =>
      r <- _get_minor_block buffer offset ;;
      let '(buffer, offset, last) := r in
      if last then ret (buffer, offset)
      else _getblock_raw_loop fuel' buffer offset
  end.

(** [_getblock_raw(buffer, offset)]: read one mapi block into [buffer]
    starting at [offset]; the buffer and [offset] plus the number of bytes
    read.  Every minor block takes at least its two header bytes off the
    stream, which bounds the loop. *)
Definition _getblock_raw (buffer : list byte) (offset : Z)
  : M (list byte * Z) :=
  fun w =>
    let fuel := match the_socket w with
                | Some s => S (length (Socket.inbound s))
                | None => 1%nat
                end in
    _getblock_raw_loop fuel buffer offset w.

(** *** Writing blocks *)

(** The [while not last] loop of [_putblock_raw]. *)
Fixpoint _putblock_raw_loop (fuel : nat) (block : list byte) (finish : bool)
  (pos : Z) : M unit :=
  match fuel with
  | O => timeout
  | S fuel' =>
      let data := slice block pos (pos + MAX_PACKAGE_LENGTH) in
      let length := len data in
      let last := if length <? MAX_PACKAGE_LENGTH then 1 else 0 in
      flag <- lift (struct_pack_H (Z.shiftl length 1
                                   + (if finish then last else 0))) ;;
      on_self_socket (Socket.send flag) ;;
      on_self_socket (Socket.send data) ;;
      if last =? 0 then _putblock_raw_loop fuel' block finish (pos + length)
      else ret tt
  end.

(** [_putblock_raw(block, finish)]: put the data into the socket.  Every
    round but the last moves [pos] on by [MAX_PACKAGE_LENGTH]. *)
Definition _putblock_raw (block : list byte) (finish : bool) : M unit :=
  _putblock_raw_loop (S (Z.to_nat (len block / MAX_PACKAGE_LENGTH)))
                     block finish 0.

(** *** The buffer pool *)

(** [_get_buffer()]: retrieve a previously stashed buffer for reuse, or
    create a new one. *)
Definition _get_buffer : M (list byte) :=
  b <- get stashed_buffer ;;
  match b with
  | Some (x :: l) => set_stashed_buffer None ;; ret (x :: l)
  | _ => ret (zeros 8192)
  end.

(** [_stash_buffer(buffer)]: stash a used buffer for future reuse. *)
Definition _stash_buffer (buffer : list byte) : M unit :=
  b <- get stashed_buffer ;;
  match b with
  | None => set_stashed_buffer (Some buffer)
  | Some old =>
      if len old <? len buffer then set_stashed_buffer (Some buffer)
      else ret tt
  end.

(** *** Control connections *)

(** The loop of [_recv_to_end]. *)
Fixpoint _recv_to_end_loop (fuel : nat) (parts : list (list byte))
  : M (list (list byte)) :=
  match fuel with
  | O => timeout
  | S fuel' =>
      s <- get socket ;;
      assert (bool_decide (is_Some s)) ;;
      received <- on_self_socket (Socket.recv 4096) ;;
      match received with
      | [] => ret parts
      | _ => _recv_to_end_loop fuel' (parts ++ [received])%list
      end
  end.

(** [_recv_to_end()]: read bytes from the socket until the server closes
    the connection.  Every round but the last takes a byte off the
    stream. *)
Definition _recv_to_end : M string :=
  fun w =>
    let fuel := match the_socket w with
                | Some s => S (length (Socket.inbound s))
                | None => 1%nat
                end in
    (parts <- _recv_to_end_loop fuel [] ;;
     decode (bytes_strip (concat parts))) w.

(** The loop of [_send_all_and_shutdown]. *)
Fixpoint _send_all_loop (fuel : nat) (block : list byte) (pos end_ : Z)
  : M unit :=
  if pos <? end_ then
    match fuel with
    | O => timeout
    | S fuel' =>
        let data := slice block pos (pos + 8192) in
        nsent <- on_self_socket (Socket.send data) ;;
        _send_all_loop fuel' block (pos + nsent) end_
    end
  else ret tt.

(** [_send_all_and_shutdown(block)]. *)
Definition _send_all_and_shutdown (block : list byte) : M unit :=
  _send_all_loop (Z.to_nat (len block)) block 0 (len block) ;;
  try_except (on_self_socket Socket.shutdown_wr) is_OSError
             (fun _ => ret tt).

(** *** Blocks of text *)

(** [x] is true in a condition, for an [Optional[bool]]. *)
Definition truthy (x : option bool) : bool :=
  match x with
  | Some true => true
  | _ => false
  end.

(** [_putblock(block)]: wrap the line in mapi format and put it into the
    socket. *)
Definition _putblock (block : string) : M unit :=
  let data := utf8_encode block in
  rc <- get is_raw_control ;;
  if truthy rc then
    (* control does not use the blocking protocol *)
    _send_all_and_shutdown data
  else _putblock_raw (utf8_encode block) true.

(** [_getblock()]: read one mapi encoded block. *)
Definition _getblock : M string :=
  rc <- get is_raw_control ;;
  if truthy rc then
    (* control connections do not use the blocking protocol *)
    _recv_to_end
  else
    buf <- _get_buffer ;;
    r <- _getblock_raw buf 0 ;;
    let '(buf, end_) := r in
    ret_ <- decode (slice buf 0 end_) ;;
    _stash_buffer buf ;;
    ret ret_.

(** The [while True] loop of [_getblock_and_transfer_files]. *)
Fixpoint _getblock_and_transfer_files_loop (fuel : nat)
  (buffer : list byte) (offset : Z) : M (list byte * Z) :=
  match fuel with
  | O => timeout
  | S fuel' =>
      let old_offset := offset in
      r <- _getblock_raw buffer old_offset ;;
      let '(buffer, offset) := r in
      let i := rfind buffer x0a old_offset (offset - 1) in
      if (old_offset + 2 <=? i)
         && bool_decide (slice buffer (i - 2) (i + 1) = MSG_FILETRANS_B)
      then
        (* File transfer request. Chop the cmd off the buffer by lowering
           the offset *)
        cmd <- decode (slice buffer (i + 1) (offset - 1)) ;;
        handle_file_transfer cmd ;;
        _getblock_and_transfer_files_loop fuel' buffer (i - 2)
      else ret (buffer, offset)
  end.

(** [_getblock_and_transfer_files()]: read one mapi encoded block and
    take care of any file transfers the server requests.  [fuel] bounds
    the number of file transfers. *)
Definition _getblock_and_transfer_files (fuel : nat) : M string :=
  rc <- get is_raw_control ;;
  if truthy rc then
    (* control connections do not use the blocking protocol and do not
       transfer files *)
    _recv_to_end
  else
    buffer <- _get_buffer ;;
    r <- _getblock_and_transfer_files_loop fuel buffer 0 ;;
    let '(buffer, offset) := r in
    _stash_buffer buffer ;;
    decode (slice buffer 0 offset).

(** *** Commands *)

(** [raise exception(msg)] for the pair [handle_error] returns. *)
Definition raise_handled {A} (error : string) : M A :=
  r <- lift (handle_error error) ;;
  raise (fst r) (snd r).

(** [x.strip() or ""]. *)
Definition strip_or_empty (x : string) : string :=
  match Str.strip x with
  | EmptyString => ""
  | r => r
  end.

(** [cmd(operation)]: put a mapi command on the line.  [fuel] bounds the
    depth of the recursion on [MSG_MORE] and the number of file
    transfers. *)
Fixpoint cmd (fuel : nat) (operation : string) : M retval :=
  match fuel with
  | O => timeout
  | S fuel' =>
      logger DEBUG ("executing command " ++ operation) ;;
      st <- get state ;;
      if negb (st =? STATE_READY) then raise ProgrammingError "Not connected"
      else
        _putblock operation ;;
        response <- _getblock_and_transfer_files fuel ;;
        if (String.length response =? 0)%nat then ret (RStr "")
        else if Str.startswith MSG_OK response
        then ret (RStr (strip_or_empty (Str.drop 3 response)))
        else if String.eqb response MSG_MORE then
          (* tell server it isn't going to get more *)
          cmd fuel' ""
        else
          (* If we are performing an update test for errors such as a
             failed transaction. *)
          (if String.eqb (Str.take 2 response) MSG_QUPDATE then
             let lines := Str.split "010" response in
             match filter (fun line => Str.startswith MSG_ERROR line = true)
                          lines with
             | line :: _ => raise_handled (Str.drop 1 line)
             | [] => ret tt
             end
           else ret tt) ;;
          let r0 := Str.take 1 response in
          if String.eqb r0 MSG_Q || String.eqb r0 MSG_HEADER
             || String.eqb r0 MSG_TUPLE
          then ret (RStr response)
          else if String.eqb r0 MSG_ERROR
          then raise_handled (Str.drop 1 response)
          else if String.eqb r0 MSG_INFO
          then logger INFO (Str.drop 1 response) ;; ret RNone
          else
            rc <- get is_raw_control ;;
            if truthy rc then
              if Str.startswith "OK" response
              then ret (RStr (strip_or_empty (Str.drop 2 response)))
              else ret (RStr response)
            else raise ProgrammingError ("unknown state: " ++ response)
  end.

(** [binary_cmd(operation)]: put a mapi command on the line, with a binary
    response. *)
Definition binary_cmd (operation : string) : M (list byte) :=
  logger DEBUG ("executing binary command " ++ operation) ;;
  st <- get state ;;
  if negb (st =? STATE_READY) then raise ProgrammingError "Not connected"
  else
    _putblock operation ;;
    buffer <- _get_buffer ;;
    r <- _getblock_raw buffer 0 ;;
    let '(buffer, n) := r in
    let view := slice buffer 0 n in
    _stash_buffer buffer ;;
    (* Handle !Error message *)
    if bool_decide (slice view 0 (len MSG_ERROR_B) = MSG_ERROR_B) then
      let msg_bytes := view in
      let idx := bfind msg_bytes x0a in
      let msg_bytes := if 0 <? idx then slice msg_bytes 1 (idx + 1)
                       else msg_bytes in
      msg <- decode msg_bytes ;;
      raise_handled msg
    else ret view.

(** [set_reply_size(size)]: set the amount of rows returned by the
    server. *)
Definition set_reply_size (fuel : nat) (size : Z) : M retval :=
  cmd fuel ("Xreply_size " ++ Str.of_int size).

(** *** Tearing down *)

(** [disconnect()]: disconnect from the monetdb server. *)
Definition disconnect : M unit :=
  logger INFO "disconnecting from database" ;;
  set_state STATE_INIT ;;
  on_self_socket Socket.close.

Definition bad_body : list byte :=
  (bytes_of_string "ERROR" ++ [x80] ++ bytes_of_string "ERROR")%list.

(** [_sabotage()]: kill the connection in a way that the server is sure to
    recognize as an error. *)
Definition _sabotage : M unit :=
  sock <- get socket ;;
  set_socket None ;;
  set_state STATE_INIT ;;
  match sock with
  | None => ret tt
  | Some sock =>
      (* larger than allowed, and not the final message *)
      bad_header <- lift (struct_pack_H (2 * 8193 + 0)) ;;
      (* invalid utf-8, and too small *)
      try_except
        (on_socket sock (Socket.send (bad_header ++ bad_body)%list) ;;
         (* and then we hang up *)
         on_socket sock Socket.close)
        is_Exception
        (fun _ => (* don't care *) ret tt)
  end.

(** *** The login handshake *)

(** The [for i in hashes.split(",")] loop of [_challenge_response]: the
    first algorithm [hashlib] implements, applied to the password hash
    followed by the salt; [None] when the loop runs to its [else]. *)
Fixpoint first_hash (names : list string) (password salt : string)
  : option string :=
  match names with
  | [] => None
  | i :: names' =>
      match hashlib_new i with
      | None => first_hash names' password salt
      | Some s =>
          Some ("{" ++ i ++ "}"
                ++ s (utf8_encode password ++ utf8_encode salt)%list)
      end
  end.

(** The [for part in challenges[6].split(",")] loop: the level of the last
    [sql=] part, starting from [options_level]. *)
Fixpoint sql_options_level (parts : list string) (options_level : Z)
  : outcome Z :=
  match parts with
  | [] => Return options_level
  | part :: parts' =>
      if Str.startswith "sql=" part then
        match int_of_str (Str.drop 4 part) with
        | Some n => sql_options_level parts' n
        | None =>
            Raise (Exn OperationalError
              ("invalid sql options level in server challenge: " ++ part))
        end
      else sql_options_level parts' options_level
  end.

(** The [for opt in handshake_options] loop: the entries to send, and the
    options with [sent] set on those. *)
Fixpoint select_options (handshake_options : list HandshakeOption.t)
  (options_level : Z) : list string * list HandshakeOption.t :=
  match handshake_options with
  | [] => ([], [])
  | opt :: rest =>
      let '(options, opts) := select_options rest options_level in
      if HandshakeOption.level opt <? options_level then
        ((HandshakeOption.name opt ++ "="
          ++ Str.of_int (int_of_optval (HandshakeOption.value opt)))
           :: options,
         HandshakeOption.mark_sent opt :: opts)
      else (options, opt :: opts)
  end.

(** [x or ''] for an [Optional[str]]. *)
Definition or_empty (x : option string) : string :=
  match x with
  | Some s => s
  | None => ""
  end.

(** [_challenge_response(challenge)]: generate a response to a mapi login
    challenge. *)
Definition _challenge_response (challenge : string) : M string :=
  let challenges := Str.split ":" challenge in
  if negb (String.eqb (List.last challenges "") "")
     || (len challenges <? 7)
  then raise OperationalError "Server sent invalid challenge"
  else
    let challenges := removelast challenges in
    match challenges with
    | salt :: server_type :: protocol :: hashes :: endian :: _ =>
        tgt <- get target ;;
        let '(user, password) :=
          if String.eqb server_type "merovingian" then ("merovingian", "")
          else (or_empty (Target.user tgt), or_empty (Target.password tgt))
        in
        (if String.eqb endian "LIT" then set_server_endian (Some "little")
         else if String.eqb endian "BIG" then set_server_endian (Some "big")
         else raise NotSupportedError ("Unknown byte order: " ++ endian)) ;;
        password <-
          (if String.eqb protocol "9" then
             let algo := nth 5 challenges "" in
             match hashlib_new algo with
             | Some h => ret (h (utf8_encode password))
             | None =>
                 raise NotSupportedError ("unsupported hash type " ++ algo)
             end
           else raise NotSupportedError "We only speak protocol v9") ;;
        pwhash <-
          match first_hash (Str.split "," hashes) password salt with
          | Some pwhash => ret pwhash
          | None =>
              raise NotSupportedError
                ("Unsupported hash algorithms required for login: "
                 ++ hashes)
          end ;;
        let response :=
          Str.join ":" [ "BIG"; user; pwhash; Target.effective_language tgt;
                         or_empty (Target.database tgt) ] ++ ":" in
        set_binexport_level 0 ;;
        (if 8 <=? len challenges then
           let part := nth 7 challenges "" in
           assert (Str.startswith "BINARY=" part) ;;
           match int_of_str (Str.drop 7 part) with
           | Some n => set_binexport_level n
           | None => raise ValueError "invalid literal for int()"
           end
         else ret tt) ;;
        callback <- get handshake_options_callback ;;
        level <- get binexport_level ;;
        let handshake_options :=
          match callback with
          | Some callback => callback level
          | None => []
          end in
        r <-
          (if 7 <=? len challenges then
             let response := response ++ "FILETRANS:" in
             options_level <-
               lift (sql_options_level
                       (Str.split "," (nth 6 challenges "")) 0) ;;
             let '(options, handshake_options) :=
               select_options handshake_options options_level in
             ret (response ++ Str.join "," options ++ ":",
                  handshake_options)
           else ret (response, handshake_options)) ;;
        let '(response, handshake_options) := r in
        set_remaining_handshake_options
          (filter (fun opt => HandshakeOption.sent opt = false)
                  handshake_options) ;;
        ret response
    | _ => raise ValueError "not enough values to unpack"
    end.

(** [_handle_redirect(redirect)]. *)
Definition _handle_redirect (redirect : string) : M unit :=
  tgt <- get target ;;
  if Str.startswith "mapi:merovingian:" redirect then
    logger DEBUG "restarting authentication" ;;
    match target_parse_mapi_merovingian_url tgt redirect with
    | inr tgt' => set_target tgt'
    | inl msg => raise DatabaseError msg
    end
  else
    logger DEBUG ("redirect to " ++ redirect) ;;
    match target_parse_url tgt redirect with
    | inr tgt' => set_target tgt'
    | inl msg => raise DatabaseError msg
    end ;;
    (* close the socket so the next iteration will reconnect based on the
       updated target. *)
    sock <- get socket ;;
    match sock with
    | Some _ => on_self_socket Socket.close ;; set_socket None
    | None => ret tt
    end.

(** [_login()]: reads challenge from line, generate response and check if
    everything is okay. *)
Definition _login : M bool :=
  s <- get socket ;;
  assert (bool_decide (is_Some s)) ;;
  challenge <- _getblock ;;
  response <- _challenge_response challenge ;;
  _putblock response ;;
  prompt <- _getblock ;;
  let prompt := Str.strip prompt in
  if (String.length prompt =? 0)%nat || String.eqb prompt MSG_OK then
    (* server is happy *)
    ret true
  else if Str.startswith MSG_INFO prompt then
    (* is this right? *)
    logger INFO (Str.drop 1 prompt) ;;
    ret true
  else if Str.startswith MSG_ERROR prompt then
    logger ERROR (Str.drop 1 prompt) ;;
    raise DatabaseError (Str.drop 1 prompt)
  else if Str.startswith MSG_REDIRECT prompt then
    (* a redirect can contain multiple redirects, we only use the first *)
    let redirect := Str.drop 1 (hd "" (Str.split "010" prompt)) in
    _handle_redirect redirect ;;
    ret false
  else raise ProgrammingError ("unknown state: " ++ prompt).

(** *** Connecting *)

(** The [for ... in addrs] loop of [try_connect]: [inr] when an address
    accepted the connection, [inl] the last error otherwise. *)
Fixpoint try_addrs (addrs : list (string * Z)) (err : option exn)
  : M (option exn + unit) :=
  match addrs with
  | [] => ret (inl err)
  | addr :: addrs' =>
      match tcp_connect addr with
      | inr s =>
          (* it worked! *)
          r <- new_socket s ;;
          set_socket (Some r) ;;
          set_is_tcp (Some true) ;;
          ret (inr tt)
      | inl msg => try_addrs addrs' (Some (Exn OSError msg))
      end
  end.

(** The TCP half of [try_connect], reached with the error of the Unix
    attempt, if there was one. *)
Definition try_connect_tcp (err : option exn) : M unit :=
  tgt <- get target ;;
  r <-
    match Target.effective_tcp_host tgt with
    | Some host =>
        match getaddrinfo host (Target.effective_port tgt) with
        | inr addrs => try_addrs addrs err
        | inl msg => raise OSError msg
        end
    | None => ret (inl err)
    end ;;
  match r with
  | inr _ => ret tt
  | inl (Some e) => raise (exn_kind e) (exn_msg e)
  | inl None =>
      raise InternalError
        "somehow effective_unix_sock and effective_tcp_host were both None"
  end.

(** [try_connect()]. *)
Definition try_connect : M unit :=
  tgt <- get target ;;
  match Target.effective_unix_sock tgt with
  | Some sock =>
      match unix_connect sock with
      | inr s =>
          (* it worked! *)
          r <- new_socket s ;;
          set_socket (Some r) ;;
          set_is_tcp (Some false)
      | inl msg => try_connect_tcp (Some (Exn OSError msg))
      end
  | None => try_connect_tcp None
  end.

(** [socket.sendall(data)]. *)
Definition sendall (data : list byte) : M unit :=
  on_self_socket (Socket.send data) ;; ret tt.

(** [prime_or_wrap_connection()]. *)
Definition prime_or_wrap_connection : M unit :=
  tgt <- get target ;;
  if negb (Target.effective_use_tls tgt) then
    (* Prime the connection with some NUL bytes. *)
    sendall (zeros 8)
  else tls_wrap.

(** One round of the loop of [connect]: [true] for [break], [false] for
    [continue]. *)
Definition connect_round : M bool :=
  (* maybe the previous attempt left an open socket that just needs an
     additional login attempt *)
  s <- get socket ;;
  match s with
  | None =>
      (* No, we need to make a new connection *)
      try_connect ;;
      s <- get socket ;;
      assert (bool_decide (is_Some s)) ;;
      set_is_raw_control (Some false) ;;
      tgt <- get target ;;
      tcp <- get is_tcp ;;
      if truthy tcp then prime_or_wrap_connection
      else if String.eqb (Target.effective_language tgt) "control"
      then set_is_raw_control (Some true)
      else
        (* Send a '0' (0x48) to let the other side know we're not going to
           try to pass a file handle. *)
        sendall (bytes_of_string "0")
  | Some _ => ret tt
  end ;;
  (* We have a connection now. Try to log in. *)
  rc <- get is_raw_control ;;
  if truthy rc then
    (* no login needed, we're done *)
    ret true
  else _login.

(** [for i in range(n): ... else: raise OperationalError(...)]. *)
Fixpoint connect_loop (n : nat) : M unit :=
  match n with
  | O => raise OperationalError "too many redirects"
  | S n' =>
      done <- connect_round ;;
      if done then ret tt else connect_loop n'
  end.

(** [opt.fallback(opt.value)]; the call is recorded. *)
Definition call_fallback (opt : HandshakeOption.t) : M unit :=
  fun w =>
    let f := HandshakeOption.fallback opt in
    let v := HandshakeOption.value opt in
    let '(o, w') := fallback_body f v w in
    (o, MkWorld (self w') (sockets w') (logged w')
                (fallback_calls w ++ [(f, v)])).

(** [for opt in opts: opt.fallback(opt.value)]. *)
Fixpoint call_fallbacks (opts : list HandshakeOption.t) : M unit :=
  match opts with
  | [] => ret tt
  | opt :: opts' => call_fallback opt ;; call_fallbacks opts'
  end.

(** The first part of [connect], up to the loop. *)
Definition connect_prelude (database : Target.t)
  (callback : option (Z -> list HandshakeOption.t)) : M unit :=
  match callback with
  | Some _ => set_handshake_options_callback callback
  | None => ret tt
  end ;;
  set_target database ;;
  (* Validate the target parameters *)
  match target_validate database with
  | Some msg => raise DatabaseError msg
  | None => ret tt
  end ;;
  (* Enter a loop to deal with redirects. *)
  s <- get socket ;;
  match s with
  | Some _ =>
      sock <- (fun w => (Return (the_socket w), w)) ;;
      assert (match sock with
              | Some sock => Socket.closed sock
              | None => false
              end) ;;
      set_socket None
  | None => ret tt
  end.

(** The last part of [connect], after the loop. *)
Definition connect_finish : M unit :=
  (* We have a working connection now. Take care of the options we
     couldn't handle during the handshake *)
  set_state STATE_READY ;;
  opts <- get remaining_handshake_options ;;
  call_fallbacks opts.

(** [connect(database, handshake_options_callback=callback)] for a
    [database] that is a [Target]: setup connection to MAPI server.  (With
    the legacy arguments the target is built by [pymonetdb.target]
    instead; socket timeouts are not modelled.) *)
Definition connect (database : Target.t)
  (callback : option (Z -> list HandshakeOption.t)) : M unit :=
  connect_prelude database callback ;;
  connect_loop 10 ;;
  connect_finish.

(** [n] rounds of the loop of [connect] in a row end in a redirect: where
    that leaves the world. *)
Fixpoint redirected (n : nat) (w : World) : option World :=
  match n with
  | O => Some w
  | S n' =>
      match connect_round w with
      | (Return false, w') => redirected n' w'
      | _ => None
      end
  end.

(** The options the callback offers, given the level the server
    advertised for binary result sets. *)
Definition offered (c : Connection) : list HandshakeOption.t :=
  match handshake_options_callback c with
  | Some callback => callback (binexport_level c)
  | None => []
  end.

End Mapi.

(** The entry of an option sent in the login response: [name=intval]. *)
Definition option_entry (o : HandshakeOption.t) : string :=
  HandshakeOption.name o ++ "="
  ++ Str.of_int (int_of_optval (HandshakeOption.value o)).

(** The call [opt.fallback(opt.value)] as it is recorded. *)
Definition fallback_call (o : HandshakeOption.t) : nat * optval :=
  (HandshakeOption.fallback o, HandshakeOption.value o).

(** The world [w] with the connection in state [READY], all else as it
    was. *)
Definition made_ready (w : World) : World :=
  MkWorld
    (MkConnection STATE_READY (target (self w)) (socket (self w))
       (is_tcp (self w)) (is_raw_control (self w))
       (handshake_options_callback (self w))
       (remaining_handshake_options (self w)) (stashed_buffer (self w))
       (server_endian (self w)) (binexport_level (self w)))
    (sockets w) (logged w) (fallback_calls w).

(** The world after the fallback of [o], called in [w], has left [w1]: what
    the fallback did, and the call recorded. *)
Definition after_fallback (o : HandshakeOption.t) (w w1 : World) : World :=
  MkWorld (self w1) (sockets w1) (logged w1)
          (fallback_calls w ++ [fallback_call o]).

(** [fallbacks_applied env opts w r]: [r] is how it ends to call, from the
    world [w] on, the fallback of each of [opts] with the value of its
    option, in list order, each in the world the one before it left, up to
    the first that does not return. *)
Inductive fallbacks_applied (env : Env)
  : list HandshakeOption.t -> World -> outcome unit * World -> Prop :=
  | fallbacks_done (w : World) :
      fallbacks_applied env [] w (Return tt, w)
  | fallbacks_next (o : HandshakeOption.t) (opts : list HandshakeOption.t)
      (w w1 : World) (r : outcome unit * World) :
      env_fallback_body env (HandshakeOption.fallback o)
        (HandshakeOption.value o) w = (Return tt, w1) ->
      fallbacks_applied env opts (after_fallback o w w1) r ->
      fallbacks_applied env (o :: opts) w r
  | fallbacks_stop (o : HandshakeOption.t) (opts : list HandshakeOption.t)
      (w w1 : World) (out : outcome unit) :
      env_fallback_body env (HandshakeOption.fallback o)
        (HandshakeOption.value o) w = (out, w1) ->
      out <> Return tt ->
      fallbacks_applied env (o :: opts) w (out, after_fallback o w w1).

(* ===================================================================== *)
(** ** The framing of the specification *)
(* ===================================================================== *)

(** The header of a minor block as the specification words it: 16 bits,
    little endian, bit 0 the [last] flag and bits 1-15 the payload length:
    [(length << 1) | last_bit]. *)
Definition header (length : Z) (last : bool) : list byte :=
  let v := Z.lor (Z.shiftl length 1) (if last then 1 else 0) in
  [byte_of_Z (Z.land v 255); byte_of_Z (Z.shiftr v 8)].

(** A minor block: the header, then the payload. *)
Definition minor_block (last : bool) (payload : list byte) : list byte :=
  (header (len payload) last ++ payload)%list.

(** [framed P wire]: [wire] is the message [P] written with [finish] set:
    full chunks of [MAX_PACKAGE_LENGTH] bytes with [last = 0], then one
    shorter (possibly empty) chunk with [last = 1]. *)
Inductive framed : list byte -> list byte -> Prop :=
  | framed_last (P : list byte) :
      len P < MAX_PACKAGE_LENGTH ->
      framed P (minor_block true P)
  | framed_more (c P wire : list byte) :
      len c = MAX_PACKAGE_LENGTH ->
      framed P wire ->
      framed (c ++ P)%list (minor_block false c ++ wire)%list.

(** The bytes running [m] from [w] adds to what the connection's socket has
    sent. *)
Definition sent {A} (m : M A) (w : World) : list byte :=
  match the_socket w, the_socket (snd (m w)) with
  | Some s, Some s' =>
      drop (length (Socket.outbound s)) (Socket.outbound s')
  | _, _ => []
  end.

(** A world with one connection whose socket is [s]. *)
Definition world_of (c : Connection) (s : Socket.t) : World :=
  MkWorld (MkConnection (state c) (target c) (Some 0%nat) (is_tcp c)
             (is_raw_control c) (handshake_options_callback c)
             (remaining_handshake_options c) (stashed_buffer c)
             (server_endian c) (binexport_level c))
          [s] [] [].

(** The world in which socket object [r] has become [s]. *)
Definition put_socket (w : World) (r : nat) (s : Socket.t) : World :=
  MkWorld (self w) (<[r := s]> (sockets w)) (logged w) (fallback_calls w).

(** [self.socket] is socket object [r], whose present state is [s]. *)
Definition has_socket (w : World) (r : nat) (s : Socket.t) : Prop :=
  socket (self w) = Some r /\ sockets w !! r = Some s.

(** The socket [s] after [rest] is all that is left to arrive. *)
Definition drained (s : Socket.t) (rest : list byte) (sch : list nat)
  : Socket.t :=
  Socket.Make rest sch (Socket.outbound s) false (Socket.shut_wr s).

(** The socket [s] after [data] more was sent. *)
Definition having_sent (s : Socket.t) (data : list byte) : Socket.t :=
  Socket.Make (Socket.inbound s) (Socket.sched s)
              (Socket.outbound s ++ data) false false.

(** The buffer [_getbytes] works on: [buffer], enlarged when too short. *)
Definition enlarged (buffer : list byte) (end_ : Z) : list byte :=
  if len buffer <? end_
  then (buffer ++ zeros ((1 + (end_ - len buffer) / 8192) * 8192))%list
  else buffer.

Definition server_closed : exn :=
  Exn BrokenPipeError "Server closed connection".

(** The stream ends inside a minor block: before its two header bytes, or
    before the payload its header announces. *)
Definition ends_mid_block (inbound : list byte) : Prop :=
  len inbound < 2 \/
  exists (n : Z) (last : bool) (c : list byte),
    0 <= n <= 32767 /\ len c < n /\ inbound = (header n last ++ c)%list.

(* ===================================================================== *)
(** ** The error classifier of the specification *)
(* ===================================================================== *)

(** What is left of [E] once the optional ["SQLException:"] prefix is
    stripped: with the prefix, everything from 10 characters past the first
    [':'] at an index of 14 or more. *)
Definition stripped (E R : string) : Prop :=
  (String.prefix "SQLException:" E = false /\ R = E) \/
  (String.prefix "SQLException:" E = true /\
   exists idx : nat,
     (14 <= idx)%nat /\ String.get idx E = Some ":"%char /\
     (forall j : nat, (14 <= j < idx)%nat -> String.get j E <> Some ":"%char) /\
     R = String.substring (idx + 10) (String.length E - (idx + 10)) E).

(** The kind the table of section 3 gives the remaining string. *)
Definition kind_of (R : string) : exn_class :=
  let code := String.substring 0 5 R in
  if (5 <? String.length R)%nat && (code =? "42S02")%string
  then OperationalError
  else if (5 <? String.length R)%nat
          && ((code =? "40002") || (code =? "2D000")
              || (code =? "40000") || (code =? "M0M29"))%string
  then IntegrityError
  else OperationalError.

(** The precondition under which the colon search cannot fail. *)
Definition colon_after_prefix (E : string) : Prop :=
  String.prefix "SQLException:" E = true ->
  exists i : nat, (14 <= i)%nat /\ String.get i E = Some ":"%char.

(* ===================================================================== *)
(** ** A small world to run the code in *)
(* ===================================================================== *)

(** Stand-ins for what the module takes from outside, enough to run the code
    on concrete inputs: an ASCII codec, digests that spell out what was
    hashed, decimal [int()], and a network of Unix sockets in which the
    server at path [sK] redirects to [s(K+1)] up to a given number, after
    which the login is accepted. *)
Module Scenario.

Definition decode (b : list byte) : option string :=
  if forallb (fun x => (Byte.to_N x <? 128)%N) b
  then Some (string_of_list_byte b) else None.

Definition encode (s : string) : list byte := list_byte_of_string s.

Definition hashlib_new (name : string) : option (list byte -> string) :=
  if String.eqb name "SHA512" || String.eqb name "SHA256"
     || String.eqb name "SHA1"
  then Some (fun data => name ++ "(" ++ string_of_list_byte data ++ ")")
  else None.

Definition int_of_str (s : string) : option Z :=
  Z.of_int <$> NilZero.int_of_string s.

(** One message, framed, for messages shorter than a chunk. *)
Definition block (s : string) : list byte := minor_block true (encode s).

Definition challenge : string :=
  "sXYZ:mserver:9:SHA256,SHA1:LIT:SHA512:sql=2:BINARY=1:".

(** The number of the server at path [sK]. *)
Definition server_number (path : string) : option Z :=
  if Str.startswith "s" path then int_of_str (Str.drop 1 path) else None.

(** What the server at [path] sends: the challenge, then a redirect to the
    next server, or an empty prompt from server [redirects] on. *)
Definition unix_connect (redirects : Z) (path : string)
  : string + Socket.t :=
  match server_number path with
  | Some k =>
      let prompt :=
        if k <? redirects
        then "^mapi:monetdb:///s" ++ Str.of_int (k + 1) ++ String "010" ""
        else "" in
      inr (Socket.connected (block challenge ++ block prompt)%list [])
  | None => inl "[Errno 2] No such file or directory"
  end.

Definition getaddrinfo (host : string) (port : Z)
  : string + list (string * Z) := inl "[Errno -2] Name or service not known".

Definition tcp_connect (addr : string * Z) : string + Socket.t :=
  inl "[Errno 111] Connection refused".

Definition target_validate (t : Target.t) : option string := None.

Definition with_unix_sock (t : Target.t) (path : string) : Target.t :=
  Target.Make (Target.user t) (Target.password t) (Target.database t)
    (Target.effective_language t) (Target.effective_use_tls t)
    (Some path) (Target.effective_tcp_host t) (Target.effective_port t)
    (Target.effective_connect_timeout t).

Definition target_parse_url (t : Target.t) (url : string)
  : string + Target.t :=
  if Str.startswith "mapi:monetdb:///" url
  then inr (with_unix_sock t (Str.drop 16 url))
  else inl "unsupported url".

Definition target_parse_mapi_merovingian_url (t : Target.t) (url : string)
  : string + Target.t := inr t.

Definition tls_wrap : M unit := raise SSLError "no TLS here".

Definition handle_file_transfer (cmd : string) : M unit := ret tt.

Definition fallback_body (f : nat) (v : optval) : M unit := ret tt.

Definition the_target : Target.t :=
  Target.Make (Some "monetdb") (Some "monetdb") (Some "demo") "sql" false
              (Some "s0") None 50000 None.

(** The options of a client that wants a reply size and autocommit. *)
Definition callback (binexport_level : Z) : list HandshakeOption.t :=
  [ HandshakeOption.__init__ 1 "auto_commit" 0 (VBool true)
  ; HandshakeOption.__init__ 2 "reply_size" 1 (VInt 100)
  ; HandshakeOption.__init__ 5 "time_zone" 2 (VInt 3600) ].

Definition env (redirects : Z) : Env :=
  MkEnv decode encode hashlib_new int_of_str (unix_connect redirects)
    getaddrinfo tcp_connect target_validate target_parse_url
    target_parse_mapi_merovingian_url tls_wrap handle_file_transfer
    fallback_body.

(** A connection in state [READY] on whose socket [input] will arrive. *)
Definition ready_world (input : list byte) : World :=
  MkWorld (MkConnection STATE_READY the_target (Some 0%nat) (Some false)
             (Some false) None [] None None 0)
          [Socket.connected input []] [] [].

End Scenario.

(** The error of a command on a connection that is not [READY]. *)
Definition not_connected : exn := Exn ProgrammingError "Not connected".

(** The error of a connect that is redirected too often. *)
Definition too_many_redirects : exn :=
  Exn OperationalError "too many redirects".

(* ===================================================================== *)
(** ** The challenge and the login line of the specification *)
(* ===================================================================== *)

(** A field of the challenge: a string without a colon. *)
Definition colon_free (s : string) : Prop := Str.find ":" s = None.

(** The challenge with the given fields: each followed by a colon. *)
Definition challenge_of (fields : list string) : string :=
  fold_right (fun f acc => f ++ ":" ++ acc) "" fields.

(** The response line without options:
    [BIG:<user>:<wrapped_pwhash>:<language>:<database>:]. *)
Definition login_line (user pwhash language database : string) : string :=
  "BIG:" ++ user ++ ":" ++ pwhash ++ ":" ++ language ++ ":" ++ database
  ++ ":".

(** [i], with digest function [h], is the first name in [names] the client
    implements. *)
Definition first_implemented (env : Env) (names : list string)
  (i : string) (h : list byte -> string) : Prop :=
  exists pre post : list string,
    names = (pre ++ i :: post)%list /\
    Forall (fun n => env_hashlib_new env n = None) pre /\
    env_hashlib_new env i = Some h.

(** The credentials [_challenge_response] uses for a server type. *)
Definition credentials (t : Target.t) (server_type : string)
  : string * string :=
  if String.eqb server_type "merovingian" then ("merovingian", "")
  else (match Target.user t with Some u => u | None => "" end,
        match Target.password t with Some p => p | None => "" end).

(** What the loop over the options does to one option, given the level [N]
    the server advertised: [sent] is set when its level is below [N]. *)
Definition marked (N : Z) (o : HandshakeOption.t) : HandshakeOption.t :=
  if HandshakeOption.level o <? N then HandshakeOption.mark_sent o else o.

(** A world in which nothing has happened yet but the target and the
    callback are in place. *)
Definition fresh_world (t : Target.t)
  (callback : option (Z -> list HandshakeOption.t)) : World :=
  MkWorld (MkConnection STATE_INIT t None None None callback [] None None 0)
          [] [] [].

(** [unfinished P wire]: [wire] is [P] written with [finish] unset: the same
    chunks as [framed], all of them with [last = 0]. *)
Inductive unfinished : list byte -> list byte -> Prop :=
  | unfinished_last (P : list byte) :
      len P < MAX_PACKAGE_LENGTH ->
      unfinished P (minor_block false P)
  | unfinished_more (c P wire : list byte) :
      len c = MAX_PACKAGE_LENGTH ->
      unfinished P wire ->
      unfinished (c ++ P)%list (minor_block false c ++ wire)%list.

(** [w'] is [w] after an exchange on socket [r] that left it as [s']: only
    that socket and the stashed buffer may differ. *)
Definition exchanged (w w' : World) (r : nat) (s' : Socket.t) : Prop :=
  has_socket w' r s' /\
  sockets w' = <[r := s']> (sockets w) /\
  state (self w') = state (self w) /\
  target (self w') = target (self w) /\
  is_raw_control (self w') = is_raw_control (self w) /\
  remaining_handshake_options (self w')
  = remaining_handshake_options (self w) /\
  logged w' = logged w /\
  fallback_calls w' = fallback_calls w.

(** The connection [c'] is [c] but for the stashed buffer. *)
Definition stash_apart (c c' : Connection) : Prop :=
  state c' = state c /\ target c' = target c /\ socket c' = socket c /\
  is_tcp c' = is_tcp c /\ is_raw_control c' = is_raw_control c /\
  handshake_options_callback c' = handshake_options_callback c /\
  remaining_handshake_options c' = remaining_handshake_options c /\
  server_endian c' = server_endian c /\
  binexport_level c' = binexport_level c.

(** A stand-in network in which the host [db.example] has three addresses,
    of which only [up] accepts connections. *)
Module Network.

Definition getaddrinfo (host : string) (port : Z)
  : string + list (string * Z) :=
  if String.eqb host "db.example"
  then inr [("10.0.0.1", port); ("10.0.0.2", port); ("10.0.0.3", port)]
  else inl "[Errno -2] Name or service not known".

Definition refused (addr : string * Z) : string :=
  "[Errno 111] Connection refused by " ++ fst addr.

Definition tcp_connect (up : string) (addr : string * Z)
  : string + Socket.t :=
  if String.eqb (fst addr) up then inr (Socket.connected [] [])
  else inl (refused addr).

Definition env (up : string) : Env :=
  MkEnv Scenario.decode Scenario.encode Scenario.hashlib_new
    Scenario.int_of_str (Scenario.unix_connect 0) getaddrinfo (tcp_connect up)
    Scenario.target_validate Scenario.target_parse_url
    Scenario.target_parse_mapi_merovingian_url Scenario.tls_wrap
    Scenario.handle_file_transfer Scenario.fallback_body.

(** A target with a TCP host and, optionally, a Unix socket. *)
Definition the_target (unix_sock : option string) : Target.t :=
  Target.Make (Some "monetdb") (Some "monetdb") (Some "demo") "sql" false
              unix_sock (Some "db.example") 50000 None.

End Network.

(** What the handshake arithmetic leaves alone: everything but
    [server_endian], [binexport_level] and [remaining_handshake_options]. *)
Definition untouched (w w' : World) : Prop :=
  sockets w' = sockets w /\ logged w' = logged w /\
  fallback_calls w' = fallback_calls w /\
  state (self w') = state (self w) /\ target (self w') = target (self w) /\
  socket (self w') = socket (self w) /\ is_tcp (self w') = is_tcp (self w) /\
  is_raw_control (self w') = is_raw_control (self w) /\
  handshake_options_callback (self w')
  = handshake_options_callback (self w) /\
  stashed_buffer (self w') = stashed_buffer (self w).

(** [m] leaves all of that alone, however it ends. *)
Definition keeps {A} (m : M A) : Prop :=
  forall w, untouched w (snd (m w)).

(** The response of the stand-in client to the stand-in challenge. *)
Definition scenario_response : string :=
  "BIG:monetdb:{SHA256}SHA256(SHA512(monetdb)sXYZ):sql:demo:FILETRANS::".

(** A connection on whose socket the challenge and then [prompt] arrive. *)
Definition login_world (prompt : string) : World :=
  Scenario.ready_world (Scenario.block Scenario.challenge
                        ++ Scenario.block prompt ++ [])%list.

(** What [connect] sends before the login: eight NUL bytes on a TCP
    connection, ['0'] on a Unix domain socket. *)
Definition greeting (tcp : bool) : list byte :=
  if tcp then zeros 8 else bytes_of_string "0".

(** The connection as [connect] has it once the socket is there. *)
Definition wired (raw_control : bool) (w : World) : World :=
  snd (set_is_raw_control (Some raw_control) w).

(** The challenges the client turns down before it computes any hash, and
    the error each gets: fewer than six fields, a byte order other than
    [LIT] and [BIG], a protocol other than 9, a password hash the client
    does not implement; in this order. *)
Definition rejection (env : Env) (fields : list string) : option exn :=
  match fields with
  | salt :: server_type :: protocol :: hashes :: endian :: algo :: _ =>
      if negb (String.eqb endian "LIT" || String.eqb endian "BIG")
      then Some (Exn NotSupportedError ("Unknown byte order: " ++ endian))
      else if negb (String.eqb protocol "9")
      then Some (Exn NotSupportedError "We only speak protocol v9")
      else match env_hashlib_new env algo with
           | None =>
               Some (Exn NotSupportedError ("unsupported hash type " ++ algo))
           | Some _ => None
           end
  | _ => Some (Exn OperationalError "Server sent invalid challenge")
  end.

(* ===================================================================== *)
(** * Properties *)
(* ===================================================================== *)

(** ** Arithmetic of headers *)

Lemma MAX_PACKAGE_LENGTH_eq : MAX_PACKAGE_LENGTH = 8190.
Proof. reflexivity. Qed.

Lemma byte_to_of_Z (z : Z) : 0 <= z < 256 -> byte_to_Z (byte_of_Z z) = z.
Proof.
  intros Hz. unfold byte_to_Z, byte_of_Z.
  destruct (Byte.of_N (Z.to_N z)) as [b|] eqn:E.
  - apply Byte.to_of_N in E. rewrite E. lia.
  - apply Byte.of_N_None_iff in E. lia.
Qed.

(** The two header bytes of [v], read back the way [_get_minor_block]
    does. *)
Lemma header_value (v : Z) :
  0 <= v <= 65535 ->
  byte_to_Z (byte_of_Z (v mod 256)) + 256 * byte_to_Z (byte_of_Z (v / 256)) = v.
Proof.
  intros Hv.
  rewrite !byte_to_of_Z.
  - pose proof (Z.div_mod v 256). lia.
  - split; [apply Z.div_pos; lia | apply Z.div_lt_upper_bound; lia].
  - apply Z.mod_pos_bound. lia.
Qed.

Lemma header_length (n b : Z) :
  0 <= n -> 0 <= b <= 1 -> Z.shiftr (Z.shiftl n 1 + b) 1 = n.
Proof.
  intros Hn Hb. rewrite Z.shiftr_div_pow2, Z.shiftl_mul_pow2 by lia.
  change (2 ^ 1) with 2. symmetry. apply Z.div_unique with b; lia.
Qed.

Lemma header_last (n b : Z) :
  0 <= n -> 0 <= b <= 1 -> Z.land (Z.shiftl n 1 + b) 1 = b.
Proof.
  intros Hn Hb. change 1 with (Z.ones 1) at 2.
  rewrite Z.land_ones, Z.shiftl_mul_pow2 by lia.
  change (2 ^ 1) with 2. symmetry. apply Z.mod_unique with n; lia.
Qed.

(** ** Slices and in-place writes *)

Lemma len_app {A} (l k : list A) : len (l ++ k)%list = len l + len k.
Proof. unfold len. rewrite length_app. lia. Qed.

Lemma len_nonneg {A} (l : list A) : 0 <= len l.
Proof. unfold len. lia. Qed.

Lemma slice_nonneg {A} (l : list A) (lo hi : Z) :
  0 <= lo <= len l -> lo <= hi ->
  slice l lo hi = take (Z.to_nat (hi - lo)) (drop (Z.to_nat lo) l).
Proof.
  intros Hlo Hhi. unfold slice, slice_bound, len in *.
  destruct (Z.ltb_spec lo 0); [lia|].
  destruct (Z.ltb_spec hi 0); [lia|].
  rewrite (Z.min_l lo) by lia.
  destruct (Z.le_ge_cases hi (Z.of_nat (length l))).
  - rewrite Z.min_l by lia. reflexivity.
  - rewrite Z.min_r by lia.
    rewrite !take_ge; [reflexivity | |]; rewrite length_drop; lia.
Qed.

Lemma len_slice {A} (l : list A) (lo hi : Z) :
  0 <= lo <= hi -> hi <= len l -> len (slice l lo hi) = hi - lo.
Proof.
  intros Hlo Hhi. rewrite slice_nonneg by lia.
  unfold len in *. rewrite length_take, length_drop. lia.
Qed.

Lemma len_write_at (b : list byte) (o : Z) (d : list byte) :
  0 <= o -> o + len d <= len b -> len (write_at b o d) = len b.
Proof.
  intros Ho Hd. unfold write_at, len in *.
  rewrite !length_app, length_take, length_drop. lia.
Qed.

Lemma write_at_nil (b : list byte) (o : Z) : write_at b o [] = b.
Proof.
  unfold write_at. simpl. rewrite Nat.add_0_r. apply take_drop.
Qed.

Lemma write_at_app (b : list byte) (o : Z) (d1 d2 : list byte) :
  0 <= o <= len b ->
  write_at (write_at b o d1) (o + len d1) d2 = write_at b o (d1 ++ d2)%list.
Proof.
  intros Ho. unfold write_at, len in *.
  set (T := take (Z.to_nat o) b).
  assert (Hl : length (T ++ d1)%list = Z.to_nat (o + Z.of_nat (length d1))).
  { subst T. rewrite length_app, length_take. lia. }
  rewrite <- Hl, (app_assoc T d1), take_app_length.
  rewrite <- drop_drop, drop_app_length, drop_drop.
  rewrite length_app, <- !app_assoc.
  do 3 f_equal. f_equal. lia.
Qed.

(** What was written is what is read back from the same place. *)
Lemma take_write_at (b : list byte) (o : Z) (d : list byte) :
  0 <= o <= len b ->
  take (Z.to_nat (o + len d)) (write_at b o d)
  = (take (Z.to_nat o) b ++ d)%list.
Proof.
  intros Ho. unfold write_at, len in *.
  assert (Hl : length (take (Z.to_nat o) b) = Z.to_nat o)
    by (rewrite length_take; lia).
  rewrite app_assoc.
  replace (Z.to_nat (o + Z.of_nat (length d)))
    with (length (take (Z.to_nat o) b ++ d)%list)
    by (rewrite length_app, Hl; lia).
  apply take_app_length.
Qed.

(** ** Calls on the connection's socket *)

Lemma has_socket_the_socket w r s : has_socket w r s -> the_socket w = Some s.
Proof. intros [Hr Hs]. unfold the_socket. rewrite Hr. exact Hs. Qed.

Lemma has_socket_put w r s s' :
  has_socket w r s -> has_socket (put_socket w r s') r s'.
Proof.
  intros [Hr Hs]. split; [exact Hr|]. simpl.
  apply list_lookup_insert_eq. eapply lookup_lt_Some, Hs.
Qed.

Lemma put_socket_put w r s1 s2 :
  put_socket (put_socket w r s1) r s2 = put_socket w r s2.
Proof. unfold put_socket. simpl. by rewrite list_insert_insert_eq. Qed.

Lemma put_socket_same w r s : has_socket w r s -> put_socket w r s = w.
Proof.
  intros [_ Hs]. unfold put_socket. rewrite list_insert_id by exact Hs.
  by destruct w.
Qed.

Lemma on_self_socket_run {A} (f : Socket.t -> outcome A * Socket.t) w r s :
  has_socket w r s ->
  on_self_socket f w = (fst (f s), put_socket w r (snd (f s))).
Proof.
  intros [Hr Hs]. unfold on_self_socket, bind, get, on_socket.
  rewrite Hr, Hs. by destruct (f s).
Qed.

Lemma drained_same (s : Socket.t) :
  Socket.closed s = false ->
  drained s (Socket.inbound s) (Socket.sched s) = s.
Proof. intros Hc. unfold drained. destruct s; simpl in *. by subst. Qed.

Lemma recv_some (k : Z) (s : Socket.t) :
  Socket.closed s = false -> 0 < k -> Socket.inbound s <> [] ->
  exists n : nat,
    (0 < n)%nat /\ Z.of_nat n <= k /\ (n <= length (Socket.inbound s))%nat /\
    Socket.recv k s
    = (Return (take n (Socket.inbound s)),
       drained s (drop n (Socket.inbound s)) (tail (Socket.sched s))).
Proof.
  intros Hc Hk Hin. unfold Socket.recv, drained. rewrite Hc.
  set (quota := match Socket.sched s with
                | [] => length (Socket.inbound s) | q :: _ => S q end).
  exists (Z.to_nat k `min` (quota `min` length (Socket.inbound s)))%nat.
  assert (0 < length (Socket.inbound s))%nat
    by (destruct (Socket.inbound s); [done | simpl; lia]).
  assert (0 < quota)%nat by (subst quota; destruct (Socket.sched s); lia).
  repeat split; lia.
Qed.

Lemma recv_eof (k : Z) (s : Socket.t) :
  Socket.closed s = false -> Socket.inbound s = [] ->
  Socket.recv k s = (Return [], drained s [] (tail (Socket.sched s))).
Proof.
  intros Hc Hin. unfold Socket.recv, drained. rewrite Hc, Hin. simpl.
  by rewrite !Nat.min_0_r.
Qed.

(** ** [_getbytes] *)

(** With [count] bytes on the way, [_getbytes] stores exactly those, however
    the stream is cut up between [recv] calls. *)
Lemma _getbytes_loop_ok (fuel : nat) :
  forall buffer offset end_ data rest w r s,
    has_socket w r s -> Socket.closed s = false ->
    Socket.inbound s = (data ++ rest)%list ->
    len data = end_ - offset -> 0 <= offset -> end_ <= len buffer ->
    (Z.to_nat (end_ - offset) <= fuel)%nat ->
    exists sch,
      _getbytes_loop fuel buffer offset end_ w
      = (Return (write_at buffer offset data),
         put_socket w r (drained s rest sch)).
Proof.
  induction fuel as [|fuel IH];
    intros buffer offset end_ data rest w r s Hw Hc Hin Hlen Ho He Hf;
    simpl; destruct (Z.ltb_spec offset end_) as [Hlt|Hge].
  - lia.
  - assert (data = []) as -> by (destruct data; [done | unfold len in *; simpl in *; lia]).
    exists (Socket.sched s). rewrite write_at_nil. simpl in Hin.
    by rewrite <- Hin, drained_same, (put_socket_same w r s).
  - unfold bind. erewrite on_self_socket_run by exact Hw.
    rewrite len_slice by (pose proof (len_nonneg data); lia).
    destruct (recv_some (end_ - offset) s) as (n & Hn0 & Hnk & Hnin & ->);
      [done | lia | |].
    { rewrite Hin. destruct data; [unfold len in *; simpl in *; lia | done]. }
    simpl.
    assert (Hnd : (n <= length data)%nat) by (unfold len in *; lia).
    rewrite Hin, take_app_le, drop_app_le by lia.
    assert (Hlt' : len (take n data) = Z.of_nat n)
      by (unfold len; rewrite length_take; lia).
    rewrite Hlt'. destruct (Z.eqb_spec (Z.of_nat n) 0) as [|_]; [lia|].
    edestruct (IH (write_at buffer offset (take n data)) (offset + Z.of_nat n)
                 end_ (drop n data) rest
                 (put_socket w r (drained s (drop n data ++ rest)
                                    (tail (Socket.sched s)))) r)
      as [sch Hrun].
    + eapply has_socket_put, Hw.
    + reflexivity.
    + reflexivity.
    + unfold len in *. rewrite length_drop. lia.
    + lia.
    + rewrite len_write_at; [lia | lia |]. rewrite Hlt'. lia.
    + lia.
    + exists sch. rewrite Hrun, put_socket_put. f_equal.
      rewrite <- Hlt', write_at_app by lia. by rewrite take_drop.
  - assert (data = []) as -> by (destruct data; [done | unfold len in *; simpl in *; lia]).
    exists (Socket.sched s). rewrite write_at_nil. simpl in Hin.
    by rewrite <- Hin, drained_same, (put_socket_same w r s).
Qed.

Lemma enlarged_len (buffer : list byte) (end_ : Z) :
  end_ <= len (enlarged buffer end_).
Proof.
  unfold enlarged. destruct (Z.ltb_spec (len buffer) end_) as [Hlt|]; [|lia].
  rewrite len_app. unfold zeros, len at 2. rewrite length_replicate.
  pose proof (Z.div_mod (end_ - len buffer) 8192 ltac:(lia)).
  pose proof (Z.mod_pos_bound (end_ - len buffer) 8192 ltac:(lia)).
  pose proof (Z.div_pos (end_ - len buffer) 8192 ltac:(lia) ltac:(lia)).
  lia.
Qed.

Lemma enlarged_take (buffer : list byte) (end_ offset : Z) :
  0 <= offset <= len buffer ->
  take (Z.to_nat offset) (enlarged buffer end_) = take (Z.to_nat offset) buffer.
Proof.
  intros Ho. unfold enlarged. destruct (len buffer <? end_); [|done].
  apply take_app_le. unfold len in *. lia.
Qed.

Lemma _getbytes_ok buffer offset count data rest w r s :
  has_socket w r s -> Socket.closed s = false ->
  Socket.inbound s = (data ++ rest)%list ->
  len data = count -> 0 <= offset <= len buffer ->
  exists sch buffer',
    _getbytes buffer offset count w
    = (Return (buffer', offset + count), put_socket w r (drained s rest sch))
    /\ take (Z.to_nat (offset + count)) buffer'
       = (take (Z.to_nat offset) buffer ++ data)%list
    /\ offset + count <= len buffer'.
Proof.
  intros Hw Hc Hin Hlen Ho.
  pose proof (enlarged_len buffer (count + offset)) as Hel.
  destruct (_getbytes_loop_ok (Z.to_nat (count + offset - offset))
              (enlarged buffer (count + offset)) offset (count + offset)
              data rest w r s) as [sch Hrun]; try done; try lia.
  exists sch, (write_at (enlarged buffer (count + offset)) offset data).
  split; [|split].
  - unfold _getbytes, bind, get, assert. destruct Hw as [-> _]. simpl.
    fold (enlarged buffer (count + offset)). rewrite Hrun.
    unfold ret. by rewrite (Z.add_comm count offset).
  - subst count. rewrite take_write_at.
    + by rewrite enlarged_take.
    + pose proof (len_nonneg data). lia.
  - rewrite len_write_at; lia.
Qed.

(** When the stream ends before [count] bytes have arrived, [_getbytes]
    raises [BrokenPipeError]. *)
Lemma _getbytes_loop_eof (fuel : nat) :
  forall buffer offset end_ w r s,
    has_socket w r s -> Socket.closed s = false ->
    len (Socket.inbound s) < end_ - offset ->
    0 <= offset -> end_ <= len buffer ->
    (Z.to_nat (end_ - offset) <= fuel)%nat ->
    fst (_getbytes_loop fuel buffer offset end_ w)
    = Raise (Exn BrokenPipeError "Server closed connection").
Proof.
  induction fuel as [|fuel IH]; intros buffer offset end_ w r s Hw Hc Hin Ho He Hf;
    pose proof (len_nonneg (Socket.inbound s)); simpl;
    destruct (Z.ltb_spec offset end_) as [Hlt|Hge]; try lia.
  unfold bind. erewrite on_self_socket_run by exact Hw.
  rewrite len_slice by lia.
  destruct (decide (Socket.inbound s = [])) as [Hnil|Hne].
  - rewrite recv_eof by done. reflexivity.
  - destruct (recv_some (end_ - offset) s) as (n & Hn0 & Hnk & Hnin & ->);
      [done | lia | done |].
    simpl.
    assert (Hlt' : len (take n (Socket.inbound s)) = Z.of_nat n)
      by (unfold len; rewrite length_take; lia).
    rewrite Hlt'. destruct (Z.eqb_spec (Z.of_nat n) 0) as [|_]; [lia|].
    eapply IH.
    + eapply has_socket_put, Hw.
    + reflexivity.
    + simpl. unfold len in *. rewrite length_drop. lia.
    + lia.
    + rewrite len_write_at; [lia | lia |]. rewrite Hlt'. lia.
    + lia.
Qed.

Lemma _getbytes_eof buffer offset count w r s :
  has_socket w r s -> Socket.closed s = false ->
  len (Socket.inbound s) < count -> 0 <= offset ->
  fst (_getbytes buffer offset count w)
  = Raise (Exn BrokenPipeError "Server closed connection").
Proof.
  intros Hw Hc Hin Ho.
  pose proof (enlarged_len buffer (count + offset)) as Hel.
  pose proof (_getbytes_loop_eof (Z.to_nat (count + offset - offset))
              (enlarged buffer (count + offset)) offset (count + offset)
              w r s Hw Hc ltac:(lia) Ho Hel ltac:(lia)) as Hrun.
  unfold _getbytes, bind, get, assert. destruct Hw as [-> _]. simpl.
  fold (enlarged buffer (count + offset)).
  destruct (_getbytes_loop _ _ _ _ w) as [o w']. simpl in Hrun. by subst o.
Qed.

(** ** Minor blocks *)

(** [struct.pack('<H', (length << 1) + last)] is the header of the
    specification. *)
Lemma struct_pack_header (n : Z) (last : bool) :
  0 <= n <= 32767 ->
  struct_pack_H (Z.shiftl n 1 + (if last then 1 else 0))
  = Return (header n last).
Proof.
  intros Hn. set (b := if last then 1 else 0).
  assert (Hb : 0 <= b <= 1) by (subst b; destruct last; lia).
  assert (Hv : Z.shiftl n 1 = 2 * n) by (rewrite Z.shiftl_mul_pow2; lia).
  unfold struct_pack_H, header. fold b.
  assert (Hlor : Z.lor (Z.shiftl n 1) b = Z.shiftl n 1 + b).
  { symmetry. apply Z.add_nocarry_lor.
    apply Z.bits_inj'. intros i Hi. rewrite Z.land_spec, Z.bits_0.
    destruct (Z.eq_dec i 0) as [->|Hne].
    - rewrite Z.shiftl_spec_low by lia. reflexivity.
    - replace (Z.testbit b i) with false; [apply andb_false_r|].
      symmetry. destruct last; subst b.
      + apply (Z.bits_above_log2 1 i); simpl; lia.
      + apply Z.bits_0. }
  rewrite Hlor, Hv.
  destruct (Z.leb_spec 0 (2 * n + b)); [|lia].
  destruct (Z.leb_spec (2 * n + b) 65535); [|lia]. simpl.
  change 255 with (Z.ones 8). rewrite Z.land_ones by lia.
  rewrite Z.shiftr_div_pow2 by lia. reflexivity.
Qed.

Lemma struct_pack_last (n : Z) :
  0 <= n <= 32767 -> struct_pack_H (Z.shiftl n 1 + 1) = Return (header n true).
Proof. apply (struct_pack_header n true). Qed.

Lemma struct_pack_more (n : Z) :
  0 <= n <= 32767 -> struct_pack_H (Z.shiftl n 1 + 0) = Return (header n false).
Proof. apply (struct_pack_header n false). Qed.

Lemma header_decode (n : Z) (last : bool) :
  0 <= n <= 32767 ->
  exists h0 h1, header n last = [h0; h1] /\
    byte_to_Z h0 + 256 * byte_to_Z h1
    = Z.shiftl n 1 + (if last then 1 else 0).
Proof.
  intros Hn. pose proof (struct_pack_header n last Hn) as Hp.
  unfold struct_pack_H in Hp.
  assert (Hv : Z.shiftl n 1 = 2 * n) by (rewrite Z.shiftl_mul_pow2; lia).
  set (v := Z.shiftl n 1 + (if last then 1 else 0)) in *.
  assert (0 <= v <= 65535) by (subst v; destruct last; lia).
  destruct (Z.leb_spec 0 v); [|lia].
  destruct (Z.leb_spec v 65535); [|lia]. simpl in Hp.
  exists (byte_of_Z (v mod 256)), (byte_of_Z (v / 256)).
  split; [congruence|].
  by apply header_value.
Qed.

Lemma drained_drained s rest sch rest' sch' :
  drained (drained s rest sch) rest' sch' = drained s rest' sch'.
Proof. reflexivity. Qed.

(** One minor block on the way is read into the buffer at [offset]. *)
Lemma _get_minor_block_ok buffer offset (last : bool) c rest w r s :
  has_socket w r s -> Socket.closed s = false ->
  Socket.inbound s = (minor_block last c ++ rest)%list ->
  len c <= 32767 -> 0 <= offset <= len buffer ->
  exists sch buffer',
    _get_minor_block buffer offset w
    = (Return (buffer', offset + len c, last),
       put_socket w r (drained s rest sch))
    /\ take (Z.to_nat (offset + len c)) buffer'
       = (take (Z.to_nat offset) buffer ++ c)%list
    /\ offset + len c <= len buffer'.
Proof.
  intros Hw Hc Hin Hlen Ho. pose proof (len_nonneg c) as Hc0.
  destruct (header_decode (len c) last) as (h0 & h1 & Hh & Hval); [lia|].
  unfold minor_block in Hin. rewrite Hh, <- app_assoc in Hin.
  destruct (_getbytes_ok buffer offset 2 [h0; h1] (c ++ rest)%list w r s)
    as (sch1 & b1 & Hrun1 & Htake1 & Hlen1); try done.
  assert (Hb0 : b1 !! Z.to_nat offset = Some h0).
  { rewrite <- (lookup_take_lt b1 (Z.to_nat (offset + 2))) by lia.
    rewrite Htake1, lookup_app_r; rewrite length_take; unfold len in *; [|lia].
    replace (Z.to_nat offset - _)%nat with 0%nat by lia. done. }
  assert (Hb1 : b1 !! Z.to_nat (offset + 1) = Some h1).
  { rewrite <- (lookup_take_lt b1 (Z.to_nat (offset + 2))) by lia.
    rewrite Htake1, lookup_app_r; rewrite length_take; unfold len in *; [|lia].
    replace (Z.to_nat (offset + 1) - _)%nat with 1%nat by lia. done. }
  assert (Htake0 : take (Z.to_nat offset) b1 = take (Z.to_nat offset) buffer).
  { replace (Z.to_nat offset)
      with (Z.to_nat offset `min` Z.to_nat (offset + 2))%nat at 1 by lia.
    rewrite <- take_take, Htake1. apply take_app_length'. rewrite length_take.
    unfold len in *. lia. }
  unfold _get_minor_block, bind at 1. rewrite Hrun1. simpl fst.
  unfold bind at 1, getitem at 1.
  destruct (Z.ltb_spec offset 0); [lia|]. rewrite Hb0. unfold ret at 1.
  unfold bind at 1, getitem at 1.
  destruct (Z.ltb_spec (offset + 1) 0); [lia|]. rewrite Hb1. unfold ret at 1.
  rewrite Hval, header_length, header_last by (destruct last; lia).
  destruct (Z.eqb_spec (len c) 0) as [Hz|Hnz].
  - exists sch1, b1. assert (c = []) as -> by (destruct c; [done | unfold len in *; simpl in *; lia]).
    unfold bind, ret. simpl. rewrite Z.add_0_r, app_nil_r.
    split; [|split; [done | lia]].
    by destruct last.
  - destruct (_getbytes_ok b1 offset (len c) c rest
                (put_socket w r (drained s (c ++ rest) sch1)) r
                (drained s (c ++ rest) sch1))
      as (sch2 & b2 & Hrun2 & Htake2 & Hlen2); try done.
    { eapply has_socket_put, Hw. }
    { lia. }
    exists sch2, b2. unfold bind. rewrite Hrun2. unfold ret. simpl.
    rewrite put_socket_put, drained_drained, Htake2, Htake0.
    split; [|done]. by destruct last.
Qed.

(** ** Whole messages *)

Lemma minor_block_length (last : bool) (c : list byte) :
  length (minor_block last c) = (2 + length c)%nat.
Proof. reflexivity. Qed.

(** Reading a framed message appends its payload to the buffer. *)
Lemma _getblock_raw_loop_ok (P wire : list byte) :
  framed P wire ->
  forall fuel buffer offset rest w r s,
    has_socket w r s -> Socket.closed s = false ->
    Socket.inbound s = (wire ++ rest)%list ->
    0 <= offset <= len buffer -> (length wire < fuel)%nat ->
    exists sch buffer',
      _getblock_raw_loop fuel buffer offset w
      = (Return (buffer', offset + len P), put_socket w r (drained s rest sch))
      /\ take (Z.to_nat (offset + len P)) buffer'
         = (take (Z.to_nat offset) buffer ++ P)%list
      /\ offset + len P <= len buffer'.
Proof.
  pose proof MAX_PACKAGE_LENGTH_eq as HM.
  induction 1 as [P HP | c P wire Hc Hfr IH];
    intros fuel buffer offset rest w r s Hw Hcl Hin Ho Hf;
    (destruct fuel as [|fuel]; [lia|]).
  - destruct (_get_minor_block_ok buffer offset true P rest w r s)
      as (sch & b' & Hrun & Htake & Hlen); try done; [lia|].
    exists sch, b'. simpl. unfold bind. rewrite Hrun. done.
  - rewrite <- app_assoc in Hin.
    destruct (_get_minor_block_ok buffer offset false c (wire ++ rest)%list w r s)
      as (sch & b' & Hrun & Htake & Hlen); try done; [lia|].
    pose proof (len_nonneg c).
    destruct (IH fuel b' (offset + len c) rest
                (put_socket w r (drained s (wire ++ rest) sch)) r
                (drained s (wire ++ rest) sch))
      as (sch2 & b2 & Hrun2 & Htake2 & Hlen2); try done.
    { eapply has_socket_put, Hw. }
    { lia. }
    { rewrite length_app, minor_block_length in Hf. lia. }
    exists sch2, b2. simpl. unfold bind. rewrite Hrun, Hrun2.
    rewrite put_socket_put, drained_drained, len_app, Z.add_assoc.
    split; [done|]. split; [|done].
    by rewrite Htake2, Htake, <- app_assoc.
Qed.

Lemma _getblock_raw_ok (P wire : list byte) buffer offset rest w r s :
  framed P wire ->
  has_socket w r s -> Socket.closed s = false ->
  Socket.inbound s = (wire ++ rest)%list ->
  0 <= offset <= len buffer ->
  exists sch buffer',
    _getblock_raw buffer offset w
    = (Return (buffer', offset + len P), put_socket w r (drained s rest sch))
    /\ take (Z.to_nat (offset + len P)) buffer'
       = (take (Z.to_nat offset) buffer ++ P)%list
    /\ offset + len P <= len buffer'.
Proof.
  intros Hfr Hw Hcl Hin Ho. unfold _getblock_raw.
  rewrite (has_socket_the_socket w r s Hw).
  eapply _getblock_raw_loop_ok; try done.
  rewrite Hin, length_app. lia.
Qed.

Lemma send_open (data : list byte) (s : Socket.t) :
  Socket.closed s = false -> Socket.shut_wr s = false ->
  Socket.send data s = (Return (len data), having_sent s data).
Proof.
  intros Hc Hs. unfold Socket.send, having_sent. by rewrite Hc, Hs.
Qed.

Lemma having_sent_app s a b :
  having_sent (having_sent s a) b = having_sent s (a ++ b)%list.
Proof. unfold having_sent. simpl. by rewrite <- app_assoc. Qed.

Lemma having_sent_nil s :
  Socket.closed s = false -> Socket.shut_wr s = false -> having_sent s [] = s.
Proof.
  intros Hc Hs. unfold having_sent. rewrite app_nil_r.
  destruct s; simpl in *. by subst.
Qed.

(** Writing a message with [finish] set sends it framed. *)
Lemma _putblock_raw_loop_ok (block : list byte) (fuel : nat) :
  forall pos w r s,
    has_socket w r s -> Socket.closed s = false -> Socket.shut_wr s = false ->
    0 <= pos <= len block ->
    (len block - pos) / MAX_PACKAGE_LENGTH < Z.of_nat fuel ->
    exists wire,
      framed (drop (Z.to_nat pos) block) wire /\
      _putblock_raw_loop fuel block true pos w
      = (Return tt, put_socket w r (having_sent s wire)).
Proof.
  pose proof MAX_PACKAGE_LENGTH_eq as HM.
  induction fuel as [|fuel IH]; intros pos w r s Hw Hc Hs Hpos Hf.
  { pose proof (Z.div_pos (len block - pos) MAX_PACKAGE_LENGTH). lia. }
  set (data := take (Z.to_nat MAX_PACKAGE_LENGTH) (drop (Z.to_nat pos) block)).
  assert (Hdata : slice block pos (pos + MAX_PACKAGE_LENGTH) = data).
  { rewrite slice_nonneg by lia. subst data. do 2 f_equal. lia. }
  assert (Hlen : len data = Z.min MAX_PACKAGE_LENGTH (len block - pos)).
  { subst data. unfold len in *. rewrite length_take, length_drop. lia. }
  simpl. rewrite Hdata.
  destruct (Z.ltb_spec (len data) MAX_PACKAGE_LENGTH) as [Hlt|Hge].
  - (* the last chunk *)
    exists (minor_block true data).
    assert (Hall : drop (Z.to_nat pos) block = data).
    { subst data. symmetry. apply take_ge. rewrite length_drop.
      unfold len in *. lia. }
    split; [rewrite Hall; apply framed_last; lia|].
    rewrite struct_pack_last by (pose proof (len_nonneg data); lia).
    unfold lift, bind. erewrite on_self_socket_run by exact Hw.
    rewrite send_open by done. simpl.
    erewrite on_self_socket_run by (eapply has_socket_put, Hw).
    rewrite send_open by done. simpl.
    by rewrite put_socket_put, having_sent_app.
  - (* a full chunk, and more to come *)
    assert (Hfull : len data = MAX_PACKAGE_LENGTH) by lia.
    destruct (IH (pos + len data)
                (put_socket w r (having_sent s (minor_block false data))) r
                (having_sent s (minor_block false data)))
      as (wire & Hfr & Hrun); try done.
    { eapply has_socket_put, Hw. }
    { lia. }
    { rewrite Hfull.
      replace (len block - (pos + MAX_PACKAGE_LENGTH))
        with ((len block - pos) + (-1) * MAX_PACKAGE_LENGTH) by lia.
      rewrite Z.div_add by lia. lia. }
    exists (minor_block false data ++ wire)%list. split.
    + rewrite <- (take_drop (Z.to_nat MAX_PACKAGE_LENGTH)
                    (drop (Z.to_nat pos) block)).
      fold data. apply framed_more; [done|].
      rewrite drop_drop.
      replace (Z.to_nat pos + Z.to_nat MAX_PACKAGE_LENGTH)%nat
        with (Z.to_nat (pos + len data)) by lia.
      exact Hfr.
    + rewrite struct_pack_more by lia.
      unfold lift, bind. erewrite on_self_socket_run by exact Hw.
      rewrite send_open by done. simpl.
      erewrite on_self_socket_run by (eapply has_socket_put, Hw).
      rewrite send_open by done. simpl.
      rewrite put_socket_put, having_sent_app.
      fold (minor_block false data).
      by rewrite Hrun, put_socket_put, having_sent_app.
Qed.

Lemma _putblock_raw_ok (block : list byte) w r s :
  has_socket w r s -> Socket.closed s = false -> Socket.shut_wr s = false ->
  exists wire,
    framed block wire /\
    _putblock_raw block true w = (Return tt, put_socket w r (having_sent s wire)).
Proof.
  intros Hw Hc Hs. pose proof MAX_PACKAGE_LENGTH_eq as HM.
  pose proof (len_nonneg block).
  pose proof (Z.div_pos (len block) MAX_PACKAGE_LENGTH).
  destruct (_putblock_raw_loop_ok block
              (S (Z.to_nat (len block / MAX_PACKAGE_LENGTH))) 0 w r s
              Hw Hc Hs)
    as (wire & Hfr & Hrun).
  - lia.
  - rewrite Z.sub_0_r. lia.
  - by exists wire.
Qed.

Lemma sent_having_sent {A} (m : M A) w r s wire o :
  has_socket w r s ->
  m w = (o, put_socket w r (having_sent s wire)) ->
  sent m w = wire.
Proof.
  intros Hw Hrun. unfold sent.
  rewrite (has_socket_the_socket w r s Hw), Hrun. simpl.
  rewrite (has_socket_the_socket _ r _ (has_socket_put w r s _ Hw)).
  simpl. apply drop_app_length.
Qed.

(** ** The framing claims *)

(** C1.  For every payload [P]: writing [P] with [finish] set sends it as
    minor blocks of at most 8190 bytes, each behind its 16-bit little-endian
    header [(length << 1) | last]; and a connection on whose socket those
    bytes arrive (cut up between [recv] calls in any way, followed by
    anything) reads back exactly [P] with [_getblock_raw], into any buffer,
    leaving what follows the message unread. *)
Theorem putblock_getblock_roundtrip
  (P : list byte) (ww rw : World) (i j : nat) (sw sr : Socket.t)
  (rest buffer : list byte) :
  has_socket ww i sw -> Socket.closed sw = false -> Socket.shut_wr sw = false ->
  has_socket rw j sr -> Socket.closed sr = false ->
  Socket.inbound sr = (sent (_putblock_raw P true) ww ++ rest)%list ->
  fst (_putblock_raw P true ww) = Return tt /\
  framed P (sent (_putblock_raw P true) ww) /\
  exists buffer' rw',
    _getblock_raw buffer 0 rw = (Return (buffer', len P), rw') /\
    take (length P) buffer' = P /\
    Socket.inbound <$> the_socket rw' = Some rest.
Proof.
  intros Hww Hcw Hsw Hrw Hcr Hin.
  destruct (_putblock_raw_ok P ww i sw Hww Hcw Hsw) as (wire & Hfr & Hput).
  rewrite (sent_having_sent _ ww i sw wire _ Hww Hput) in *.
  split; [by rewrite Hput|]. split; [done|].
  destruct (_getblock_raw_ok P wire buffer 0 rest rw j sr Hfr Hrw Hcr Hin)
    as (sch & b' & Hget & Htake & _); [pose proof (len_nonneg buffer); lia|].
  exists b', (put_socket rw j (drained sr rest sch)).
  rewrite Z.add_0_l in *. split; [done|]. split.
  - unfold len in Htake. by rewrite Nat2Z.id in Htake.
  - by rewrite (has_socket_the_socket _ j _ (has_socket_put rw j sr _ Hrw)).
Qed.

Lemma putblock_getblock_roundtrip_witness :
  let P := bytes_of_string "sSELECT 1;" in
  let ww := world_of new_connection (Socket.connected [] []) in
  let rest := bytes_of_string "next" in
  let sr := Socket.connected (sent (_putblock_raw P true) ww ++ rest)%list
                             [0; 2; 0]%nat in
  let rw := world_of new_connection sr in
  fst (_putblock_raw P true ww) = Return tt /\
  framed P (sent (_putblock_raw P true) ww) /\
  exists buffer' rw',
    _getblock_raw (zeros 8192) 0 rw = (Return (buffer', len P), rw') /\
    take (length P) buffer' = P /\
    Socket.inbound <$> the_socket rw' = Some rest.
Proof.
  intros P ww rest sr rw.
  apply (putblock_getblock_roundtrip P ww rw 0 0
           (Socket.connected [] []) sr rest (zeros 8192)).
  - split; reflexivity.
  - reflexivity.
  - reflexivity.
  - split; reflexivity.
  - reflexivity.
  - reflexivity.
Defined.

Lemma framed_multiple (P wire : list byte) :
  framed P wire -> len P mod MAX_PACKAGE_LENGTH = 0 ->
  exists chunks : list (list byte),
    P = concat chunks /\
    Forall (fun c => len c = MAX_PACKAGE_LENGTH) chunks /\
    wire = (concat (minor_block false <$> chunks) ++ minor_block true [])%list.
Proof.
  pose proof MAX_PACKAGE_LENGTH_eq as HM.
  induction 1 as [P HP | c P wire Hc Hfr IH]; intros Hmod.
  - exists []. pose proof (len_nonneg P).
    rewrite Z.mod_small in Hmod by lia.
    assert (P = []) as -> by (destruct P; [done | unfold len in *; simpl in *; lia]).
    done.
  - rewrite len_app, Hc in Hmod.
    replace (MAX_PACKAGE_LENGTH + len P)
      with (len P + 1 * MAX_PACKAGE_LENGTH) in Hmod by lia.
    rewrite Z.mod_add in Hmod by lia.
    destruct (IH Hmod) as (chunks & -> & Hall & ->).
    exists (c :: chunks). simpl. split; [done|]. split; [by constructor|].
    by rewrite <- app_assoc.
Qed.

(** C7.  For every payload [P] whose length is a multiple of 8190, writing
    [P] with [finish] set sends the 8190-byte chunks of [P], each behind a
    header with [last = 0], and then one more minor block of length zero
    whose header has the last bit set (header value 1). *)
Theorem putblock_exact_multiple
  (P : list byte) (w : World) (r : nat) (s : Socket.t) :
  has_socket w r s -> Socket.closed s = false -> Socket.shut_wr s = false ->
  len P mod 8190 = 0 ->
  fst (_putblock_raw P true w) = Return tt /\
  exists chunks : list (list byte),
    P = concat chunks /\
    Forall (fun c => len c = 8190) chunks /\
    sent (_putblock_raw P true) w
    = (concat ((fun c => header 8190 false ++ c) <$> chunks)
       ++ header 0 true)%list /\
    header 8190 false = [xfc; x3f] /\ header 0 true = [x01; x00].
Proof.
  intros Hw Hc Hs Hmod.
  destruct (_putblock_raw_ok P w r s Hw Hc Hs) as (wire & Hfr & Hput).
  rewrite (sent_having_sent _ w r s wire _ Hw Hput).
  split; [by rewrite Hput|].
  destruct (framed_multiple P wire Hfr Hmod) as (chunks & HP & Hall & Hwire).
  exists chunks. split; [done|]. split; [done|]. split; [|done].
  rewrite Hwire. unfold minor_block at 2. rewrite app_nil_r.
  do 2 f_equal. apply Forall_fmap_ext_1.
  eapply Forall_impl; [exact Hall|]. intros c Hlen. unfold minor_block.
  by rewrite Hlen.
Qed.

Lemma putblock_exact_multiple_witness :
  let P := replicate (Z.to_nat 16380) x61 in
  let w := world_of new_connection (Socket.connected [] []) in
  fst (_putblock_raw P true w) = Return tt /\
  exists chunks : list (list byte),
    P = concat chunks /\
    Forall (fun c => len c = 8190) chunks /\
    sent (_putblock_raw P true) w
    = (concat ((fun c => header 8190 false ++ c) <$> chunks)
       ++ header 0 true)%list /\
    header 8190 false = [xfc; x3f] /\ header 0 true = [x01; x00].
Proof.
  intros P w.
  apply (putblock_exact_multiple P w 0 (Socket.connected [] [])).
  - split; reflexivity.
  - reflexivity.
  - reflexivity.
  - vm_compute. reflexivity.
Defined.

(** ** End of stream while reading *)

(** C3 (as the code has it).  When the stream ends while a minor block is
    being read -- before the two header bytes are there, or before the
    payload the header announces is there -- the read raises
    [BrokenPipeError("Server closed connection")]: a built-in [OSError], not
    one of the pymonetdb error kinds. *)
Theorem minor_block_eof_broken_pipe
  (buffer : list byte) (offset : Z) (w : World) (r : nat) (s : Socket.t) :
  has_socket w r s -> Socket.closed s = false ->
  0 <= offset <= len buffer ->
  ends_mid_block (Socket.inbound s) ->
  fst (_get_minor_block buffer offset w) = Raise server_closed.
Proof.
  intros Hw Hc Ho [Hlt | (n & last & c & Hn & Hlt & Hin)].
  - unfold _get_minor_block, bind.
    pose proof (_getbytes_eof buffer offset 2 w r s Hw Hc Hlt ltac:(lia)) as He.
    destruct (_getbytes buffer offset 2 w) as [o w']. simpl in He. by subst o.
  - destruct (header_decode n last Hn) as (h0 & h1 & Hh & Hval).
    rewrite Hh in Hin.
    destruct (_getbytes_ok buffer offset 2 [h0; h1] c w r s)
      as (sch1 & b1 & Hrun1 & Htake1 & Hlen1); try done.
    assert (Hb0 : b1 !! Z.to_nat offset = Some h0).
    { rewrite <- (lookup_take_lt b1 (Z.to_nat (offset + 2))) by lia.
      rewrite Htake1, lookup_app_r; rewrite length_take; unfold len in *; [|lia].
      replace (Z.to_nat offset - _)%nat with 0%nat by lia. done. }
    assert (Hb1 : b1 !! Z.to_nat (offset + 1) = Some h1).
    { rewrite <- (lookup_take_lt b1 (Z.to_nat (offset + 2))) by lia.
      rewrite Htake1, lookup_app_r; rewrite length_take; unfold len in *; [|lia].
      replace (Z.to_nat (offset + 1) - _)%nat with 1%nat by lia. done. }
    unfold _get_minor_block, bind at 1. rewrite Hrun1. simpl fst.
    unfold bind at 1, getitem at 1.
    destruct (Z.ltb_spec offset 0); [lia|]. rewrite Hb0. unfold ret at 1.
    unfold bind at 1, getitem at 1.
    destruct (Z.ltb_spec (offset + 1) 0); [lia|]. rewrite Hb1. unfold ret at 1.
    rewrite Hval, header_length by (destruct last; lia).
    pose proof (len_nonneg c).
    destruct (Z.eqb_spec n 0) as [Hz|Hnz]; [lia|].
    unfold bind.
    pose proof (_getbytes_eof b1 offset n
                  (put_socket w r (drained s c sch1)) r (drained s c sch1)
                  (has_socket_put w r s _ Hw) eq_refl Hlt ltac:(lia)) as He.
    destruct (_getbytes b1 offset n _) as [o w']. simpl in He. by subst o.
Qed.

Lemma minor_block_eof_broken_pipe_witness :
  let input := (header 5 true ++ bytes_of_string "abc")%list in
  let w := world_of new_connection (Socket.connected input []) in
  fst (_get_minor_block (zeros 8192) 0 w) = Raise server_closed.
Proof.
  intros input w.
  apply (minor_block_eof_broken_pipe (zeros 8192) 0 w 0
           (Socket.connected input [])).
  - split; reflexivity.
  - reflexivity.
  - vm_compute. split; discriminate.
  - right. exists 5, true, (bytes_of_string "abc").
    split; [lia|]. split; [reflexivity | reflexivity].
Defined.

(** C3 as stated does not hold: at end of stream the error raised is not of
    the [InterfaceError] kind. *)
Lemma minor_block_eof_not_interface_error :
  let w := world_of new_connection (Socket.connected [] []) in
  exists e, fst (_get_minor_block (zeros 8192) 0 w) = Raise e /\
            exn_kind e <> InterfaceError.
Proof.
  exists server_closed. split; [vm_compute; reflexivity | discriminate].
Qed.

(** ** The error classifier *)

Module StrFacts.

Lemma take_eqb_prefix (p s : string) :
  String.eqb (Str.take (String.length p) s) p = String.prefix p s.
Proof.
  revert s. induction p as [|a p IH]; intros [|b s]; simpl; try done.
  rewrite IH. rewrite (Ascii.eqb_sym b a).
  destruct (Ascii.eqb_spec a b) as [->|Hne].
  - destruct (ascii_dec b b); [done | congruence].
  - destruct (ascii_dec a b); [congruence | done].
Qed.

Lemma take_substring (n : nat) (s : string) :
  Str.take n s = String.substring 0 n s.
Proof.
  revert s. induction n as [|n IH]; intros [|a s]; simpl; try done.
  by rewrite IH.
Qed.

Lemma substring_all (s : string) :
  String.substring 0 (String.length s) s = s.
Proof. induction s as [|b s IH]; simpl; [done|]. by rewrite IH. Qed.

Lemma drop_substring (n : nat) (s : string) :
  Str.drop n s = String.substring n (String.length s - n) s.
Proof.
  revert s. induction n as [|n IH]; intros s.
  - rewrite Nat.sub_0_r, substring_all. by destruct s.
  - destruct s as [|a s]; simpl; [done | apply IH].
Qed.

Lemma get_drop (n i : nat) (s : string) :
  String.get i (Str.drop n s) = String.get (n + i) s.
Proof.
  revert s. induction n as [|n IH]; intros [|a s]; simpl; try done.
Qed.

Lemma get_length (i : nat) (s : string) :
  is_Some (String.get i s) -> (i < String.length s)%nat.
Proof.
  revert i. induction s as [|a s IH]; intros i [c Hc]; simpl in *; [done|].
  destruct i as [|i]; [lia|]. specialize (IH i (ltac:(eauto))). lia.
Qed.

(** [find] gives the first position of the character. *)
Lemma find_Some (c : ascii) (s : string) (i : nat) :
  Str.find c s = Some i <->
  String.get i s = Some c /\
  forall j, (j < i)%nat -> String.get j s <> Some c.
Proof.
  revert i. induction s as [|a s IH]; intros i; simpl.
  - split; [done | by intros [? _]].
  - destruct (Ascii.eqb_spec a c) as [->|Hne].
    + split.
      * intros [= <-]. split; [done | lia].
      * intros [Hget Hmin]. destruct i as [|i]; [done|].
        by destruct (Hmin 0%nat ltac:(lia)).
    + destruct (Str.find c s) as [k|] eqn:Hf; simpl.
      * split.
        -- intros [= <-]. destruct (proj1 (IH k) eq_refl) as [Hget Hmin].
           split; [done|]. intros [|j] Hj; [congruence|].
           apply Hmin. lia.
        -- intros [Hget Hmin]. destruct i as [|i]; [congruence|].
           assert (Some k = Some i) as [= ->]; [|done].
           apply IH. split; [done|].
           intros j Hj. apply (Hmin (S j)). lia.
      * split; [done|]. intros [Hget Hmin].
        destruct i as [|i]; [congruence|].
        assert (None = Some i); [|done].
        apply IH. split; [done|]. intros j Hj. apply (Hmin (S j)). lia.
Qed.

Lemma find_None (c : ascii) (s : string) :
  Str.find c s = None <-> forall i, String.get i s <> Some c.
Proof.
  induction s as [|a s IH]; simpl.
  - split; [by intros _ [|?] | done].
  - destruct (Ascii.eqb_spec a c) as [->|Hne].
    + split; [done|]. intros H. by destruct (H 0%nat).
    + destruct (Str.find c s) as [k|]; simpl.
      * split; [done|]. intros H.
        assert (Some k = None) as [=]. apply IH. intros i. apply (H (S i)).
      * split; [|done]. intros _ [|i]; [congruence|]. by apply IH.
Qed.

(** [str.index(s, c, start)] gives the first position from [start] on. *)
Lemma index_Some (s : string) (c : ascii) (start idx : nat) :
  Str.index s c start = Some idx <->
  (start <= idx)%nat /\ String.get idx s = Some c /\
  forall j, (start <= j < idx)%nat -> String.get j s <> Some c.
Proof.
  unfold Str.index. destruct (Nat.leb_spec start (String.length s)) as [Hle|Hgt].
  - destruct (Str.find c (Str.drop start s)) as [k|] eqn:Hf; simpl.
    + apply find_Some in Hf as [Hget Hmin]. rewrite get_drop in Hget.
      split.
      * intros [= <-]. split; [lia|]. split; [done|]. intros j Hj.
        specialize (Hmin (j - start)%nat ltac:(lia)).
        rewrite get_drop in Hmin. by replace (start + (j - start))%nat with j in Hmin by lia.
      * intros (Hs & Hg & Hm). f_equal.
        destruct (Nat.lt_trichotomy (start + k) idx) as [Hlt|[Heq|Hlt]]; [|done|].
        -- by destruct (Hm (start + k)%nat ltac:(lia)).
        -- specialize (Hmin (idx - start)%nat ltac:(lia)).
           rewrite get_drop in Hmin.
           by replace (start + (idx - start))%nat with idx in Hmin by lia.
    + split; [done|]. intros (Hs & Hg & _).
      pose proof (proj1 (find_None _ _) Hf (idx - start)%nat) as Hn.
      rewrite get_drop in Hn.
      by replace (start + (idx - start))%nat with idx in Hn by lia.
  - split; [done|]. intros (Hs & Hg & _).
    pose proof (get_length idx s ltac:(eauto)). lia.
Qed.

End StrFacts.

(** The dictionary lookup of the code is the table of the specification. *)
Lemma classify_kind_of (R : string) : classify R = (kind_of R, R).
Proof.
  unfold classify, kind_of. rewrite StrFacts.take_substring.
  destruct (5 <? String.length R)%nat; simpl; [|done].
  set (code := String.substring 0 5 R). unfold errors. simpl.
  repeat (rewrite lookup_insert; case_decide as Heq;
          [rewrite <- Heq; simpl; try done|
           apply not_eq_sym, String.eqb_neq in Heq; rewrite Heq; simpl;
           clear Heq]).
  by rewrite lookup_empty.
Qed.

(** C4 (as the code has it).  For every error string [E]: when the prefix
    ["SQLException:"] is absent, or is followed by a [':'] at index 14 or
    more, there is a string [R] left once the prefix is stripped (with the
    prefix: from 10 characters past the first such [':']), and
    [handle_error] returns [R], not [E], with the kind the SQLSTATE table
    gives its first five characters when [R] is longer than five,
    [Operational] otherwise.  When the prefix is there and no [':'] follows
    from index 14 on, [handle_error] returns nothing: it raises
    [ValueError].  ["40002!unique violation"] classifies as [Integrity]. *)
Theorem handle_error_classifies (E : string) :
  (forall R, stripped E R -> handle_error E = Return (kind_of R, R)) /\
  (colon_after_prefix E -> exists R, stripped E R) /\
  (~ colon_after_prefix E ->
   handle_error E = Raise (Exn ValueError "substring not found")) /\
  handle_error "40002!unique violation"
  = Return (IntegrityError, "40002!unique violation").
Proof.
  split; [|split; [|split; [|reflexivity]]].
  - intros R HS. unfold handle_error.
    change (Str.take 13 E) with (Str.take (String.length "SQLException:") E).
    rewrite StrFacts.take_eqb_prefix.
    destruct HS as [[Hp ->] | (Hp & idx & Hidx & Hget & Hmin & ->)];
      rewrite Hp.
    + by rewrite classify_kind_of.
    + rewrite (proj2 (StrFacts.index_Some E ":" 14 idx)) by done.
      by rewrite classify_kind_of, StrFacts.drop_substring.
  - intros Hpre.
    destruct (String.prefix "SQLException:" E) eqn:Hp;
      [|exists E; left; by split].
    destruct (Hpre Hp) as (i & Hi & Hget).
    destruct (Str.index E ":" 14) as [idx|] eqn:Hidx.
    + apply StrFacts.index_Some in Hidx as (H14 & Hc & Hmin).
      eexists. right. split; [done|]. exists idx. by repeat split.
    + exfalso. unfold Str.index in Hidx.
      pose proof (StrFacts.get_length i E ltac:(eauto)).
      destruct (Nat.leb_spec 14 (String.length E)); [|lia].
      destruct (Str.find ":" (Str.drop 14 E)) eqn:Hf; [done|].
      apply (proj1 (StrFacts.find_None _ _) Hf (i - 14)%nat).
      rewrite StrFacts.get_drop.
      by replace (14 + (i - 14))%nat with i by lia.
  - intros Hno. unfold handle_error.
    change (Str.take 13 E) with (Str.take (String.length "SQLException:") E).
    rewrite StrFacts.take_eqb_prefix.
    destruct (String.prefix "SQLException:" E) eqn:Hp;
      [|destruct Hno; intros Hp'; congruence].
    destruct (Str.index E ":" 14) as [idx|] eqn:Hidx; [|done].
    destruct Hno. intros _.
    apply StrFacts.index_Some in Hidx as (H14 & Hc & _). by exists idx.
Qed.

Lemma handle_error_classifies_witness :
  handle_error "SQLException:foo:some garb40002!unique"
  = Return (kind_of "40002!unique", "40002!unique") /\
  handle_error "SQLException: no colon later"
  = Raise (Exn ValueError "substring not found").
Proof.
  split.
  - apply (proj1 (handle_error_classifies
                    "SQLException:foo:some garb40002!unique")).
    right. split; [reflexivity|]. exists 16%nat.
    split; [lia|]. split; [reflexivity|]. split; [|reflexivity].
    intros j Hj. assert (j = 14 \/ j = 15)%nat as [-> | ->] by lia;
      discriminate.
  - apply (proj1 (proj2 (proj2 (handle_error_classifies
                                  "SQLException: no colon later")))).
    intros Hc. destruct (Hc eq_refl) as (i & Hi & Hget).
    do 14 (destruct i as [|i]; [lia|]).
    do 15 (destruct i as [|i]; [discriminate|]). discriminate.
Defined.

(** C4 as stated does not hold for every error string: for this one
    [handle_error] raises, where the claim has it return a kind and a
    message. *)
Lemma handle_error_not_every_string :
  handle_error "SQLException: no colon later"
  = Raise (Exn ValueError "substring not found") /\
  forall (kind : exn_class) (msg : string),
    handle_error "SQLException: no colon later" <> Return (kind, msg).
Proof. split; [reflexivity | discriminate]. Qed.

(** C10.  [handle_error] returns a pair of an error kind and a message for
    every string in which the prefix ["SQLException:"], when present, is
    followed by a [':'] at an index of 14 or more. *)
Theorem handle_error_total (E : string) :
  colon_after_prefix E ->
  exists (kind : exn_class) (msg : string), handle_error E = Return (kind, msg).
Proof.
  intros Hpre. unfold handle_error.
  change (Str.take 13 E) with (Str.take (String.length "SQLException:") E).
  rewrite StrFacts.take_eqb_prefix.
  destruct (String.prefix "SQLException:" E) eqn:Hp.
  - destruct (Hpre Hp) as (i & Hi & Hget).
    destruct (Str.index E ":" 14) as [idx|] eqn:Hidx.
    + rewrite classify_kind_of. eauto.
    + exfalso. unfold Str.index in Hidx.
      pose proof (StrFacts.get_length i E ltac:(eauto)).
      destruct (Nat.leb_spec 14 (String.length E)); [|lia].
      destruct (Str.find ":" (Str.drop 14 E)) eqn:Hf; [done|].
      apply (proj1 (StrFacts.find_None _ _) Hf (i - 14)%nat).
      rewrite StrFacts.get_drop.
      by replace (14 + (i - 14))%nat with i by lia.
  - rewrite classify_kind_of. eauto.
Qed.

Lemma handle_error_total_witness :
  exists (kind : exn_class) (msg : string),
    handle_error "SQLException:foo:some garbage...bar" = Return (kind, msg).
Proof.
  apply (handle_error_total "SQLException:foo:some garbage...bar").
  intros _. exists 16%nat. split; [lia | reflexivity].
Defined.

(** Without the precondition of C10 the colon search does fail. *)
Lemma handle_error_prefix_alone :
  handle_error "SQLException:" = Raise (Exn ValueError "substring not found").
Proof. reflexivity. Qed.

(** ** Running monadic code *)

Lemma bind_run {A B} (m : M A) (k : A -> M B) w a w' :
  m w = (Return a, w') -> bind m k w = k a w'.
Proof. intros H. unfold bind. by rewrite H. Qed.

Lemma bind_Return {A B} (m : M A) (k : A -> M B) w b w' :
  bind m k w = (Return b, w') ->
  exists a w1, m w = (Return a, w1) /\ k a w1 = (Return b, w').
Proof.
  unfold bind. destruct (m w) as [[a| |] w1]; intros H; try done. eauto.
Qed.

Lemma bind_Raise {A B} (m : M A) (k : A -> M B) w e w' :
  m w = (Raise e, w') -> bind m k w = (Raise e, w').
Proof. intros H. unfold bind. by rewrite H. Qed.

(** ** Commands outside [READY], and sabotage *)

Section Commands.

Context (env : Env).

(** Commands issued in a state other than [READY]. *)
Lemma cmd_not_ready (fuel : nat) (operation : string) (w : World) :
  state (self w) <> STATE_READY ->
  fst (cmd env (S fuel) operation w)
  = Raise not_connected.
Proof.
  intros Hs. simpl. unfold bind, logger, get. simpl.
  destruct (Z.eqb_spec (state (self w)) STATE_READY); done.
Qed.

Lemma binary_cmd_not_ready (operation : string) (w : World) :
  state (self w) <> STATE_READY ->
  fst (binary_cmd env operation w) = Raise not_connected.
Proof.
  intros Hs. unfold binary_cmd, bind, logger, get. simpl.
  destruct (Z.eqb_spec (state (self w)) STATE_READY); done.
Qed.

(** [_sabotage] never raises. *)
Lemma _sabotage_returns (w : World) : fst (_sabotage w) = Return tt.
Proof.
  unfold _sabotage, bind, get, set_socket, set_state, update, lift. simpl.
  destruct (socket (self w)) as [r|]; [|done].
  unfold try_except, is_Exception, on_socket. simpl.
  destruct (sockets w !! r) as [s|] eqn:Hl; [|done].
  destruct (Socket.send _ s) as [[n| |] s'] eqn:Hsend; simpl; try done.
  - by rewrite list_lookup_insert_eq by (eapply lookup_lt_Some, Hl).
  - unfold Socket.send in Hsend.
    destruct (Socket.closed s), (Socket.shut_wr s); done.
Qed.

(** C6 (as the code has it).  On a [READY] connection with an open socket,
    [_sabotage] sends the two header bytes of 16386, a value greater than
    [(8190 << 1) + 1], followed by the body [ERROR\x80ERROR], then closes
    the socket; it leaves the connection in state [INIT] with no socket,
    and never raises.  A [cmd] or [binary_cmd] in a state other than
    [READY], so any after the sabotage, raises
    [ProgrammingError("Not connected")]. *)
Theorem sabotage_then_not_connected (w : World) (r : nat) (s : Socket.t) :
  state (self w) = STATE_READY ->
  has_socket w r s -> Socket.closed s = false -> Socket.shut_wr s = false ->
  (exists w',
      _sabotage w = (Return tt, w') /\
      sockets w' !! r
      = Some (Socket.Make (Socket.inbound s) (Socket.sched s)
                (Socket.outbound s ++ [x02; x40] ++ bad_body) true false) /\
      byte_to_Z x02 + 256 * byte_to_Z x40 > Z.shiftl 8190 1 + 1 /\
      state (self w') = STATE_INIT /\ socket (self w') = None /\
      (forall fuel operation,
          fst (cmd env
                 (S fuel) operation w') = Raise not_connected) /\
      (forall operation,
          fst (binary_cmd env operation w')
          = Raise not_connected)) /\
  (forall w0, fst (_sabotage w0) = Return tt) /\
  (forall w0 fuel operation,
      state (self w0) <> STATE_READY ->
      fst (cmd env
             (S fuel) operation w0) = Raise not_connected /\
      fst (binary_cmd env operation w0)
      = Raise not_connected).
Proof.
  intros Hst [Hr Hs] Hc Hsh. split; [|split].
  - unfold _sabotage, bind, get, set_socket, set_state, update, lift.
    simpl. rewrite Hr. simpl.
    unfold try_except, is_Exception, on_socket. simpl. rewrite Hs.
    rewrite send_open by done. simpl.
    rewrite list_lookup_insert_eq by (eapply lookup_lt_Some, Hs). simpl.
    eexists. split; [reflexivity|]. simpl.
    split.
    { rewrite list_insert_insert_eq.
      by rewrite list_lookup_insert_eq by (eapply lookup_lt_Some, Hs). }
    split; [done|]. split; [done|]. split; [done|]. split.
    + intros fuel operation. reflexivity.
    + intros operation. reflexivity.
  - apply _sabotage_returns.
  - intros w0 fuel operation Hne. split.
    + by apply cmd_not_ready.
    + by apply binary_cmd_not_ready.
Qed.

(** C9 (as the code has it).  On a [READY] connection, when the response
    [cmd] receives starts with ['#'], [cmd] logs the rest of it as
    information and falls off its end: it returns [None], not a string. *)
Theorem cmd_info_returns_none
  (fuel : nat) (operation response : string) (w w1 w2 : World) :
  state (self w) = STATE_READY ->
  _putblock env operation
    (snd (logger DEBUG ("executing command " ++ operation) w))
  = (Return tt, w1) ->
  _getblock_and_transfer_files env (S fuel) w1
  = (Return response, w2) ->
  String.get 0 response = Some "#"%char ->
  cmd env (S fuel) operation w
  = (Return RNone, snd (logger INFO (Str.drop 1 response) w2)).
Proof.
  intros Hst Hput Hget H0.
  destruct response as [|a rest]; [done|]. simpl in H0.
  injection H0 as ->.
  cbn [cmd]. unfold bind at 1. cbn [logger].
  unfold bind at 1, get at 1. cbn [self]. rewrite Hst.
  change (negb (STATE_READY =? STATE_READY)) with false. cbn iota.
  unfold bind at 1. simpl in Hput. rewrite Hput.
  unfold bind at 1. rewrite Hget.
  reflexivity.
Qed.

End Commands.

Lemma sabotage_then_not_connected_witness :
  let w := Scenario.ready_world [] in
  let s := Socket.connected [] [] in
  (exists w',
      _sabotage w = (Return tt, w') /\
      sockets w' !! 0%nat
      = Some (Socket.Make (Socket.inbound s) (Socket.sched s)
                (Socket.outbound s ++ [x02; x40] ++ bad_body) true false) /\
      byte_to_Z x02 + 256 * byte_to_Z x40 > Z.shiftl 8190 1 + 1 /\
      state (self w') = STATE_INIT /\ socket (self w') = None /\
      (forall fuel operation,
          fst (cmd (Scenario.env 0) (S fuel) operation w') = Raise not_connected) /\
      (forall operation,
          fst (binary_cmd (Scenario.env 0) operation w')
          = Raise not_connected)) /\
  (forall w0, fst (_sabotage w0) = Return tt) /\
  (forall w0 fuel operation,
      state (self w0) <> STATE_READY ->
      fst (cmd (Scenario.env 0) (S fuel) operation w0) = Raise not_connected /\
      fst (binary_cmd (Scenario.env 0) operation w0)
      = Raise not_connected).
Proof.
  intros w s.
  apply (sabotage_then_not_connected (Scenario.env 0) w 0 s).
  - reflexivity.
  - split; reflexivity.
  - reflexivity.
  - reflexivity.
Defined.

(** C6 as stated does not hold: what [_sabotage] sends before the body is
    not a header of four bytes. *)
Lemma sabotage_header_not_four_bytes :
  let w := Scenario.ready_world [] in
  exists w' s',
    _sabotage w = (Return tt, w') /\ sockets w' !! 0%nat = Some s' /\
    ~ exists hdr : list byte,
        length hdr = 4%nat /\ Socket.outbound s' = (hdr ++ bad_body)%list.
Proof.
  eexists _, _. split; [vm_compute; reflexivity|].
  split; [reflexivity|].
  intros (hdr & Hlen & Heq). apply (f_equal length) in Heq.
  rewrite length_app, Hlen in Heq. vm_compute in Heq. discriminate.
Qed.

Lemma cmd_info_returns_none_witness :
  let w := Scenario.ready_world (Scenario.block "#hello") in
  exists w2,
    cmd (Scenario.env 0) 1 "sSELECT 1;" w
    = (Return RNone, snd (logger INFO (Str.drop 1 "#hello") w2)).
Proof.
  intros w.
  set (w0 := snd (logger DEBUG ("executing command " ++ "sSELECT 1;") w)).
  set (w1 := snd (_putblock (Scenario.env 0) "sSELECT 1;" w0)).
  exists (snd (_getblock_and_transfer_files (Scenario.env 0) 1 w1)).
  apply (cmd_info_returns_none (Scenario.env 0) 0 "sSELECT 1;" "#hello" w w1).
  - reflexivity.
  - vm_compute. reflexivity.
  - vm_compute. reflexivity.
  - reflexivity.
Defined.

(** C9 as stated does not hold: on a response that starts with ['#'], what
    [cmd] returns is not the empty string. *)
Lemma cmd_info_does_not_return_empty_string :
  let w := Scenario.ready_world (Scenario.block "#hello") in
  fst (cmd (Scenario.env 0) 1 "sSELECT 1;" w) = Return RNone /\
  fst (cmd (Scenario.env 0) 1 "sSELECT 1;" w) <> Return (RStr "").
Proof.
  split; [vm_compute; reflexivity | vm_compute; discriminate].
Qed.

(** ** The redirect loop *)

Section Connecting.

Context (env : Env).

Lemma connect_loop_redirected (n : nat) :
  forall w w',
    redirected env n w = Some w' ->
    connect_loop env n w = (Raise too_many_redirects, w').
Proof.
  induction n as [|n IH]; intros w w' Hred; simpl in *.
  - by injection Hred as ->.
  - unfold bind.
    destruct (connect_round env w) as [[[|]| |] w1]; try done.
    by apply IH.
Qed.

(** A round that ends the loop ends [connect_loop] at once. *)
Lemma connect_loop_done (n : nat) (w w' : World) :
  connect_round env w = (Return true, w') ->
  connect_loop env (S n) w = (Return tt, w').
Proof. intros H. simpl. unfold bind. by rewrite H. Qed.

(** C5.  [connect] goes round its loop at most 10 times: when 10 rounds
    in a row end in a redirect ([_login] returning false), it raises
    [OperationalError("too many redirects")] in the world the tenth round
    left, whatever an eleventh round would have done. *)
Theorem connect_too_many_redirects
  (database : Target.t) (callback : option (Z -> list HandshakeOption.t))
  (w w1 w2 : World) :
  connect_prelude env database callback w = (Return tt, w1) ->
  redirected env 10 w1 = Some w2 ->
  connect env database callback w = (Raise too_many_redirects, w2).
Proof.
  intros Hpre Hred. unfold connect.
  rewrite (bind_run _ _ _ _ _ Hpre).
  apply bind_Raise. by apply connect_loop_redirected.
Qed.

End Connecting.

(** With 11 chained redirects the client fails, having made 10
    connections. *)
Lemma connect_too_many_redirects_witness :
  let w := new_world in
  let run := connect (Scenario.env 11) Scenario.the_target
               (Some Scenario.callback) w in
  run = (Raise too_many_redirects, snd run) /\
  length (sockets (snd run)) = 10%nat.
Proof.
  intros w run. split; [|vm_compute; reflexivity].
  set (w1 := snd (connect_prelude (Scenario.env 11) Scenario.the_target
                    (Some Scenario.callback) w)).
  apply (connect_too_many_redirects (Scenario.env 11) Scenario.the_target
           (Some Scenario.callback) w w1 (snd run)).
  - vm_compute. reflexivity.
  - vm_compute. reflexivity.
Defined.

(** With 9 chained redirects the tenth round logs in. *)
Example connect_nine_redirects :
  let run := connect (Scenario.env 9) Scenario.the_target
               (Some Scenario.callback) new_world in
  fst run = Return tt /\ state (self (snd run)) = STATE_READY /\
  length (sockets (snd run)) = 10%nat.
Proof. vm_compute. done. Qed.

(** ** The login handshake *)

Lemma split_app_sep (sep : ascii) (a rest : string) :
  Str.find sep a = None ->
  Str.split sep (a ++ String sep rest) = a :: Str.split sep rest.
Proof.
  induction a as [|c a IH]; simpl; intros Hf.
  - by rewrite Ascii.eqb_refl.
  - destruct (Ascii.eqb c sep); [done|].
    destruct (Str.find sep a); [done|]. by rewrite IH.
Qed.

Lemma split_challenge_of (fields : list string) :
  Forall colon_free fields ->
  Str.split ":" (challenge_of fields) = (fields ++ [""])%list.
Proof.
  induction 1 as [|f fields Hf _ IH]; [done|].
  change (challenge_of (f :: fields))
    with (f ++ String ":" (challenge_of fields)).
  by rewrite split_app_sep, IH.
Qed.

Lemma list_byte_of_string_app (a b : string) :
  list_byte_of_string (a ++ b)
  = (list_byte_of_string a ++ list_byte_of_string b)%list.
Proof.
  induction a as [|x a IH]; [done|].
  change (byte_of_ascii x :: list_byte_of_string (a ++ b)
          = byte_of_ascii x
            :: (list_byte_of_string a ++ list_byte_of_string b)%list).
  by rewrite IH.
Qed.

Lemma select_options_spec (opts : list HandshakeOption.t) (N : Z) :
  select_options opts N
  = (option_entry <$> filter (fun o => HandshakeOption.level o < N) opts,
     marked N <$> opts).
Proof.
  induction opts as [|o opts IH]; [done|].
  cbn [select_options]. rewrite IH, filter_cons, fmap_cons.
  assert (Hm : marked N o = if HandshakeOption.level o <? N
                            then HandshakeOption.mark_sent o else o) by done.
  rewrite Hm.
  destruct (Z.ltb_spec (HandshakeOption.level o) N);
    destruct (decide (HandshakeOption.level o < N)); try lia; done.
Qed.

Lemma remaining_spec (opts : list HandshakeOption.t) (N : Z) :
  filter (fun o => HandshakeOption.sent o = false) (marked N <$> opts)
  = filter (fun o => ~ HandshakeOption.level o < N
                     /\ HandshakeOption.sent o = false) opts.
Proof.
  induction opts as [|o opts IH]; [done|].
  rewrite fmap_cons, !filter_cons, IH.
  assert (Hm : marked N o = if HandshakeOption.level o <? N
                            then HandshakeOption.mark_sent o else o) by done.
  rewrite Hm.
  destruct (Z.ltb_spec (HandshakeOption.level o) N).
  - simpl. destruct (decide (true = false)); [done|].
    destruct (decide (_ /\ _)) as [[? _]|]; [lia | done].
  - destruct (decide (HandshakeOption.sent o = false)).
    + destruct (decide (_ /\ _)) as [|Hn]; [done|]. destruct Hn. split; [lia|done].
    + destruct (decide (_ /\ _)) as [[_ ?]|]; done.
Qed.

Lemma filter_unsent (opts : list HandshakeOption.t) (N : Z) :
  Forall (fun o => HandshakeOption.sent o = false) opts ->
  filter (fun o => ~ HandshakeOption.level o < N
                   /\ HandshakeOption.sent o = false) opts
  = filter (fun o => ~ HandshakeOption.level o < N) opts.
Proof.
  induction 1 as [|o opts Ho _ IH]; [done|].
  rewrite !filter_cons, IH.
  destruct (decide (~ HandshakeOption.level o < N)) as [Hl|Hl];
    destruct (decide (_ /\ _)) as [Hc|Hc]; try done; tauto.
Qed.

Section Handshake.

Context (env : Env).

Lemma first_hash_chosen names i h password salt :
  first_implemented env names i h ->
  first_hash env names password salt
  = Some ("{" ++ i ++ "}"
          ++ h (env_utf8_encode env password ++ env_utf8_encode env salt)%list).
Proof.
  intros (pre & post & -> & Hpre & Hi).
  induction Hpre as [|n pre Hn _ IH]; simpl.
  - by rewrite Hi.
  - by rewrite Hn.
Qed.

Lemma first_hash_none names password salt :
  Forall (fun n => env_hashlib_new env n = None) names ->
  first_hash env names password salt = None.
Proof. induction 1 as [|n names Hn _ IH]; simpl; [done|]. by rewrite Hn. Qed.

Lemma append_assoc (a b c : string) : (a ++ b) ++ c = a ++ (b ++ c).
Proof.
  induction a as [|x a IH]; [done|].
  change (String x ((a ++ b) ++ c) = String x (a ++ (b ++ c))).
  by rewrite IH.
Qed.

(** The run of [_challenge_response] on a challenge of six fields that
    speaks protocol 9, up to the choice of the hash. *)
Lemma challenge_response_six salt st hashes endian algo h0 w :
  Forall colon_free [salt; st; hashes; endian; algo] ->
  endian = "LIT" \/ endian = "BIG" ->
  env_hashlib_new env algo = Some h0 ->
  let t := target (self w) in
  let user := fst (credentials t st) in
  let password := h0 (env_utf8_encode env (snd (credentials t st))) in
  fst (_challenge_response env
         (challenge_of [salt; st; "9"; hashes; endian; algo]) w)
  = match first_hash env (Str.split "," hashes) password salt with
    | Some pwhash =>
        Return (login_line user pwhash (Target.effective_language t)
                  (or_empty (Target.database t)))
    | None =>
        Raise (Exn NotSupportedError
                 ("Unsupported hash algorithms required for login: "
                  ++ hashes))
    end.
Proof.
  intros Hcf Hend Halgo t user password.
  assert (Hsplit : Str.split ":" (challenge_of [salt; st; "9"; hashes; endian; algo])
                   = [salt; st; "9"; hashes; endian; algo; ""]).
  { apply (split_challenge_of [salt; st; "9"; hashes; endian; algo]).
    rewrite !Forall_cons in Hcf. rewrite !Forall_cons.
    by intuition. }
  unfold _challenge_response. rewrite Hsplit.
  cbn [List.last removelast nth].
  change (negb ("" =? "")%string
          || (len [salt; st; "9"; hashes; endian; algo; ""] <? 7)) with false.
  change (8 <=? len [salt; st; "9"; hashes; endian; algo]) with false.
  change (7 <=? len [salt; st; "9"; hashes; endian; algo]) with false.
  change ("9" =? "9")%string with true.
  cbv iota.
  unfold bind at 1, get at 1. fold t.
  assert (Hrun : exists w',
    (if (endian =? "LIT")%string
     then set_server_endian (Some "little")
     else if (endian =? "BIG")%string then set_server_endian (Some "big")
          else raise NotSupportedError ("Unknown byte order: " ++ endian)) w
    = (Return tt, w')).
  { destruct Hend as [-> | ->]; eexists; reflexivity. }
  destruct Hrun as (w' & Hrun).
  subst user password. unfold credentials.
  destruct (st =? "merovingian")%string;
    cbn [fst snd]; unfold bind at 1; rewrite Hrun;
    unfold bind at 1; rewrite Halgo; unfold ret at 1;
    unfold bind at 1;
    (destruct (first_hash env (Str.split "," hashes) _ salt) as [pwhash|];
     [|reflexivity]);
    unfold ret at 1; cbn; unfold login_line;
    by rewrite !append_assoc.
Qed.

Lemma challenge_response_options challenge w response w1 :
  _challenge_response env challenge w = (Return response, w1) ->
  let challenges := removelast (Str.split ":" challenge) in
  7 <= len challenges ->
  exists (base : string) (N : Z),
    let opts := offered (self w1) in
    sql_options_level env (Str.split "," (nth 6 challenges "")) 0 = Return N /\
    response = base ++ "FILETRANS:"
               ++ Str.join "," (option_entry
                                <$> filter (fun o => HandshakeOption.level o < N) opts)
               ++ ":" /\
    remaining_handshake_options (self w1)
    = filter (fun o => HandshakeOption.sent o = false) (marked N <$> opts).
Proof.
  intros H challenges Hlen. unfold _challenge_response in H.
  fold challenges in H.
  destruct (negb _ || _); [done|].
  destruct challenges as [|salt [|st [|protocol [|hashes [|endian rest]]]]];
    try done.
  set (challenges := salt :: st :: protocol :: hashes :: endian :: rest) in *.
  apply bind_Return in H as (tgt & w_1 & Hget & H).
  destruct (if (st =? "merovingian")%string then _ else _) as [user password].
  apply bind_Return in H as ([] & w2 & Hend & H).
  apply bind_Return in H as (password' & w3 & Hpw & H).
  apply bind_Return in H as (pwhash & w4 & Hph & H).
  apply bind_Return in H as ([] & w5 & Hb0 & H).
  apply bind_Return in H as ([] & w6 & Hbin & H).
  apply bind_Return in H as (cb & w7 & Hcb & H).
  apply bind_Return in H as (lvl & w8 & Hlvl & H).
  apply bind_Return in H as (r & w9 & Hr & H).
  destruct (Z.leb_spec 7 (len challenges)); [|lia].
  apply bind_Return in Hr as (N & w8' & HN & Hr).
  unfold lift in HN. injection HN as HN <-.
  rewrite select_options_spec in Hr. unfold ret in Hr. injection Hr as <- <-.
  unfold bind, set_remaining_handshake_options, update, ret in H.
  injection H as <- <-.
  unfold get in Hcb, Hlvl. injection Hcb as <- <-. injection Hlvl as <- <-.
  eexists _, N. cbn [self remaining_handshake_options].
  unfold offered. cbn [handshake_options_callback binexport_level].
  split; [exact HN|]. split; [|reflexivity].
  rewrite append_assoc. reflexivity.
Qed.

Lemma call_fallbacks_calls (opts : list HandshakeOption.t) :
  forall w,
    exists k : nat,
      (k <= length opts)%nat /\
      fallback_calls (snd (call_fallbacks env opts w))
      = (fallback_calls w ++ (fallback_call <$> take k opts))%list /\
      (fst (call_fallbacks env opts w) = Return tt -> k = length opts).
Proof.
  induction opts as [|o opts IH]; intros w.
  - exists 0%nat. simpl. by rewrite app_nil_r.
  - cbn [call_fallbacks]. unfold bind.
    destruct (call_fallback env o w) as [res w1] eqn:Hcall.
    assert (Hw1 : fallback_calls w1 = (fallback_calls w ++ [fallback_call o])%list).
    { unfold call_fallback in Hcall.
      destruct (env_fallback_body env _ _ w) as [res' w']. by injection Hcall as <- <-. }
    destruct res as [[]| |].
    + destruct (IH w1) as (k & Hk & Hcalls & Hret).
      exists (S k). split; [simpl; lia|]. split.
      * rewrite Hcalls, Hw1. simpl. by rewrite <- app_assoc.
      * intros Hr. simpl. f_equal. by apply Hret.
    + exists 1%nat. split; [simpl; lia|]. simpl. by split.
    + exists 1%nat. split; [simpl; lia|]. simpl. by split.
Qed.


(** C2.  For the challenge with salt [sXYZ], a server type other than
    [merovingian], protocol 9, hashes [SHA256,SHA1], endian [LIT] and
    password hash [SHA512], and a target with user and password [monetdb],
    language [sql] and database [demo], the response line is
    [BIG:monetdb:{SHA256}<hex>:sql:demo:] with [<hex>] the SHA256 digest of
    the SHA512 digest of [monetdb] followed by [sXYZ].  In general the first
    name in the list of hashes that the client implements is the one used,
    and [NotSupportedError] is raised when it implements none. *)
Theorem challenge_response_login_line
  (sha256 sha512 : list byte -> string) (server_type : string) (w : World) :
  env_hashlib_new env "SHA512" = Some sha512 ->
  env_hashlib_new env "SHA256" = Some sha256 ->
  (forall a b, env_utf8_encode env (a ++ b)
               = (env_utf8_encode env a ++ env_utf8_encode env b)%list) ->
  colon_free server_type -> server_type <> "merovingian" ->
  Target.user (target (self w)) = Some "monetdb" ->
  Target.password (target (self w)) = Some "monetdb" ->
  Target.effective_language (target (self w)) = "sql" ->
  Target.database (target (self w)) = Some "demo" ->
  fst (_challenge_response env
         (challenge_of ["sXYZ"; server_type; "9"; "SHA256,SHA1"; "LIT";
                        "SHA512"]) w)
  = Return ("BIG:monetdb:{SHA256}"
            ++ sha256 (env_utf8_encode env
                         (sha512 (env_utf8_encode env "monetdb") ++ "sXYZ"))
            ++ ":sql:demo:") /\
  (forall salt st hashes endian algo h0 w0,
      Forall colon_free [salt; st; hashes; endian; algo] ->
      endian = "LIT" \/ endian = "BIG" ->
      env_hashlib_new env algo = Some h0 ->
      let t := target (self w0) in
      let password := h0 (env_utf8_encode env (snd (credentials t st))) in
      let run := _challenge_response env
                   (challenge_of [salt; st; "9"; hashes; endian; algo]) w0 in
      (forall i h,
          first_implemented env (Str.split "," hashes) i h ->
          fst run
          = Return (login_line (fst (credentials t st))
                      ("{" ++ i ++ "}"
                       ++ h (env_utf8_encode env password
                             ++ env_utf8_encode env salt)%list)
                      (Target.effective_language t)
                      (or_empty (Target.database t)))) /\
      (Forall (fun n => env_hashlib_new env n = None)
              (Str.split "," hashes) ->
       fst run
       = Raise (Exn NotSupportedError
                  ("Unsupported hash algorithms required for login: "
                   ++ hashes)))).
Proof.
  intros H512 H256 Henc Hcf Hne Hu Hp Hl Hd. split.
  - rewrite challenge_response_six with (h0 := sha512); try done.
    + rewrite (first_hash_chosen ["SHA256"; "SHA1"] "SHA256" sha256).
      * unfold credentials. apply String.eqb_neq in Hne. rewrite Hne.
        cbn [fst snd]. rewrite Hu, Hp, Hl, Hd, Henc. reflexivity.
      * by exists [], ["SHA1"].
    + repeat constructor; done.
    + by left.
  - intros salt st hashes endian algo h0 w0 Hcf0 Hend Halgo t password run.
    subst run. rewrite challenge_response_six with (h0 := h0) by done.
    fold t password. split.
    + intros i h Hi. by rewrite (first_hash_chosen _ i h).
    + intros Hnone. by rewrite first_hash_none.
Qed.

(** The loop over the remaining options calls their fallbacks. *)
Lemma call_fallbacks_applied (opts : list HandshakeOption.t) :
  forall w, fallbacks_applied env opts w (call_fallbacks env opts w).
Proof.
  induction opts as [|o opts IH]; intros w; [constructor|].
  cbn [call_fallbacks]. unfold bind, call_fallback.
  destruct (env_fallback_body env (HandshakeOption.fallback o)
              (HandshakeOption.value o) w) as [out w1] eqn:Hbody.
  destruct out as [[]|e|].
  - eapply fallbacks_next; [exact Hbody | apply IH].
  - by eapply (fallbacks_stop env o opts w w1 (Raise e)).
  - by eapply (fallbacks_stop env o opts w w1 Timeout).
Qed.

(** Fallbacks that leave the state alone leave it as it was when the
    first of them was called. *)
Lemma fallbacks_applied_state (opts : list HandshakeOption.t) (w : World)
  (r : outcome unit * World) :
  (forall f v w0,
      state (self (snd (env_fallback_body env f v w0))) = state (self w0)) ->
  fallbacks_applied env opts w r ->
  state (self (snd r)) = state (self w).
Proof.
  intros Hkeep Hr.
  induction Hr as [w | o opts w w1 r Hbody _ IH | o opts w w1 out Hbody _].
  - reflexivity.
  - rewrite IH. cbn [after_fallback self].
    specialize (Hkeep (HandshakeOption.fallback o)
                      (HandshakeOption.value o) w).
    by rewrite Hbody in Hkeep.
  - cbn [snd after_fallback self].
    specialize (Hkeep (HandshakeOption.fallback o)
                      (HandshakeOption.value o) w).
    by rewrite Hbody in Hkeep.
Qed.

(** C8.  For every list of options the callback returns and every level [N]
    parsed from [sql=N] in the options field of the challenge: the login
    response carries the entries [name=intval] of exactly the options with a
    level below [N], in order; those are marked sent and the others are kept
    as the remaining options, none of which has a level below [N].  The
    last part of [connect], run while those are the remaining options,
    first puts the connection in state [READY] and then, from that world
    on, calls the fallback of each remaining option with the value of its
    option, in list order, each in the world the one before left, and ends
    as the first fallback that does not return ends; the calls made are each
    made once, in list order -- all of them when it returns. *)
Theorem handshake_options_inline_or_fallback
  (challenge response : string) (w w1 wr : World) :
  _challenge_response env challenge w = (Return response, w1) ->
  7 <= len (removelast (Str.split ":" challenge)) ->
  remaining_handshake_options (self wr)
  = remaining_handshake_options (self w1) ->
  exists (base : string) (N : Z) (k : nat),
    let opts := offered (self w1) in
    let deferred :=
      filter (fun o => HandshakeOption.sent o = false) (marked N <$> opts) in
    sql_options_level env
      (Str.split "," (nth 6 (removelast (Str.split ":" challenge)) "")) 0
    = Return N /\
    response
    = base ++ "FILETRANS:"
      ++ Str.join ","
           (option_entry
            <$> filter (fun o => HandshakeOption.level o < N) opts)
      ++ ":" /\
    remaining_handshake_options (self w1) = deferred /\
    Forall (fun o => ~ HandshakeOption.level o < N) deferred /\
    (Forall (fun o => HandshakeOption.sent o = false) opts ->
     deferred = filter (fun o => ~ HandshakeOption.level o < N) opts) /\
    fallback_calls (snd (connect_finish env wr))
    = (fallback_calls wr ++ (fallback_call <$> take k deferred))%list /\
    (fst (connect_finish env wr) = Return tt -> k = length deferred) /\
    state (self (made_ready wr)) = STATE_READY /\
    fallbacks_applied env deferred (made_ready wr) (connect_finish env wr) /\
    ((forall f v w0,
         state (self (snd (env_fallback_body env f v w0))) = state (self w0)) ->
     state (self (snd (connect_finish env wr))) = STATE_READY).
Proof.
  intros Hrun Hlen Hrem.
  destruct (challenge_response_options challenge w response w1 Hrun Hlen)
    as (base & N & HN & Hresp & Hdef).
  cbv zeta in HN, Hresp, Hdef.
  assert (Hfin : connect_finish env wr
                 = call_fallbacks env
                     (filter (fun o => HandshakeOption.sent o = false)
                             (marked N <$> offered (self w1)))
                     (made_ready wr)).
  { assert (H0 : connect_finish env wr
                 = call_fallbacks env (remaining_handshake_options (self wr))
                     (made_ready wr)) by reflexivity.
    by rewrite Hrem, Hdef in H0. }
  rewrite Hfin.
  set (deferred := filter _ (marked N <$> offered (self w1))).
  destruct (call_fallbacks_calls deferred (made_ready wr))
    as (k & Hk & Hcalls & Hret).
  exists base, N, k. cbv zeta. fold deferred.
  split; [done|]. split; [done|]. split; [done|].
  split; [|split; [|split; [|split; [|split; [|split]]]]].
  - subst deferred. rewrite remaining_spec. apply Forall_forall.
    intros o Ho. by apply list_elem_of_filter in Ho as [[? _] _].
  - intros Hfresh. subst deferred. rewrite remaining_spec.
    by apply filter_unsent.
  - exact Hcalls.
  - exact Hret.
  - reflexivity.
  - apply call_fallbacks_applied.
  - intros Hkeep.
    by rewrite (fallbacks_applied_state deferred (made_ready wr) _ Hkeep
                  (call_fallbacks_applied deferred (made_ready wr))).
Qed.

End Handshake.

Lemma challenge_response_login_line_witness :
  let sha256 := fun data => "SHA256(" ++ string_of_list_byte data ++ ")" in
  let sha512 := fun data => "SHA512(" ++ string_of_list_byte data ++ ")" in
  fst (_challenge_response (Scenario.env 0)
         (challenge_of ["sXYZ"; "mserver"; "9"; "SHA256,SHA1"; "LIT"; "SHA512"])
         (fresh_world Scenario.the_target None))
  = Return ("BIG:monetdb:{SHA256}"
            ++ sha256 (Scenario.encode
                         (sha512 (Scenario.encode "monetdb") ++ "sXYZ"))
            ++ ":sql:demo:").
Proof.
  intros sha256 sha512.
  apply (challenge_response_login_line (Scenario.env 0) sha256 sha512
           "mserver" (fresh_world Scenario.the_target None)).
  - reflexivity.
  - reflexivity.
  - intros a b. apply list_byte_of_string_app.
  - reflexivity.
  - discriminate.
  - reflexivity.
  - reflexivity.
  - reflexivity.
  - reflexivity.
Defined.

Lemma handshake_options_inline_or_fallback_witness :
  let env := Scenario.env 0 in
  let w := fresh_world Scenario.the_target (Some Scenario.callback) in
  let response :=
    "BIG:monetdb:{SHA256}SHA256(SHA512(monetdb)sXYZ):sql:demo:FILETRANS:auto_commit=1:" in
  let w1 := snd (_challenge_response env Scenario.challenge w) in
  exists (base : string) (N : Z) (k : nat),
    let opts := offered (self w1) in
    let deferred :=
      filter (fun o => HandshakeOption.sent o = false) (marked N <$> opts) in
    sql_options_level env
      (Str.split ","
         (nth 6 (removelast (Str.split ":" Scenario.challenge)) "")) 0
    = Return N /\
    response
    = base ++ "FILETRANS:"
      ++ Str.join ","
           (option_entry
            <$> filter (fun o => HandshakeOption.level o < N) opts)
      ++ ":" /\
    remaining_handshake_options (self w1) = deferred /\
    Forall (fun o => ~ HandshakeOption.level o < N) deferred /\
    (Forall (fun o => HandshakeOption.sent o = false) opts ->
     deferred = filter (fun o => ~ HandshakeOption.level o < N) opts) /\
    fallback_calls (snd (connect_finish env w1))
    = (fallback_calls w1 ++ (fallback_call <$> take k deferred))%list /\
    (fst (connect_finish env w1) = Return tt -> k = length deferred) /\
    state (self (made_ready w1)) = STATE_READY /\
    fallbacks_applied env deferred (made_ready w1) (connect_finish env w1) /\
    ((forall f v w0,
         state (self (snd (env_fallback_body env f v w0))) = state (self w0)) ->
     state (self (snd (connect_finish env w1))) = STATE_READY).
Proof.
  intros env w response w1.
  apply (handshake_options_inline_or_fallback env Scenario.challenge response
           w w1 w1).
  - vm_compute. reflexivity.
  - vm_compute. discriminate.
  - reflexivity.
Defined.

(** The whole of a login in the small world: the server advertises [sql=2],
    so [auto_commit] (level 1) goes into the response, and [reply_size]
    (level 2) and [time_zone] (level 5) are applied by their fallbacks, in
    that order, once the connection is [READY]. *)
Example connect_options :
  let run := connect (Scenario.env 0) Scenario.the_target
               (Some Scenario.callback) new_world in
  fst run = Return tt /\
  state (self (snd run)) = STATE_READY /\
  fallback_calls (snd run) = [(1%nat, VInt 100); (2%nat, VInt 3600)] /\
  (string_of_list_byte ∘ Socket.outbound) <$> sockets (snd run)
  = [ "0" ++ string_of_list_byte (Scenario.block
       "BIG:monetdb:{SHA256}SHA256(SHA512(monetdb)sXYZ):sql:demo:FILETRANS:auto_commit=1:") ].
Proof. vm_compute. done. Qed.

(** ** The round trip on text *)

Section Text.

Context (env : Env).

Lemma has_socket_update (f : Connection -> Connection) w r s :
  (forall c, socket (f c) = socket c) ->
  has_socket w r s -> has_socket (snd (update f w)) r s.
Proof. intros Hf [Hr Hs]. split; [simpl; by rewrite Hf | done]. Qed.

Lemma _get_buffer_socket w r s :
  has_socket w r s ->
  exists buf w', _get_buffer w = (Return buf, w') /\ has_socket w' r s.
Proof.
  intros Hw. unfold _get_buffer, bind, get.
  destruct (stashed_buffer (self w)) as [[|x l]|];
    [by eauto | | by eauto].
  eexists _, _. split; [reflexivity|].
  by apply (has_socket_update _ w r s).
Qed.

Lemma _stash_buffer_returns buffer w :
  fst (_stash_buffer buffer w) = Return tt.
Proof.
  unfold _stash_buffer, bind, get.
  destruct (stashed_buffer (self w)) as [old|]; [|done].
  by destruct (len old <? len buffer).
Qed.

(** On a connection that speaks the block protocol, a text written with
    [_putblock] is the text [_getblock] reads at the other end, whenever the
    codec decodes what it encoded. *)
Lemma putblock_getblock_text
  (s : string) (ww rw : World) (i j : nat) (sw sr : Socket.t)
  (rest : list byte) :
  env_utf8_decode env (env_utf8_encode env s) = Some s ->
  truthy (is_raw_control (self ww)) = false ->
  truthy (is_raw_control (self rw)) = false ->
  has_socket ww i sw -> Socket.closed sw = false -> Socket.shut_wr sw = false ->
  has_socket rw j sr -> Socket.closed sr = false ->
  Socket.inbound sr = (sent (_putblock env s) ww ++ rest)%list ->
  fst (_putblock env s ww) = Return tt /\
  fst (_getblock env rw) = Return s.
Proof.
  intros Hcodec Hrw Hrr Hww Hcw Hsw Hrd Hcr Hin.
  assert (Hput : _putblock env s ww
                 = _putblock_raw (env_utf8_encode env s) true ww).
  { unfold _putblock, bind, get. by rewrite Hrw. }
  destruct (_putblock_raw_ok (env_utf8_encode env s) ww i sw Hww Hcw Hsw)
    as (wire & Hfr & Hraw).
  assert (Hsent : sent (_putblock env s) ww = wire).
  { eapply sent_having_sent; [exact Hww|]. rewrite Hput. exact Hraw. }
  rewrite Hsent in Hin. split; [by rewrite Hput, Hraw|].
  unfold _getblock, bind at 1, get at 1. rewrite Hrr.
  destruct (_get_buffer_socket rw j sr Hrd) as (buf & rw' & Hbuf & Hrd').
  unfold bind at 1. rewrite Hbuf.
  destruct (_getblock_raw_ok (env_utf8_encode env s) wire buf 0 rest rw' j sr
              Hfr Hrd' Hcr Hin)
    as (sch & b' & Hget & Htake & Hb'); [pose proof (len_nonneg buf); lia|].
  unfold bind at 1. rewrite Hget. rewrite Z.add_0_l in *.
  pose proof (len_nonneg (env_utf8_encode env s)).
  rewrite slice_nonneg by lia.
  rewrite drop_0, Z.sub_0_r, Htake. simpl take at 1.
  unfold decode. rewrite app_nil_l, Hcodec.
  unfold bind, ret.
  pose proof (_stash_buffer_returns b'
                (put_socket rw' j (drained sr rest sch))) as Hst.
  destruct (_stash_buffer b' _) as [o w']. simpl in Hst. by subst o.
Qed.

End Text.


(** * More of the code *)

(** ** More on framing *)

Lemma framed_len (P wire : list byte) :
  framed P wire ->
  len wire = len P + 2 * (len P / MAX_PACKAGE_LENGTH + 1).
Proof.
  pose proof MAX_PACKAGE_LENGTH_eq as HM.
  induction 1 as [P HP | c P wire Hc Hfr IH].
  - pose proof (len_nonneg P). rewrite Z.div_small by lia.
    unfold minor_block. rewrite len_app. unfold len at 1. simpl. lia.
  - rewrite !len_app, IH, Hc. unfold minor_block. rewrite len_app, Hc.
    unfold len at 1. simpl length.
    replace (MAX_PACKAGE_LENGTH + len P)
      with (len P + 1 * MAX_PACKAGE_LENGTH) by lia.
    rewrite Z.div_add by lia. lia.
Qed.

(** X1.  What [_putblock_raw] puts on the wire for a payload of [n] bytes is
    [n] bytes of payload and two bytes of header for each of the
    [n / 8190 + 1] minor blocks. *)
Theorem putblock_wire_length
  (P : list byte) (w : World) (r : nat) (s : Socket.t) :
  has_socket w r s -> Socket.closed s = false -> Socket.shut_wr s = false ->
  len (sent (_putblock_raw P true) w) = len P + 2 * (len P / 8190 + 1).
Proof.
  intros Hw Hc Hs.
  destruct (_putblock_raw_ok P w r s Hw Hc Hs) as (wire & Hfr & Hput).
  rewrite (sent_having_sent _ w r s wire _ Hw Hput).
  by apply framed_len.
Qed.

Lemma putblock_wire_length_witness :
  let P := replicate (Z.to_nat 20000) x61 in
  let w := world_of new_connection (Socket.connected [] []) in
  len (sent (_putblock_raw P true) w) = len P + 2 * (len P / 8190 + 1).
Proof.
  intros P w.
  apply (putblock_wire_length P w 0 (Socket.connected [] [])).
  - split; reflexivity.
  - reflexivity.
  - reflexivity.
Defined.

(** Two writes in a row append to what the socket has sent. *)
Lemma sent_bind_having_sent {A B} (m1 : M A) (m2 : M B) w r s wire1 wire2 a o :
  has_socket w r s ->
  m1 w = (Return a, put_socket w r (having_sent s wire1)) ->
  m2 (put_socket w r (having_sent s wire1))
  = (o, put_socket (put_socket w r (having_sent s wire1)) r
          (having_sent (having_sent s wire1) wire2)) ->
  sent (bind m1 (fun _ => m2)) w = (wire1 ++ wire2)%list.
Proof.
  intros Hw H1 H2.
  eapply (sent_having_sent _ w r s (wire1 ++ wire2) o Hw).
  unfold bind. rewrite H1, H2. by rewrite put_socket_put, having_sent_app.
Qed.

(** X2.  Two messages written one after the other are read back one after
    the other: the first read stops at the end of the first message, and the
    second, into the same buffer, gives the second message. *)
Theorem two_messages_in_order
  (P Q : list byte) (ww rw : World) (i j : nat) (sw sr : Socket.t)
  (rest buffer : list byte) :
  has_socket ww i sw -> Socket.closed sw = false -> Socket.shut_wr sw = false ->
  has_socket rw j sr -> Socket.closed sr = false ->
  Socket.inbound sr
  = (sent (_putblock_raw P true ;; _putblock_raw Q true) ww ++ rest)%list ->
  exists b1 rw1 b2 rw2,
    _getblock_raw buffer 0 rw = (Return (b1, len P), rw1) /\
    take (length P) b1 = P /\
    _getblock_raw b1 0 rw1 = (Return (b2, len Q), rw2) /\
    take (length Q) b2 = Q /\
    Socket.inbound <$> the_socket rw2 = Some rest.
Proof.
  intros Hww Hcw Hsw Hrw Hcr Hin.
  destruct (_putblock_raw_ok P ww i sw Hww Hcw Hsw) as (wp & Hfp & Hputp).
  destruct (_putblock_raw_ok Q (put_socket ww i (having_sent sw wp)) i
              (having_sent sw wp) (has_socket_put ww i sw _ Hww)
              eq_refl eq_refl) as (wq & Hfq & Hputq).
  rewrite (sent_bind_having_sent _ _ ww i sw wp wq tt (Return tt) Hww Hputp Hputq)
    in Hin.
  rewrite <- app_assoc in Hin.
  destruct (_getblock_raw_ok P wp buffer 0 (wq ++ rest)%list rw j sr
              Hfp Hrw Hcr Hin)
    as (sch1 & b1 & Hget1 & Htake1 & Hlen1); [pose proof (len_nonneg buffer); lia|].
  rewrite Z.add_0_l in *.
  destruct (_getblock_raw_ok Q wq b1 0 rest
              (put_socket rw j (drained sr (wq ++ rest) sch1)) j
              (drained sr (wq ++ rest) sch1) Hfq
              (has_socket_put rw j sr _ Hrw) eq_refl eq_refl)
    as (sch2 & b2 & Hget2 & Htake2 & Hlen2); [pose proof (len_nonneg P); lia|].
  rewrite Z.add_0_l in *.
  eexists b1, _, b2, _. split; [exact Hget1|]. split.
  { unfold len in Htake1. by rewrite Nat2Z.id in Htake1. }
  split; [exact Hget2|]. split.
  { unfold len in Htake2. by rewrite Nat2Z.id in Htake2. }
  rewrite put_socket_put.
  by rewrite (has_socket_the_socket _ j _ (has_socket_put rw j sr _ Hrw)).
Qed.

Lemma two_messages_in_order_witness :
  let P := bytes_of_string "first" in
  let Q := bytes_of_string "second" in
  let ww := world_of new_connection (Socket.connected [] []) in
  let sr := Socket.connected
              (sent (_putblock_raw P true ;; _putblock_raw Q true) ww ++ [])%list
              [1; 0]%nat in
  let rw := world_of new_connection sr in
  exists b1 rw1 b2 rw2,
    _getblock_raw (zeros 8192) 0 rw = (Return (b1, len P), rw1) /\
    take (length P) b1 = P /\
    _getblock_raw b1 0 rw1 = (Return (b2, len Q), rw2) /\
    take (length Q) b2 = Q /\
    Socket.inbound <$> the_socket rw2 = Some [].
Proof.
  intros P Q ww sr rw.
  apply (two_messages_in_order P Q ww rw 0 0 (Socket.connected [] []) sr []
           (zeros 8192)).
  - split; reflexivity.
  - reflexivity.
  - reflexivity.
  - split; reflexivity.
  - reflexivity.
  - reflexivity.
Defined.

(** Writing with [finish] unset sends the same chunks, none marked last. *)
Lemma _putblock_raw_loop_unfinished (block : list byte) (fuel : nat) :
  forall pos w r s,
    has_socket w r s -> Socket.closed s = false -> Socket.shut_wr s = false ->
    0 <= pos <= len block ->
    (len block - pos) / MAX_PACKAGE_LENGTH < Z.of_nat fuel ->
    exists wire,
      unfinished (drop (Z.to_nat pos) block) wire /\
      _putblock_raw_loop fuel block false pos w
      = (Return tt, put_socket w r (having_sent s wire)).
Proof.
  pose proof MAX_PACKAGE_LENGTH_eq as HM.
  induction fuel as [|fuel IH]; intros pos w r s Hw Hc Hs Hpos Hf.
  { pose proof (Z.div_pos (len block - pos) MAX_PACKAGE_LENGTH). lia. }
  set (data := take (Z.to_nat MAX_PACKAGE_LENGTH) (drop (Z.to_nat pos) block)).
  assert (Hdata : slice block pos (pos + MAX_PACKAGE_LENGTH) = data).
  { rewrite slice_nonneg by lia. subst data. do 2 f_equal. lia. }
  assert (Hlen : len data = Z.min MAX_PACKAGE_LENGTH (len block - pos)).
  { subst data. unfold len in *. rewrite length_take, length_drop. lia. }
  simpl. rewrite Hdata.
  rewrite struct_pack_more by (pose proof (len_nonneg data); lia).
  unfold lift, bind. erewrite on_self_socket_run by exact Hw.
  rewrite send_open by done. simpl.
  erewrite on_self_socket_run by (eapply has_socket_put, Hw).
  rewrite send_open by done. simpl.
  rewrite put_socket_put, having_sent_app.
  fold (minor_block false data).
  destruct (Z.ltb_spec (len data) MAX_PACKAGE_LENGTH) as [Hlt|Hge].
  - exists (minor_block false data).
    assert (Hall : drop (Z.to_nat pos) block = data).
    { subst data. symmetry. apply take_ge. rewrite length_drop.
      unfold len in *. lia. }
    split; [rewrite Hall; apply unfinished_last; lia | done].
  - assert (Hfull : len data = MAX_PACKAGE_LENGTH) by lia.
    destruct (IH (pos + len data)
                (put_socket w r (having_sent s (minor_block false data))) r
                (having_sent s (minor_block false data)))
      as (wire & Hfr & Hrun); try done.
    { eapply has_socket_put, Hw. }
    { lia. }
    { rewrite Hfull.
      replace (len block - (pos + MAX_PACKAGE_LENGTH))
        with ((len block - pos) + (-1) * MAX_PACKAGE_LENGTH) by lia.
      rewrite Z.div_add by lia. lia. }
    exists (minor_block false data ++ wire)%list. split.
    + rewrite <- (take_drop (Z.to_nat MAX_PACKAGE_LENGTH)
                    (drop (Z.to_nat pos) block)).
      fold data. apply unfinished_more; [done|].
      rewrite drop_drop.
      replace (Z.to_nat pos + Z.to_nat MAX_PACKAGE_LENGTH)%nat
        with (Z.to_nat (pos + len data)) by lia.
      exact Hfr.
    + simpl. by rewrite Hrun, put_socket_put, having_sent_app.
Qed.

Lemma _putblock_raw_unfinished (block : list byte) w r s :
  has_socket w r s -> Socket.closed s = false -> Socket.shut_wr s = false ->
  exists wire,
    unfinished block wire /\
    _putblock_raw block false w
    = (Return tt, put_socket w r (having_sent s wire)).
Proof.
  intros Hw Hc Hs. pose proof MAX_PACKAGE_LENGTH_eq as HM.
  pose proof (len_nonneg block).
  pose proof (Z.div_pos (len block) MAX_PACKAGE_LENGTH).
  destruct (_putblock_raw_loop_unfinished block
              (S (Z.to_nat (len block / MAX_PACKAGE_LENGTH))) 0 w r s
              Hw Hc Hs)
    as (wire & Hfr & Hrun).
  - lia.
  - rewrite Z.sub_0_r. lia.
  - by exists wire.
Qed.

(** Reading goes on past chunks that are not marked last. *)
Lemma _getblock_raw_loop_continued (P w1 : list byte) :
  unfinished P w1 ->
  forall Q w2 fuel buffer offset rest w r s,
    framed Q w2 ->
    has_socket w r s -> Socket.closed s = false ->
    Socket.inbound s = (w1 ++ w2 ++ rest)%list ->
    0 <= offset <= len buffer -> (length (w1 ++ w2) < fuel)%nat ->
    exists sch buffer',
      _getblock_raw_loop fuel buffer offset w
      = (Return (buffer', offset + len (P ++ Q)%list),
         put_socket w r (drained s rest sch))
      /\ take (Z.to_nat (offset + len (P ++ Q)%list)) buffer'
         = (take (Z.to_nat offset) buffer ++ P ++ Q)%list.
Proof.
  pose proof MAX_PACKAGE_LENGTH_eq as HM.
  induction 1 as [P HP | c P w1 Hc Hun IH];
    intros Q w2 fuel buffer offset rest w r s Hfr Hw Hcl Hin Ho Hf;
    (destruct fuel as [|fuel]; [lia|]).
  - unfold minor_block in Hin. rewrite <- !app_assoc in Hin.
    fold (minor_block false P) in Hin.
    assert (Hin' : Socket.inbound s
                   = (minor_block false P ++ (w2 ++ rest))%list).
    { rewrite Hin. unfold minor_block. by rewrite <- !app_assoc. }
    destruct (_get_minor_block_ok buffer offset false P (w2 ++ rest)%list w r s)
      as (sch & b' & Hrun & Htake & Hlen); try done; [lia|].
    pose proof (len_nonneg P).
    destruct (_getblock_raw_loop_ok Q w2 Hfr fuel b' (offset + len P) rest
                (put_socket w r (drained s (w2 ++ rest) sch)) r
                (drained s (w2 ++ rest) sch))
      as (sch2 & b2 & Hrun2 & Htake2 & Hlen2); try done.
    { eapply has_socket_put, Hw. }
    { lia. }
    { rewrite length_app, minor_block_length in Hf. lia. }
    exists sch2, b2. simpl. unfold bind. rewrite Hrun, Hrun2.
    rewrite put_socket_put, drained_drained, len_app, Z.add_assoc.
    split; [done|]. by rewrite Htake2, Htake, <- app_assoc.
  - assert (Hin' : Socket.inbound s
                   = (minor_block false c ++ (w1 ++ w2 ++ rest))%list).
    { rewrite Hin. by rewrite <- !app_assoc. }
    destruct (_get_minor_block_ok buffer offset false c
                (w1 ++ w2 ++ rest)%list w r s)
      as (sch & b' & Hrun & Htake & Hlen); try done; [lia|].
    pose proof (len_nonneg c).
    destruct (IH Q w2 fuel b' (offset + len c) rest
                (put_socket w r (drained s (w1 ++ w2 ++ rest) sch)) r
                (drained s (w1 ++ w2 ++ rest) sch))
      as (sch2 & b2 & Hrun2 & Htake2); try done.
    { eapply has_socket_put, Hw. }
    { lia. }
    { rewrite <- app_assoc, length_app, minor_block_length in Hf.
      rewrite length_app in *. lia. }
    exists sch2, b2. simpl. unfold bind. rewrite Hrun, Hrun2.
    rewrite put_socket_put, drained_drained.
    rewrite <- (app_assoc c P Q), (len_app c), Z.add_assoc.
    split; [done|]. by rewrite Htake2, Htake, <- !app_assoc.
Qed.

(** X3.  A payload written with [finish] unset and one written after it with
    [finish] set arrive as one message: [_getblock_raw] reads the first
    followed by the second. *)
Theorem unfinished_then_finished
  (P Q : list byte) (ww rw : World) (i j : nat) (sw sr : Socket.t)
  (rest buffer : list byte) :
  has_socket ww i sw -> Socket.closed sw = false -> Socket.shut_wr sw = false ->
  has_socket rw j sr -> Socket.closed sr = false ->
  Socket.inbound sr
  = (sent (_putblock_raw P false ;; _putblock_raw Q true) ww ++ rest)%list ->
  fst ((_putblock_raw P false ;; _putblock_raw Q true) ww) = Return tt /\
  exists buffer' rw',
    _getblock_raw buffer 0 rw = (Return (buffer', len (P ++ Q)%list), rw') /\
    take (length (P ++ Q)%list) buffer' = (P ++ Q)%list /\
    Socket.inbound <$> the_socket rw' = Some rest.
Proof.
  intros Hww Hcw Hsw Hrw Hcr Hin.
  destruct (_putblock_raw_unfinished P ww i sw Hww Hcw Hsw)
    as (wp & Hfp & Hputp).
  destruct (_putblock_raw_ok Q (put_socket ww i (having_sent sw wp)) i
              (having_sent sw wp) (has_socket_put ww i sw _ Hww)
              eq_refl eq_refl) as (wq & Hfq & Hputq).
  rewrite (sent_bind_having_sent _ _ ww i sw wp wq tt (Return tt) Hww Hputp Hputq)
    in Hin.
  split; [unfold bind; by rewrite Hputp, Hputq|].
  rewrite <- app_assoc in Hin.
  unfold _getblock_raw. rewrite (has_socket_the_socket rw j sr Hrw).
  destruct (_getblock_raw_loop_continued P wp Hfp Q wq
              (S (length (Socket.inbound sr))) buffer 0 rest rw j sr
              Hfq Hrw Hcr Hin)
    as (sch & b' & Hget & Htake).
  { pose proof (len_nonneg buffer). lia. }
  { rewrite Hin, !length_app. lia. }
  rewrite Z.add_0_l in *.
  eexists b', _. split; [exact Hget|]. split.
  - unfold len in Htake. by rewrite Nat2Z.id in Htake.
  - by rewrite (has_socket_the_socket _ j _ (has_socket_put rw j sr _ Hrw)).
Qed.

Lemma unfinished_then_finished_witness :
  let P := bytes_of_string "one half, " in
  let Q := bytes_of_string "the other" in
  let ww := world_of new_connection (Socket.connected [] []) in
  let m := (_putblock_raw P false ;; _putblock_raw Q true) in
  let sr := Socket.connected (sent m ww ++ [x00])%list [] in
  let rw := world_of new_connection sr in
  fst (m ww) = Return tt /\
  exists buffer' rw',
    _getblock_raw [] 0 rw = (Return (buffer', len (P ++ Q)%list), rw') /\
    take (length (P ++ Q)%list) buffer' = (P ++ Q)%list /\
    Socket.inbound <$> the_socket rw' = Some [x00].
Proof.
  intros P Q ww m sr rw.
  apply (unfinished_then_finished P Q ww rw 0 0 (Socket.connected [] []) sr
           [x00] []).
  - split; reflexivity.
  - reflexivity.
  - reflexivity.
  - split; reflexivity.
  - reflexivity.
  - reflexivity.
Defined.

(** ** The buffer *)

Lemma lookup_write_at_outside (b : list byte) (o : Z) (d : list byte) (i : nat) :
  0 <= o -> o + len d <= len b ->
  (Z.of_nat i < o \/ o + len d <= Z.of_nat i) ->
  write_at b o d !! i = b !! i.
Proof.
  intros Ho Hd Hi. unfold write_at, len in *.
  destruct Hi as [Hlt|Hge].
  - rewrite lookup_app_l by (rewrite length_take; lia).
    apply lookup_take_lt. lia.
  - rewrite lookup_app_r by (rewrite length_take; lia).
    rewrite lookup_app_r by (rewrite length_take; lia).
    rewrite lookup_drop, length_take. f_equal. lia.
Qed.

Lemma enlarged_len_eq (buffer : list byte) (e : Z) :
  len (enlarged buffer e)
  = if len buffer <? e
    then len buffer + (1 + (e - len buffer) / 8192) * 8192
    else len buffer.
Proof.
  unfold enlarged. destruct (Z.ltb_spec (len buffer) e); [|done].
  rewrite len_app. f_equal. unfold zeros. unfold len at 1.
  rewrite length_replicate.
  pose proof (Z.div_pos (e - len buffer) 8192). lia.
Qed.

(** X4.  [_getbytes] stores the bytes it reads at [offset] and touches
    nothing else: the buffer never shrinks, grows only when it is too short
    and then by a multiple of 8192, and keeps every byte outside
    [offset .. offset + count). *)
Theorem _getbytes_buffer
  (buffer data rest : list byte) (offset count : Z) (w : World) (r : nat)
  (s : Socket.t) :
  has_socket w r s -> Socket.closed s = false ->
  Socket.inbound s = (data ++ rest)%list ->
  len data = count -> 0 <= offset <= len buffer ->
  exists buffer' w',
    _getbytes buffer offset count w = (Return (buffer', offset + count), w') /\
    slice buffer' offset (offset + count) = data /\
    len buffer <= len buffer' /\
    (len buffer' - len buffer) mod 8192 = 0 /\
    (offset + count <= len buffer -> len buffer' = len buffer) /\
    (forall i : nat,
        (i < length buffer)%nat ->
        Z.of_nat i < offset \/ offset + count <= Z.of_nat i ->
        buffer' !! i = buffer !! i).
Proof.
  intros Hw Hc Hin Hlen Ho. subst count.
  pose proof (len_nonneg data) as Hd.
  pose proof (enlarged_len buffer (len data + offset)) as Hel.
  destruct (_getbytes_loop_ok (Z.to_nat (len data + offset - offset))
              (enlarged buffer (len data + offset)) offset (len data + offset)
              data rest w r s) as [sch Hrun]; try done; try lia.
  exists (write_at (enlarged buffer (len data + offset)) offset data),
         (put_socket w r (drained s rest sch)).
  split.
  { unfold _getbytes, bind, get, assert. destruct Hw as [-> _]. simpl.
    fold (enlarged buffer (len data + offset)). rewrite Hrun.
    unfold ret. by rewrite (Z.add_comm (len data) offset). }
  assert (Hlw : len (write_at (enlarged buffer (len data + offset)) offset data)
                = len (enlarged buffer (len data + offset)))
    by (apply len_write_at; lia).
  split.
  { rewrite slice_nonneg by lia.
    replace (offset + len data - offset) with (len data) by lia.
    unfold write_at, len. rewrite Nat2Z.id.
    rewrite drop_app_length' by (rewrite length_take; unfold len in *; lia).
    apply take_app_length. }
  rewrite Hlw, enlarged_len_eq.
  destruct (Z.ltb_spec (len buffer) (len data + offset)) as [Hlt|Hge].
  - pose proof (Z.div_pos (len data + offset - len buffer) 8192
                  ltac:(lia) ltac:(lia)).
    split; [lia|]. split.
    { replace (len buffer + _ - len buffer)
        with ((1 + (len data + offset - len buffer) / 8192) * 8192) by lia.
      apply Z.mod_mul. lia. }
    split; [lia|].
    intros i Hi Hout.
    rewrite lookup_write_at_outside by lia.
    unfold enlarged. destruct (Z.ltb_spec (len buffer) (len data + offset)); [|lia].
    apply lookup_app_l. lia.
  - split; [lia|]. split; [by rewrite Z.sub_diag|]. split; [done|].
    intros i Hi Hout. rewrite lookup_write_at_outside by lia.
    unfold enlarged. by destruct (Z.ltb_spec (len buffer) (len data + offset)); [lia|].
Qed.

Lemma _getbytes_buffer_witness :
  let s := Socket.connected (bytes_of_string "abcdef") [0]%nat in
  let w := world_of new_connection s in
  let buffer := bytes_of_string "0123456789" in
  exists buffer' w',
    _getbytes buffer 8 4 w = (Return (buffer', 8 + 4), w') /\
    slice buffer' 8 (8 + 4) = bytes_of_string "abcd" /\
    len buffer <= len buffer' /\
    (len buffer' - len buffer) mod 8192 = 0 /\
    (8 + 4 <= len buffer -> len buffer' = len buffer) /\
    (forall i : nat,
        (i < length buffer)%nat ->
        Z.of_nat i < 8 \/ 8 + 4 <= Z.of_nat i ->
        buffer' !! i = buffer !! i).
Proof.
  intros s w buffer.
  apply (_getbytes_buffer buffer (bytes_of_string "abcd")
           (bytes_of_string "ef") 8 4 w 0 s).
  - split; reflexivity.
  - reflexivity.
  - reflexivity.
  - reflexivity.
  - vm_compute. split; discriminate.
Defined.

(** [_get_buffer] always hands out a buffer that is not empty, and a
    buffer it hands out is no longer the stashed one: afterwards nothing is
    stashed, or what is stashed is empty. *)
Theorem _get_buffer_fresh (w : World) :
  exists buf w',
    _get_buffer w = (Return buf, w') /\
    0 < len buf /\
    (stashed_buffer (self w') = None \/ stashed_buffer (self w') = Some []) /\
    (buf = zeros 8192 \/ stashed_buffer (self w) = Some buf).
Proof.
  unfold _get_buffer, bind, get.
  destruct (stashed_buffer (self w)) as [[|x l]|] eqn:Hst.
  - eexists _, _. split; [reflexivity|]. split; [done|].
    split; [by right | by left].
  - eexists _, _. split; [reflexivity|]. split.
    + unfold len. simpl. lia.
    + split; [by left | by right].
  - eexists _, _. split; [reflexivity|]. split; [done|].
    split; [by left | by left].
Qed.

(** X5.  [_stash_buffer] keeps the larger of the stashed buffer and the one
    it is given, the stashed one on a tie; and a buffer stashed while none
    was stashed is the one [_get_buffer] hands out next, with nothing left
    stashed. *)
Theorem _stash_buffer_keeps_larger (buffer : list byte) (w : World) :
  exists w',
    _stash_buffer buffer w = (Return tt, w') /\
    stashed_buffer (self w')
    = Some (match stashed_buffer (self w) with
            | Some old => if len old <? len buffer then buffer else old
            | None => buffer
            end) /\
    (stashed_buffer (self w) = None -> buffer <> [] ->
     exists w'', _get_buffer w' = (Return buffer, w'') /\
                 stashed_buffer (self w'') = None).
Proof.
  unfold _stash_buffer, bind, get.
  destruct (stashed_buffer (self w)) as [old|] eqn:Hst.
  - destruct (len old <? len buffer); eexists; (split; [reflexivity|]);
      (split; [by simpl | done]).
  - eexists. split; [reflexivity|]. split; [done|].
    intros _ Hne. unfold _get_buffer, bind, get. simpl.
    destruct buffer as [|x l]; [done|]. eexists. by split.
Qed.

Lemma _stash_buffer_keeps_larger_witness :
  exists w' w'',
    _stash_buffer [x01; x02] new_world = (Return tt, w') /\
    stashed_buffer (self w') = Some [x01; x02] /\
    _get_buffer w' = (Return [x01; x02], w'') /\
    stashed_buffer (self w'') = None.
Proof.
  destruct (_stash_buffer_keeps_larger [x01; x02] new_world)
    as (w' & Hrun & Hst & Hget).
  destruct (Hget eq_refl ltac:(discriminate)) as (w'' & Hg & Hn).
  by exists w', w''.
Defined.


(** ** Control connections *)

Lemma assert_socket_run {A} (k : M A) w r s :
  has_socket w r s ->
  (s <- get socket ;; assert (bool_decide (is_Some s)) ;; k) w = k w.
Proof.
  intros [Hr _]. unfold bind, get, assert. rewrite Hr.
  by rewrite bool_decide_eq_true_2 by eauto.
Qed.

Lemma _recv_to_end_loop_ok (fuel : nat) :
  forall parts w r s,
    has_socket w r s -> Socket.closed s = false ->
    (length (Socket.inbound s) < fuel)%nat ->
    exists parts' sch,
      _recv_to_end_loop fuel parts w
      = (Return parts', put_socket w r (drained s [] sch)) /\
      concat parts' = (concat parts ++ Socket.inbound s)%list.
Proof.
  induction fuel as [|fuel IH]; intros parts w r s Hw Hc Hf; [lia|].
  cbn [_recv_to_end_loop]. rewrite (assert_socket_run _ w r s Hw).
  unfold bind at 1.
  erewrite on_self_socket_run by exact Hw.
  destruct (decide (Socket.inbound s = [])) as [Hnil|Hne].
  - rewrite recv_eof by done. simpl.
    exists parts, (tail (Socket.sched s)). split; [done|].
    by rewrite Hnil, app_nil_r.
  - destruct (recv_some 4096 s) as (n & Hn0 & Hnk & Hnin & ->);
      [done | lia | done |].
    simpl.
    destruct (take n (Socket.inbound s)) as [|x l] eqn:Htake.
    { apply (f_equal length) in Htake. rewrite length_take in Htake.
      simpl in Htake. lia. }
    rewrite <- Htake.
    destruct (IH (parts ++ [take n (Socket.inbound s)])%list
                (put_socket w r (drained s (drop n (Socket.inbound s))
                                   (tail (Socket.sched s)))) r
                (drained s (drop n (Socket.inbound s)) (tail (Socket.sched s))))
      as (parts' & sch & Hrun & Hcat).
    + eapply has_socket_put, Hw.
    + reflexivity.
    + simpl. rewrite length_drop. lia.
    + exists parts', sch. rewrite Hrun, put_socket_put, drained_drained.
      split; [done|]. rewrite Hcat. cbn [Socket.inbound drained].
      rewrite concat_app. cbn [concat]. rewrite app_nil_r, <- app_assoc.
      by rewrite take_drop.
Qed.

Section Control.

Context (env : Env).

(** X6.  [_recv_to_end] returns everything the peer sends before it closes
    the connection, stripped of white space and decoded, however the stream
    is cut up between [recv] calls; nothing is left unread. *)
Theorem _recv_to_end_all (text : string) (w : World) (r : nat) (s : Socket.t) :
  has_socket w r s -> Socket.closed s = false ->
  env_utf8_decode env (bytes_strip (Socket.inbound s)) = Some text ->
  exists w',
    _recv_to_end env w = (Return text, w') /\
    Socket.inbound <$> the_socket w' = Some [] /\
    self w' = self w.
Proof.
  intros Hw Hc Hdec. unfold _recv_to_end.
  rewrite (has_socket_the_socket w r s Hw).
  destruct (_recv_to_end_loop_ok (S (length (Socket.inbound s))) [] w r s
              Hw Hc ltac:(lia)) as (parts & sch & Hrun & Hcat).
  unfold bind. rewrite Hrun. simpl in Hcat. rewrite Hcat.
  unfold decode. rewrite Hdec. eexists. split; [reflexivity|].
  split; [|done].
  by rewrite (has_socket_the_socket _ r _ (has_socket_put w r s _ Hw)).
Qed.

Lemma drop_length_take {A} (n : nat) (l : list A) :
  drop (length (take n l)) l = drop n l.
Proof.
  rewrite length_take. destruct (Nat.le_ge_cases n (length l)).
  - by rewrite Nat.min_l.
  - rewrite Nat.min_r by done. by rewrite !drop_ge.
Qed.

Lemma _send_all_loop_ok (block : list byte) (fuel : nat) :
  forall pos w r s,
    has_socket w r s -> Socket.closed s = false -> Socket.shut_wr s = false ->
    0 <= pos <= len block -> (Z.to_nat (len block - pos) <= fuel)%nat ->
    _send_all_loop fuel block pos (len block) w
    = (Return tt, put_socket w r (having_sent s (drop (Z.to_nat pos) block))).
Proof.
  induction fuel as [|fuel IH]; intros pos w r s Hw Hc Hs Hpos Hf; simpl;
    destruct (Z.ltb_spec pos (len block)) as [Hlt|Hge]; try lia.
  - rewrite drop_ge by (unfold len in *; lia).
    by rewrite having_sent_nil, (put_socket_same w r s).
  - set (data := take (Z.to_nat 8192) (drop (Z.to_nat pos) block)).
    assert (Hdata : slice block pos (pos + 8192) = data).
    { rewrite slice_nonneg by lia. subst data. do 2 f_equal. lia. }
    assert (Hlen : 0 < len data <= len block - pos).
    { subst data. unfold len in *. rewrite length_take, length_drop. lia. }
    rewrite Hdata. unfold bind.
    erewrite on_self_socket_run by exact Hw.
    rewrite send_open by done. simpl.
    rewrite (IH (pos + len data) _ r (having_sent s data));
      [| eapply has_socket_put, Hw | done | done | lia | lia].
    rewrite put_socket_put, having_sent_app. do 3 f_equal.
    replace (Z.to_nat (pos + len data))
      with (Z.to_nat pos + length data)%nat by (unfold len; lia).
    rewrite <- drop_drop. subst data.
    by rewrite drop_length_take, take_drop.
  - rewrite drop_ge by (unfold len in *; lia).
    by rewrite having_sent_nil, (put_socket_same w r s).
Qed.

(** X7.  On a control connection [_putblock] does not frame: it sends the
    encoded text as it is, whatever its length, and then shuts down the
    writing side of the socket. *)
Theorem _putblock_control (text : string) (w : World) (r : nat) (s : Socket.t) :
  is_raw_control (self w) = Some true ->
  has_socket w r s -> Socket.closed s = false -> Socket.shut_wr s = false ->
  _putblock env text w
  = (Return tt,
     put_socket w r
       (Socket.Make (Socket.inbound s) (Socket.sched s)
          (Socket.outbound s ++ env_utf8_encode env text) false true)).
Proof.
  intros Hrc Hw Hc Hs. unfold _putblock, bind at 1, get at 1.
  rewrite Hrc. cbn [truthy]. unfold _send_all_and_shutdown, bind.
  pose proof (len_nonneg (env_utf8_encode env text)).
  rewrite (_send_all_loop_ok _ _ 0 w r s Hw Hc Hs) by lia.
  unfold try_except.
  erewrite on_self_socket_run by (eapply has_socket_put, Hw).
  by rewrite put_socket_put.
Qed.

End Control.

Lemma _recv_to_end_all_witness :
  let s := Socket.connected
             (bytes_of_string ("OK" ++ String "010" "")) [0; 0]%nat in
  let w := world_of new_connection s in
  exists w',
    _recv_to_end (Scenario.env 0) w = (Return "OK", w') /\
    Socket.inbound <$> the_socket w' = Some [] /\
    self w' = self w.
Proof.
  intros s w. apply (_recv_to_end_all (Scenario.env 0) "OK" w 0 s).
  - split; reflexivity.
  - reflexivity.
  - reflexivity.
Defined.

Lemma _putblock_control_witness :
  let s := Socket.connected [] [] in
  let w := MkWorld (MkConnection STATE_READY Target.default (Some 0%nat)
                      (Some false) (Some true) None [] None None 0)
                   [s] [] [] in
  _putblock (Scenario.env 0) "status" w
  = (Return tt,
     put_socket w 0
       (Socket.Make [] [] ([] ++ bytes_of_string "status") false true)).
Proof.
  intros s w. apply (_putblock_control (Scenario.env 0) "status" w 0 s).
  - reflexivity.
  - split; reflexivity.
  - reflexivity.
  - reflexivity.
Defined.


(** ** Replies without a file transfer *)

Lemma last_index_range (c : byte) (l : list byte) :
  forall i acc,
    last_index c l i acc = acc \/
    (i <= last_index c l i acc < i + len l).
Proof.
  induction l as [|x l IH]; intros i acc; simpl; [by left|].
  unfold len in *. simpl length.
  destruct (IH (i + 1) (if byte_eqb x c then i else acc)) as [Heq|Hin].
  - rewrite Heq. destruct (byte_eqb x c); [right; lia | by left].
  - right. lia.
Qed.

(** The newline [rfind] finds lies inside the range searched. *)
Lemma rfind_range (buffer : list byte) (c : byte) (hi : Z) :
  0 <= hi <= len buffer ->
  rfind buffer c 0 hi = -1 \/ 0 <= rfind buffer c 0 hi < hi.
Proof.
  intros Hhi. unfold rfind.
  pose proof (len_nonneg buffer).
  assert (Hb : slice_bound (len buffer) 0 = 0).
  { unfold slice_bound. simpl. lia. }
  rewrite Hb.
  destruct (last_index_range c (slice buffer 0 hi) 0 (-1)) as [->|Hin];
    [by left|].
  right. rewrite len_slice in Hin by lia. lia.
Qed.

(** A block without the byte 3 holds no file transfer request. *)
Lemma no_filetrans (b P : list byte) (i : Z) :
  take (length P) b = P -> x03 ∉ P ->
  2 <= i -> i + 1 < len P ->
  slice b (i - 2) (i + 1) <> MSG_FILETRANS_B.
Proof.
  intros Htake Hno Hi Hlt Heq.
  assert (Hlen : len P <= len b).
  { apply (f_equal length) in Htake. rewrite length_take in Htake.
    unfold len. lia. }
  rewrite slice_nonneg in Heq by lia.
  apply (f_equal (fun l => l !! 1%nat)) in Heq.
  rewrite lookup_take_lt, lookup_drop in Heq by lia.
  change (MSG_FILETRANS_B !! 1%nat) with (Some x03) in Heq.
  apply Hno. rewrite <- Htake.
  apply list_elem_of_lookup. exists (Z.to_nat (i - 2) + 1)%nat.
  rewrite lookup_take_lt by (unfold len in *; lia). exact Heq.
Qed.

Section Replies.

Context (env : Env).

Lemma update_exchanged (f : Connection -> Connection) w0 w r s :
  exchanged w0 w r s ->
  (forall c, socket (f c) = socket c /\ state (f c) = state c /\
             target (f c) = target c /\
             is_raw_control (f c) = is_raw_control c /\
             remaining_handshake_options (f c)
             = remaining_handshake_options c) ->
  exchanged w0 (snd (update f w)) r s.
Proof.
  intros (Hs & Hso & Hst & Ht & Hrc & Hrem & Hl & Hf) Hfc.
  destruct (Hfc (self w)) as (H1 & H2 & H3 & H4 & H5).
  destruct Hs as [Hr Hlook].
  repeat split; simpl; congruence.
Qed.

Lemma exchanged_refl w r s : has_socket w r s -> exchanged w w r s.
Proof.
  intros Hw. repeat split; try done; try apply Hw.
  symmetry. apply list_insert_id, Hw.
Qed.

Lemma exchanged_put w0 w r s s' :
  exchanged w0 w r s -> exchanged w0 (put_socket w r s') r s'.
Proof.
  intros (Hs & Hso & Hst & Ht & Hrc & Hrem & Hl & Hf).
  split; [by eapply has_socket_put|].
  repeat split; simpl; try done.
  by rewrite Hso, list_insert_insert_eq.
Qed.

Lemma _get_buffer_exchanged w0 w r s :
  exchanged w0 w r s ->
  exists buf w',
    _get_buffer w = (Return buf, w') /\ exchanged w0 w' r s.
Proof.
  intros Hx. unfold _get_buffer, bind, get.
  destruct (stashed_buffer (self w)) as [[|x l]|];
    [by eauto | | by eauto].
  eexists _, _. split; [reflexivity|].
  by apply (update_exchanged _ w0 w r s).
Qed.

Lemma _stash_buffer_exchanged buffer w0 w r s :
  exchanged w0 w r s ->
  exists w', _stash_buffer buffer w = (Return tt, w') /\ exchanged w0 w' r s.
Proof.
  intros Hx. unfold _stash_buffer, bind, get.
  destruct (stashed_buffer (self w)) as [old|].
  - destruct (len old <? len buffer); [|by eauto].
    eexists. split; [reflexivity|]. by apply (update_exchanged _ w0 w r s).
  - eexists. split; [reflexivity|]. by apply (update_exchanged _ w0 w r s).
Qed.

Lemma stash_apart_trans c1 c2 c3 :
  stash_apart c1 c2 -> stash_apart c2 c3 -> stash_apart c1 c3.
Proof.
  unfold stash_apart. intros H1 H2.
  destruct H1 as (?&?&?&?&?&?&?&?&?), H2 as (?&?&?&?&?&?&?&?&?).
  repeat split; congruence.
Qed.

Lemma _get_buffer_stash_apart w :
  stash_apart (self w) (self (snd (_get_buffer w))).
Proof.
  unfold _get_buffer, bind, get.
  by destruct (stashed_buffer (self w)) as [[|x l]|].
Qed.

Lemma _stash_buffer_stash_apart buffer w :
  stash_apart (self w) (self (snd (_stash_buffer buffer w))).
Proof.
  unfold _stash_buffer, bind, get.
  destruct (stashed_buffer (self w)) as [old|]; [|done].
  by destruct (len old <? len buffer).
Qed.

(** A reply without a file transfer request, read. *)
Lemma _getblock_and_transfer_files_plain
  (fuel : nat) (P wire rest : list byte) (text : string)
  (w : World) (r : nat) (s : Socket.t) :
  truthy (is_raw_control (self w)) = false ->
  has_socket w r s -> Socket.closed s = false ->
  framed P wire -> Socket.inbound s = (wire ++ rest)%list ->
  P <> [] -> x03 ∉ P ->
  env_utf8_decode env P = Some text ->
  exists w' sch,
    _getblock_and_transfer_files env (S fuel) w = (Return text, w') /\
    exchanged w w' r (drained s rest sch) /\
    stash_apart (self w) (self w').
Proof.
  intros Hrc Hw Hc Hfr Hin Hne Hno Hdec.
  unfold _getblock_and_transfer_files, bind at 1, get at 1. rewrite Hrc.
  pose proof (_get_buffer_stash_apart w) as Hsa1.
  destruct (_get_buffer_exchanged w w r s (exchanged_refl w r s Hw))
    as (buf & w1 & Hbuf & Hx1).
  rewrite Hbuf in Hsa1. cbn [snd] in Hsa1.
  unfold bind at 1. rewrite Hbuf.
  destruct Hx1 as (Hw1 & Hx1).
  destruct (_getblock_raw_ok P wire buf 0 rest w1 r s Hfr Hw1 Hc Hin)
    as (sch & b' & Hget & Htake & Hlen); [pose proof (len_nonneg buf); lia|].
  rewrite Z.add_0_l in *.
  assert (Htake' : take (length P) b' = P)
    by (unfold len in Htake; by rewrite Nat2Z.id in Htake).
  assert (HP : 0 < len P)
    by (destruct P; [done | unfold len; simpl; lia]).
  cbn [_getblock_and_transfer_files_loop]. do 2 (unfold bind at 1).
  rewrite Hget.
  cbv beta iota zeta.
  assert (Hcond : (0 + 2 <=? rfind b' x0a 0 (len P - 1))
                  && bool_decide (slice b' (rfind b' x0a 0 (len P - 1) - 2)
                                    (rfind b' x0a 0 (len P - 1) + 1)
                                  = MSG_FILETRANS_B) = false).
  { destruct (rfind_range b' x0a (len P - 1)) as [->|Hr]; [lia | done |].
    destruct (Z.leb_spec (0 + 2) (rfind b' x0a 0 (len P - 1))); [|done].
    rewrite bool_decide_eq_false_2; [done|].
    apply (no_filetrans b' P); try done; lia. }
  rewrite Hcond. unfold ret at 1.
  pose proof (_stash_buffer_stash_apart b'
                (put_socket w1 r (drained s rest sch))) as Hsa2.
  destruct (_stash_buffer_exchanged b' w
              (put_socket w1 r (drained s rest sch)) r (drained s rest sch))
    as (w2 & Hstash & Hx2).
  { apply exchanged_put with (s := s). by split. }
  rewrite Hstash in Hsa2. cbn [snd put_socket self] in Hsa2.
  unfold bind. rewrite Hstash.
  rewrite slice_nonneg by lia. rewrite drop_0, Z.sub_0_r, Htake.
  unfold decode. change (take (Z.to_nat 0) buf) with (@nil byte).
  rewrite app_nil_l, Hdec.
  exists w2, sch. split; [done|]. split; [done|].
  by apply (stash_apart_trans _ (self w1)).
Qed.

(** X8.  A reply that is not empty and does not hold the byte 3 is not taken
    for a file transfer request: [_getblock_and_transfer_files] returns it
    decoded and leaves what follows it unread.  Of the sockets only the one
    of the connection changes, the log and the fallback calls are as they
    were, and of the connection object every attribute but the stashed
    buffer is as it was. *)
Theorem getblock_without_transfer
  (fuel : nat) (P wire rest : list byte) (text : string)
  (w : World) (r : nat) (s : Socket.t) :
  truthy (is_raw_control (self w)) = false ->
  has_socket w r s -> Socket.closed s = false ->
  framed P wire -> Socket.inbound s = (wire ++ rest)%list ->
  P <> [] -> x03 ∉ P ->
  env_utf8_decode env P = Some text ->
  exists w' sch,
    _getblock_and_transfer_files env (S fuel) w = (Return text, w') /\
    exchanged w w' r (drained s rest sch) /\
    stash_apart (self w) (self w').
Proof.
  intros Hrc Hw Hc Hfr Hin Hne Hno Hdec.
  destruct (_getblock_and_transfer_files_plain fuel P wire rest text w r s
              Hrc Hw Hc Hfr Hin Hne Hno Hdec)
    as (w' & sch & Hrun & Hx & Hsa).
  exists w', sch. split; [done|]. by split.
Qed.

End Replies.

Lemma getblock_without_transfer_witness :
  let P := bytes_of_string "&1 0 1 1 1" in
  let s := Socket.connected (minor_block true P ++ [x00])%list [] in
  let w := Scenario.ready_world (minor_block true P ++ [x00])%list in
  exists w' sch,
    _getblock_and_transfer_files (Scenario.env 0) 1 w
    = (Return "&1 0 1 1 1", w') /\
    exchanged w w' 0 (drained s [x00] sch) /\
    stash_apart (self w) (self w').
Proof.
  intros P s w.
  apply (getblock_without_transfer (Scenario.env 0) 0 P (minor_block true P)
           [x00] "&1 0 1 1 1" w 0 s).
  - reflexivity.
  - split; reflexivity.
  - reflexivity.
  - apply framed_last. vm_compute. reflexivity.
  - reflexivity.
  - discriminate.
  - vm_compute. intros H. repeat (apply elem_of_cons in H as [H|H]; [discriminate|]).
    by apply elem_of_nil in H.
  - reflexivity.
Defined.


(** ** Commands and their replies *)

Section Exchange.

Context (env : Env).

(** What a command leaves of the socket [s]: the reply read, the framed
    command sent. *)
Lemma cmd_exchange
  (fuel : nat) (operation text : string) (P wire rest : list byte)
  (w : World) (r : nat) (s : Socket.t) :
  truthy (is_raw_control (self w)) = false ->
  has_socket w r s -> Socket.closed s = false -> Socket.shut_wr s = false ->
  framed P wire -> Socket.inbound s = (wire ++ rest)%list ->
  P <> [] -> x03 ∉ P ->
  env_utf8_decode env P = Some text ->
  exists w1 w2 out sch,
    framed (env_utf8_encode env operation) out /\
    _putblock env operation
      (snd (logger DEBUG ("executing command " ++ operation) w))
    = (Return tt, w1) /\
    _getblock_and_transfer_files env (S fuel) w1 = (Return text, w2) /\
    exchanged (snd (logger DEBUG ("executing command " ++ operation) w)) w2 r
      (Socket.Make rest sch (Socket.outbound s ++ out) false false) /\
    stash_apart (self w) (self w2).
Proof.
  intros Hrc Hw Hc Hs Hfr Hin Hne Hno Hdec.
  set (w0 := snd (logger DEBUG ("executing command " ++ operation) w)).
  assert (Hw0 : has_socket w0 r s) by (destruct Hw; by split).
  destruct (_putblock_raw_ok (env_utf8_encode env operation) w0 r s Hw0 Hc Hs)
    as (out & Hout & Hput).
  assert (Hput' : _putblock env operation w0
                  = (Return tt, put_socket w0 r (having_sent s out))).
  { unfold _putblock, bind at 1, get at 1.
    change (is_raw_control (self w0)) with (is_raw_control (self w)).
    by rewrite Hrc. }
  destruct (_getblock_and_transfer_files_plain env fuel P wire rest text
              (put_socket w0 r (having_sent s out)) r (having_sent s out))
    as (w2 & sch & Hget & Hx & Hsa); try done.
  { eapply has_socket_put, Hw0. }
  exists (put_socket w0 r (having_sent s out)), w2, out, sch.
  split; [done|]. split; [done|]. split; [done|].
  split; [|exact Hsa].
  destruct Hx as (Hs2 & Hso & Hst & Ht & Hrc2 & Hrem & Hl & Hf).
  split; [exact Hs2|]. simpl in *.
  split; [by rewrite Hso, list_insert_insert_eq|].
  repeat split; done.
Qed.

Ltac run_cmd Hst Hput Hget :=
  cbn [cmd]; unfold bind at 1; cbn [logger];
  unfold bind at 1, get at 1; cbn [self]; rewrite Hst;
  change (negb (STATE_READY =? STATE_READY)) with false; cbn iota;
  unfold bind at 1; simpl in Hput; rewrite Hput;
  unfold bind at 1; rewrite Hget.

(** X9.  When the reply to a command starts with ['!'], [cmd] hands the
    rest of it to [handle_error] and raises the exception that gives; a
    [ValueError] from [handle_error] itself comes out as it is.  The command
    has been sent, framed, and the reply read. *)
Theorem cmd_error_reply
  (fuel : nat) (operation e : string) (P wire rest : list byte)
  (w : World) (r : nat) (s : Socket.t) :
  state (self w) = STATE_READY ->
  truthy (is_raw_control (self w)) = false ->
  has_socket w r s -> Socket.closed s = false -> Socket.shut_wr s = false ->
  framed P wire -> Socket.inbound s = (wire ++ rest)%list ->
  P <> [] -> x03 ∉ P ->
  env_utf8_decode env P = Some (String "!" e) ->
  exists w' out sch,
    cmd env (S fuel) operation w
    = (match handle_error e with
       | Return km => Raise (Exn (fst km) (snd km))
       | Raise ex => Raise ex
       | Timeout => Timeout
       end, w') /\
    framed (env_utf8_encode env operation) out /\
    has_socket w' r
      (Socket.Make rest sch (Socket.outbound s ++ out) false false).
Proof.
  intros Hst Hrc Hw Hc Hs Hfr Hin Hne Hno Hdec.
  destruct (cmd_exchange fuel operation (String "!" e) P wire rest w r s)
    as (w1 & w2 & out & sch & Hout & Hput & Hget & Hx & Hsa); try done.
  exists w2, out, sch. split; [|split; [done | apply Hx]].
  run_cmd Hst Hput Hget. simpl.
  unfold raise_handled, bind, lift, raise.
  by destruct (handle_error e) as [[k m]| |].
Qed.

(** X10.  A reply that starts with ['&'], ['%'] or ['['] and has no line
    that starts with ['!'] is what [cmd] returns, unchanged. *)
Theorem cmd_result_reply
  (fuel : nat) (operation text : string) (P wire rest : list byte)
  (w : World) (r : nat) (s : Socket.t) :
  state (self w) = STATE_READY ->
  truthy (is_raw_control (self w)) = false ->
  has_socket w r s -> Socket.closed s = false -> Socket.shut_wr s = false ->
  framed P wire -> Socket.inbound s = (wire ++ rest)%list ->
  P <> [] -> x03 ∉ P ->
  env_utf8_decode env P = Some text ->
  String.get 0 text = Some "&"%char \/ String.get 0 text = Some "%"%char
  \/ String.get 0 text = Some "["%char ->
  Forall (fun line => Str.startswith "!" line = false)
         (Str.split "010" text) ->
  exists w' out sch,
    cmd env (S fuel) operation w = (Return (RStr text), w') /\
    framed (env_utf8_encode env operation) out /\
    has_socket w' r
      (Socket.Make rest sch (Socket.outbound s ++ out) false false).
Proof.
  intros Hst Hrc Hw Hc Hs Hfr Hin Hne Hno Hdec H0 Hlines.
  destruct (cmd_exchange fuel operation text P wire rest w r s)
    as (w1 & w2 & out & sch & Hout & Hput & Hget & Hx & Hsa); try done.
  exists w2, out, sch. split; [|split; [done | apply Hx]].
  run_cmd Hst Hput Hget.
  assert (Hfilter : filter (fun line => Str.startswith MSG_ERROR line = true)
                           (Str.split "010" text) = []).
  { induction Hlines as [|l ls Hl _ IH]; [done|].
    rewrite filter_cons, IH.
    change MSG_ERROR with "!". by rewrite Hl. }
  rewrite Hfilter. clear Hfilter Hlines.
  destruct text as [|c t]; [by destruct H0 as [|[|]]|].
  simpl in H0.
  destruct H0 as [[= ->]|[[= ->]|[= ->]]]; simpl.
  - destruct t as [|c2 t]; simpl; [done|].
    destruct (Ascii.eqb c2 "2"); simpl; [|done].
    by destruct t.
  - done.
  - done.
Qed.

(** X11.  When a reply that starts with [&2] has a line that starts with
    ['!'], [cmd] raises what [handle_error] gives for the first such line
    without its ['!']. *)
Theorem cmd_update_error
  (fuel : nat) (operation text line : string) (pre post : list string)
  (P wire rest : list byte) (w : World) (r : nat) (s : Socket.t) :
  state (self w) = STATE_READY ->
  truthy (is_raw_control (self w)) = false ->
  has_socket w r s -> Socket.closed s = false -> Socket.shut_wr s = false ->
  framed P wire -> Socket.inbound s = (wire ++ rest)%list ->
  P <> [] -> x03 ∉ P ->
  env_utf8_decode env P = Some text ->
  Str.startswith "&2" text = true ->
  Str.split "010" text = (pre ++ line :: post)%list ->
  Forall (fun l => Str.startswith "!" l = false) pre ->
  Str.startswith "!" line = true ->
  exists w',
    cmd env (S fuel) operation w
    = (match handle_error (Str.drop 1 line) with
       | Return km => Raise (Exn (fst km) (snd km))
       | Raise ex => Raise ex
       | Timeout => Timeout
       end, w').
Proof.
  intros Hst Hrc Hw Hc Hs Hfr Hin Hne Hno Hdec H2 Hsplit Hpre Hline.
  destruct (cmd_exchange fuel operation text P wire rest w r s)
    as (w1 & w2 & out & sch & Hout & Hput & Hget & Hx & Hsa); try done.
  exists w2. run_cmd Hst Hput Hget.
  assert (Hfilter : exists more,
             filter (fun l => Str.startswith MSG_ERROR l = true)
                    (Str.split "010" text) = line :: more).
  { rewrite Hsplit. clear Hsplit. change MSG_ERROR with "!".
    induction Hpre as [|l ls Hl _ IH].
    - rewrite app_nil_l, filter_cons, Hline.
      destruct (decide (true = true)); [eauto | done].
    - rewrite <- app_comm_cons, filter_cons, Hl.
      destruct (decide (false = true)); [done | exact IH]. }
  destruct Hfilter as [more Hfilter].
  rewrite Hfilter. clear Hfilter Hsplit.
  destruct text as [|c [|c2 t]]; cbn [Str.startswith] in H2;
    rewrite ?andb_false_r in H2; try done.
  apply andb_prop in H2 as [Ha Hb]. apply andb_prop in Hb as [Hb _].
  apply Ascii.eqb_eq in Ha, Hb. subst c c2.
  generalize (Str.drop 1 line). intros e.
  simpl. destruct t; simpl; unfold bind at 1;
    unfold raise_handled, bind, lift, raise;
    by destruct (handle_error e) as [[k m]| |].
Qed.

(** X12.  When the reply is the [MORE] prompt, [cmd] answers it with an
    empty command: the call is the call [cmd("")] made in the world the
    first exchange left.  In that world the command has been sent as one
    block and the prompt read, the [DEBUG] line of the command has been
    logged, and of the connection object every attribute but the stashed
    buffer is as it was. *)
Theorem cmd_more_reply
  (fuel : nat) (operation : string) (P wire rest : list byte)
  (w : World) (r : nat) (s : Socket.t) :
  state (self w) = STATE_READY ->
  truthy (is_raw_control (self w)) = false ->
  has_socket w r s -> Socket.closed s = false -> Socket.shut_wr s = false ->
  framed P wire -> Socket.inbound s = (wire ++ rest)%list ->
  P <> [] -> x03 ∉ P ->
  env_utf8_decode env P = Some MSG_MORE ->
  exists w2 out sch,
    cmd env (S (S fuel)) operation w = cmd env (S fuel) "" w2 /\
    framed (env_utf8_encode env operation) out /\
    exchanged (snd (logger DEBUG ("executing command " ++ operation) w)) w2 r
      (Socket.Make rest sch (Socket.outbound s ++ out) false false) /\
    sockets w2
    = <[r := Socket.Make rest sch (Socket.outbound s ++ out) false false]>
        (sockets w) /\
    logged w2
    = (logged w
       ++ [(DEBUG, ("executing command " ++ operation)%string)])%list /\
    fallback_calls w2 = fallback_calls w /\
    stash_apart (self w) (self w2).
Proof.
  intros Hst Hrc Hw Hc Hs Hfr Hin Hne Hno Hdec.
  destruct (cmd_exchange (S fuel) operation MSG_MORE P wire rest w r s)
    as (w1 & w2 & out & sch & Hout & Hput & Hget & Hx & Hsa); try done.
  exists w2, out, sch.
  split; [|split; [done|split; [done|split; [apply Hx|split;
    [apply Hx|split; [apply Hx|done]]]]]].
  remember (S fuel) as fuel' eqn:Hf.
  run_cmd Hst Hput Hget. reflexivity.
Qed.

End Exchange.

Ltac absent_byte :=
  let H := fresh in
  vm_compute; intros H;
  repeat (apply elem_of_cons in H as [H|H]; [discriminate|]);
  by apply elem_of_nil in H.

Ltac one_reply P :=
  first
    [ reflexivity
    | split; reflexivity
    | apply framed_last; vm_compute; reflexivity
    | discriminate
    | absent_byte ].

Lemma cmd_error_reply_witness :
  let P := bytes_of_string "!42S02!no such table" in
  let s := Socket.connected (minor_block true P) [] in
  let w := Scenario.ready_world (minor_block true P) in
  exists w' out sch,
    cmd (Scenario.env 0) 1 "sSELECT 1;" w
    = (Raise (Exn OperationalError "42S02!no such table"), w') /\
    framed (bytes_of_string "sSELECT 1;") out /\
    has_socket w' 0 (Socket.Make [] sch ([] ++ out) false false).
Proof.
  intros P s w.
  apply (cmd_error_reply (Scenario.env 0) 0 "sSELECT 1;" "42S02!no such table"
           P (minor_block true P) [] w 0 s); one_reply P.
Defined.

Lemma cmd_result_reply_witness :
  let P := bytes_of_string "&1 0 1 1 1" in
  let s := Socket.connected (minor_block true P) [] in
  let w := Scenario.ready_world (minor_block true P) in
  exists w' out sch,
    cmd (Scenario.env 0) 1 "sSELECT 1;" w
    = (Return (RStr "&1 0 1 1 1"), w') /\
    framed (bytes_of_string "sSELECT 1;") out /\
    has_socket w' 0 (Socket.Make [] sch ([] ++ out) false false).
Proof.
  intros P s w.
  apply (cmd_result_reply (Scenario.env 0) 0 "sSELECT 1;" "&1 0 1 1 1"
           P (minor_block true P) [] w 0 s); try one_reply P.
  - left. reflexivity.
  - repeat constructor.
Defined.

Lemma cmd_update_error_witness :
  let text := "&2 1 -1" ++ String "010" "!40002!constraint violated" in
  let P := bytes_of_string text in
  let w := Scenario.ready_world (minor_block true P) in
  exists w',
    cmd (Scenario.env 0) 1 "sINSERT;" w
    = (Raise (Exn IntegrityError "40002!constraint violated"), w').
Proof.
  intros text P w.
  apply (cmd_update_error (Scenario.env 0) 0 "sINSERT;" text
           "!40002!constraint violated" ["&2 1 -1"] []
           P (minor_block true P) [] w 0
           (Socket.connected (minor_block true P) [])); try one_reply P.
  repeat constructor.
Defined.

Lemma cmd_more_reply_witness :
  let P := bytes_of_string MSG_MORE in
  let s := Socket.connected (minor_block true P) [] in
  let w := Scenario.ready_world (minor_block true P) in
  exists w2 out sch,
    cmd (Scenario.env 0) 2 "sSELECT" w = cmd (Scenario.env 0) 1 "" w2 /\
    framed (bytes_of_string "sSELECT") out /\
    exchanged (snd (logger DEBUG ("executing command " ++ "sSELECT") w)) w2 0
      (Socket.Make [] sch ([] ++ out) false false) /\
    sockets w2
    = <[0%nat := Socket.Make [] sch ([] ++ out) false false]> (sockets w) /\
    logged w2
    = ([] ++ [(DEBUG, ("executing command " ++ "sSELECT")%string)])%list /\
    fallback_calls w2 = fallback_calls w /\
    stash_apart (self w) (self w2).
Proof.
  intros P s w.
  apply (cmd_more_reply (Scenario.env 0) 0 "sSELECT" P (minor_block true P)
           [] w 0 s); one_reply P.
Defined.

(** ** Binary commands *)

(** An error string that starts with ['!'] carries no recognised code. *)
Lemma handle_error_bang (e : string) :
  handle_error (String "!" e) = Return (OperationalError, String "!" e).
Proof.
  unfold handle_error. simpl. rewrite classify_kind_of. f_equal. f_equal.
  unfold kind_of. destruct e; simpl; [done|].
  by rewrite !andb_false_r.
Qed.

Lemma first_index_absent (c : byte) (l : list byte) (i : Z) :
  c ∉ l -> first_index c l i = -1.
Proof.
  revert i. induction l as [|x l IH]; intros i Hc; [done|].
  simpl. apply not_elem_of_cons in Hc as [Hx Hl].
  unfold byte_eqb. destruct (Byte.eqb x c) eqn:Heq.
  - apply Byte.byte_dec_bl in Heq. congruence.
  - by apply IH.
Qed.

Lemma first_index_found (c : byte) (l1 l2 : list byte) (i : Z) :
  c ∉ l1 -> first_index c (l1 ++ c :: l2) i = i + len l1.
Proof.
  revert i. induction l1 as [|x l IH]; intros i Hc; simpl.
  - unfold byte_eqb. rewrite (Byte.byte_dec_lb (eq_refl c)).
    unfold len. simpl. lia.
  - apply not_elem_of_cons in Hc as [Hx Hl].
    unfold byte_eqb. destruct (Byte.eqb x c) eqn:Heq.
    + apply Byte.byte_dec_bl in Heq. congruence.
    + rewrite IH by done. unfold len. simpl length. lia.
Qed.

(** The test [view[0:len(MSG_ERROR_B)] == MSG_ERROR_B]. *)
Lemma slice_error_marker (P : list byte) :
  slice P 0 (len MSG_ERROR_B) = MSG_ERROR_B <-> head P = Some x21.
Proof.
  change (len MSG_ERROR_B) with 1. change MSG_ERROR_B with [x21].
  pose proof (len_nonneg P).
  rewrite slice_nonneg by lia.
  change (Z.to_nat (1 - 0)) with 1%nat. change (Z.to_nat 0) with 0%nat.
  rewrite drop_0. destruct P as [|x P]; simpl; [done|].
  rewrite ?take_0. split; congruence.
Qed.

Section Binary.

Context (env : Env).

(** A binary command up to the test for an error reply. *)
Lemma binary_cmd_run
  (operation : string) (P wire rest : list byte)
  (w : World) (r : nat) (s : Socket.t) :
  state (self w) = STATE_READY ->
  truthy (is_raw_control (self w)) = false ->
  has_socket w r s -> Socket.closed s = false -> Socket.shut_wr s = false ->
  framed P wire -> Socket.inbound s = (wire ++ rest)%list ->
  exists w' out sch,
    framed (env_utf8_encode env operation) out /\
    exchanged
      (snd (logger DEBUG ("executing binary command " ++ operation) w)) w' r
      (Socket.Make rest sch (Socket.outbound s ++ out) false false) /\
    binary_cmd env operation w
    = (if bool_decide (slice P 0 (len MSG_ERROR_B) = MSG_ERROR_B) then
         msg <- decode env (if 0 <? bfind P x0a
                            then slice P 1 (bfind P x0a + 1) else P) ;;
         raise_handled msg
       else ret P) w'.
Proof.
  intros Hst Hrc Hw Hc Hs Hfr Hin.
  set (w0 := snd (logger DEBUG ("executing binary command " ++ operation) w)).
  assert (Hw0 : has_socket w0 r s) by (destruct Hw; by split).
  destruct (_putblock_raw_ok (env_utf8_encode env operation) w0 r s Hw0 Hc Hs)
    as (out & Hout & Hput).
  set (w1 := put_socket w0 r (having_sent s out)) in *.
  assert (Hput' : _putblock env operation w0 = (Return tt, w1)).
  { unfold _putblock, bind at 1, get at 1.
    change (is_raw_control (self w0)) with (is_raw_control (self w)).
    by rewrite Hrc. }
  assert (Hw1 : has_socket w1 r (having_sent s out))
    by (eapply has_socket_put, Hw0).
  destruct (_get_buffer_exchanged w1 w1 r _ (exchanged_refl w1 r _ Hw1))
    as (buf & w2 & Hbuf & Hx2).
  destruct Hx2 as (Hw2 & Hx2).
  destruct (_getblock_raw_ok P wire buf 0 rest w2 r (having_sent s out))
    as (sch & b' & Hget & Htake & Hlen); try done;
    [pose proof (len_nonneg buf); lia|].
  rewrite Z.add_0_l in *.
  assert (Hview : slice b' 0 (len P) = P).
  { pose proof (len_nonneg P).
    rewrite slice_nonneg by lia. rewrite drop_0, Z.sub_0_r, Htake.
    by change (take (Z.to_nat 0) buf) with (@nil byte). }
  destruct (_stash_buffer_exchanged b' w1
              (put_socket w2 r (drained (having_sent s out) rest sch)) r
              (drained (having_sent s out) rest sch))
    as (w3 & Hstash & Hx3).
  { apply exchanged_put with (s := having_sent s out). by split. }
  exists w3, out, sch. split; [done|]. split.
  - destruct Hx3 as (Hs3 & Hso & Hst3 & Ht & Hrc3 & Hrem & Hl & Hf).
    split; [exact Hs3|]. subst w1. simpl in *.
    split; [by rewrite Hso, list_insert_insert_eq|].
    repeat split; done.
  - unfold binary_cmd. unfold bind at 1. cbn [logger].
    unfold bind at 1, get at 1. cbn [self]. rewrite Hst.
    change (negb (STATE_READY =? STATE_READY)) with false. cbn iota.
    unfold bind at 1. subst w0. simpl in Hput'. rewrite Hput'.
    unfold bind at 1. rewrite Hbuf.
    unfold bind at 1. rewrite Hget.
    cbv beta iota zeta. rewrite Hview.
    unfold bind at 1. rewrite Hstash. reflexivity.
Qed.

(** X13.  When the reply to a binary command does not start with ['!'],
    [binary_cmd] returns the bytes of the reply, whatever they are: nothing
    is decoded and no byte is taken for a file transfer request.  The command
    has been sent, framed, and what follows the reply is left unread. *)
Theorem binary_cmd_reply
  (operation : string) (P wire rest : list byte)
  (w : World) (r : nat) (s : Socket.t) :
  state (self w) = STATE_READY ->
  truthy (is_raw_control (self w)) = false ->
  has_socket w r s -> Socket.closed s = false -> Socket.shut_wr s = false ->
  framed P wire -> Socket.inbound s = (wire ++ rest)%list ->
  head P <> Some x21 ->
  exists w' out sch,
    binary_cmd env operation w = (Return P, w') /\
    framed (env_utf8_encode env operation) out /\
    exchanged
      (snd (logger DEBUG ("executing binary command " ++ operation) w)) w' r
      (Socket.Make rest sch (Socket.outbound s ++ out) false false).
Proof.
  intros Hst Hrc Hw Hc Hs Hfr Hin Hhd.
  destruct (binary_cmd_run operation P wire rest w r s)
    as (w' & out & sch & Hout & Hx & Hrun); try done.
  exists w', out, sch. split; [|by split].
  rewrite Hrun. rewrite bool_decide_eq_false_2; [done|].
  by rewrite slice_error_marker.
Qed.

(** X14.  When the reply to a binary command starts with ['!'] and has a
    line feed, [binary_cmd] raises what [handle_error] gives for the text
    between the ['!'] and the first line feed, that line feed included. *)
Theorem binary_cmd_error_line
  (operation msg : string) (E more wire rest : list byte)
  (w : World) (r : nat) (s : Socket.t) :
  state (self w) = STATE_READY ->
  truthy (is_raw_control (self w)) = false ->
  has_socket w r s -> Socket.closed s = false -> Socket.shut_wr s = false ->
  framed (x21 :: E ++ x0a :: more) wire ->
  Socket.inbound s = (wire ++ rest)%list ->
  x0a ∉ E ->
  env_utf8_decode env (E ++ [x0a]) = Some msg ->
  exists w',
    binary_cmd env operation w
    = (match handle_error msg with
       | Return km => Raise (Exn (fst km) (snd km))
       | Raise ex => Raise ex
       | Timeout => Timeout
       end, w').
Proof.
  intros Hst Hrc Hw Hc Hs Hfr Hin Hno Hdec.
  destruct (binary_cmd_run operation _ wire rest w r s Hst Hrc Hw Hc Hs Hfr Hin)
    as (w' & out & sch & Hout & Hx & Hrun).
  exists w'. rewrite Hrun. clear Hrun.
  assert (Hidx : bfind (x21 :: E ++ x0a :: more) x0a = 1 + len E).
  { unfold bfind. cbn [first_index].
    change (byte_eqb x21 x0a) with false. cbn iota.
    by apply first_index_found. }
  pose proof (len_nonneg E) as HE.
  rewrite Hidx.
  assert (Hsl : slice (x21 :: E ++ x0a :: more) 1 (1 + len E + 1)
                = (E ++ [x0a])%list).
  { rewrite slice_nonneg; [|unfold len in *; simpl length; lia | lia].
    change (Z.to_nat 1) with 1%nat. cbn [drop].
    replace (Z.to_nat (1 + len E + 1 - 1)) with (length (E ++ [x0a]))
      by (rewrite length_app; unfold len; simpl; lia).
    change (x0a :: more) with ([x0a] ++ more)%list.
    rewrite app_assoc, drop_0. by rewrite take_app_length. }
  rewrite bool_decide_eq_true_2 by (by apply slice_error_marker).
  destruct (Z.ltb_spec 0 (1 + len E)); [|lia].
  rewrite Hsl. unfold decode, bind at 1. rewrite Hdec. unfold ret at 1.
  unfold raise_handled, bind, lift, raise.
  by destruct (handle_error msg) as [[k m]| |].
Qed.

(** X15.  When the reply to a binary command starts with ['!'] and has no
    line feed, the ['!'] stays in the message, so that no error code is
    recognised: whatever the code, [binary_cmd] raises [OperationalError]
    with the whole reply as its message. *)
Theorem binary_cmd_error_no_line
  (operation e : string) (E wire rest : list byte)
  (w : World) (r : nat) (s : Socket.t) :
  state (self w) = STATE_READY ->
  truthy (is_raw_control (self w)) = false ->
  has_socket w r s -> Socket.closed s = false -> Socket.shut_wr s = false ->
  framed (x21 :: E) wire ->
  Socket.inbound s = (wire ++ rest)%list ->
  x0a ∉ E ->
  env_utf8_decode env (x21 :: E) = Some (String "!" e) ->
  exists w',
    binary_cmd env operation w
    = (Raise (Exn OperationalError (String "!" e)), w').
Proof.
  intros Hst Hrc Hw Hc Hs Hfr Hin Hno Hdec.
  destruct (binary_cmd_run operation _ wire rest w r s Hst Hrc Hw Hc Hs Hfr Hin)
    as (w' & out & sch & Hout & Hx & Hrun).
  exists w'. rewrite Hrun. clear Hrun.
  assert (Hidx : bfind (x21 :: E) x0a = -1).
  { unfold bfind. cbn [first_index].
    change (byte_eqb x21 x0a) with false. cbn iota.
    by apply first_index_absent. }
  rewrite Hidx.
  rewrite bool_decide_eq_true_2 by (by apply slice_error_marker).
  change (0 <? -1) with false. cbn iota.
  unfold decode, bind at 1. rewrite Hdec. unfold ret at 1.
  unfold raise_handled, bind, lift, raise.
  by rewrite handle_error_bang.
Qed.

End Binary.

Lemma binary_cmd_reply_witness :
  let P := [x00; x03; x0a; xff] in
  let s := Socket.connected (minor_block true P ++ [x01])%list [] in
  let w := Scenario.ready_world (minor_block true P ++ [x01])%list in
  exists w' out sch,
    binary_cmd (Scenario.env 0) "Xexportbin 0 0 1" w = (Return P, w') /\
    framed (bytes_of_string "Xexportbin 0 0 1") out /\
    exchanged
      (snd (logger DEBUG ("executing binary command " ++ "Xexportbin 0 0 1") w))
      w' 0 (Socket.Make [x01] sch ([] ++ out) false false).
Proof.
  intros P s w.
  apply (binary_cmd_reply (Scenario.env 0) "Xexportbin 0 0 1" P
           (minor_block true P) [x01] w 0 s); one_reply P.
Defined.

Lemma binary_cmd_error_line_witness :
  let P := bytes_of_string ("!40002!duplicate key" ++ String "010" "more") in
  let w := Scenario.ready_world (minor_block true P) in
  exists w',
    binary_cmd (Scenario.env 0) "Xexportbin 0 0 1" w
    = (Raise (Exn IntegrityError ("40002!duplicate key" ++ String "010" "")),
       w').
Proof.
  intros P w.
  apply (binary_cmd_error_line (Scenario.env 0) "Xexportbin 0 0 1"
           ("40002!duplicate key" ++ String "010" "")
           (bytes_of_string "40002!duplicate key") (bytes_of_string "more")
           (minor_block true P) [] w 0
           (Socket.connected (minor_block true P) [])); one_reply P.
Defined.

Lemma binary_cmd_error_no_line_witness :
  let P := bytes_of_string "!40002!duplicate key" in
  let w := Scenario.ready_world (minor_block true P) in
  exists w',
    binary_cmd (Scenario.env 0) "Xexportbin 0 0 1" w
    = (Raise (Exn OperationalError "!40002!duplicate key"), w').
Proof.
  intros P w.
  apply (binary_cmd_error_no_line (Scenario.env 0) "Xexportbin 0 0 1"
           "40002!duplicate key" (bytes_of_string "40002!duplicate key")
           (minor_block true P) [] w 0
           (Socket.connected (minor_block true P) [])); one_reply P.
Defined.

(** ** File transfers *)

Lemma last_index_absent (c : byte) (l : list byte) (i acc : Z) :
  c ∉ l -> last_index c l i acc = acc.
Proof.
  revert i acc. induction l as [|x l IH]; intros i acc Hc; [done|].
  apply not_elem_of_cons in Hc as [Hx Hl]. simpl.
  rewrite IH by done. unfold byte_eqb.
  destruct (Byte.eqb x c) eqn:Heq; [|done].
  apply Byte.byte_dec_bl in Heq. congruence.
Qed.

Lemma last_index_found (c : byte) (l1 l2 : list byte) (i acc : Z) :
  c ∉ l2 -> last_index c (l1 ++ c :: l2) i acc = i + len l1.
Proof.
  revert i acc. induction l1 as [|x l IH]; intros i acc Hc; simpl.
  - rewrite last_index_absent by done.
    unfold byte_eqb. rewrite (Byte.byte_dec_lb (eq_refl c)).
    unfold len. simpl. lia.
  - rewrite IH by done. unfold len. simpl length. lia.
Qed.

(** A slice inside the part of the buffer that holds [P]. *)
Lemma slice_of_prefix (b P : list byte) (lo hi : Z) :
  take (length P) b = P -> 0 <= lo <= hi -> hi <= len P ->
  slice b lo hi = slice P lo hi.
Proof.
  intros Htake Hlo Hhi.
  assert (Hlen : len P <= len b).
  { apply (f_equal length) in Htake. rewrite length_take in Htake.
    unfold len. lia. }
  rewrite !slice_nonneg by lia.
  rewrite <- (take_drop (length P) b), Htake.
  rewrite drop_app_le by (unfold len in *; lia).
  apply take_app_le. rewrite length_drop. unfold len in *. lia.
Qed.

Lemma slice_middle (X Y T : list byte) :
  slice (X ++ Y ++ T) (len X) (len X + len Y) = Y.
Proof.
  pose proof (len_nonneg X). pose proof (len_nonneg Y).
  pose proof (len_nonneg T).
  rewrite slice_nonneg by (rewrite ?len_app; lia).
  unfold len. rewrite Nat2Z.id.
  rewrite drop_app_length.
  replace (Z.to_nat (Z.of_nat (length X) + Z.of_nat (length Y)
                     - Z.of_nat (length X))) with (length Y) by lia.
  by rewrite take_app_length.
Qed.

(** The newline [rfind] finds lies inside the range searched. *)
Lemma rfind_within (buffer : list byte) (c : byte) (lo hi : Z) :
  0 <= lo <= hi -> hi <= len buffer ->
  rfind buffer c lo hi = -1 \/ lo <= rfind buffer c lo hi < hi.
Proof.
  intros Hlo Hhi. unfold rfind.
  assert (Hb : slice_bound (len buffer) lo = lo).
  { unfold slice_bound. destruct (Z.ltb_spec lo 0); lia. }
  rewrite Hb.
  destruct (last_index_range c (slice buffer lo hi) lo (-1)) as [->|Hin];
    [by left|].
  right. rewrite len_slice in Hin by lia. lia.
Qed.

(** A block without the byte 3, stored from [o] on, holds no file transfer
    request. *)
Lemma no_filetrans_from (b P : list byte) (o i : Z) :
  take (length P) (drop (Z.to_nat o) b) = P -> x03 ∉ P -> 0 <= o ->
  o + 2 <= i -> i + 1 < o + len P ->
  slice b (i - 2) (i + 1) <> MSG_FILETRANS_B.
Proof.
  intros Htake Hno Ho Hi Hlt Heq.
  assert (Hlen : o + len P <= len b).
  { apply (f_equal length) in Htake.
    rewrite length_take, length_drop in Htake. unfold len in *. lia. }
  rewrite slice_nonneg in Heq by lia.
  apply (f_equal (fun l => l !! 1%nat)) in Heq.
  rewrite lookup_take_lt, lookup_drop in Heq by lia.
  change (MSG_FILETRANS_B !! 1%nat) with (Some x03) in Heq.
  apply Hno. rewrite <- Htake.
  apply list_elem_of_lookup. exists (Z.to_nat (i - 2) + 1 - Z.to_nat o)%nat.
  rewrite lookup_take_lt by (unfold len in *; lia).
  rewrite lookup_drop. rewrite <- Heq. f_equal. lia.
Qed.

Section Transfers.

Context (env : Env).

(** X16.  A reply whose last line is a file transfer request: [A], then the
    marker, then a command [C] without a line feed and one closing byte.
    [_getblock_and_transfer_files] gives the decoded command to the file
    transfer handler; when that returns and the next block [B] holds no
    request, what it returns is [A] followed by [B], decoded: marker and
    command are not part of the reply. *)
Theorem getblock_with_transfer
  (fuel : nat) (A C B : list byte) (z : byte) (c text : string)
  (wire1 rest1 wire2 rest2 : list byte)
  (w : World) (r : nat) (s : Socket.t) :
  truthy (is_raw_control (self w)) = false ->
  has_socket w r s -> Socket.closed s = false ->
  framed (A ++ MSG_FILETRANS_B ++ C ++ [z]) wire1 ->
  Socket.inbound s = (wire1 ++ rest1)%list ->
  x0a ∉ C -> env_utf8_decode env C = Some c ->
  (forall w1 sch,
      has_socket w1 r (drained s rest1 sch) ->
      exists w2 s2,
        env_handle_file_transfer env c w1 = (Return tt, w2) /\
        has_socket w2 r s2 /\ Socket.closed s2 = false /\
        Socket.inbound s2 = (wire2 ++ rest2)%list) ->
  framed B wire2 -> B <> [] -> x03 ∉ B ->
  env_utf8_decode env (A ++ B) = Some text ->
  exists w' s',
    _getblock_and_transfer_files env (S (S fuel)) w = (Return text, w') /\
    has_socket w' r s' /\ Socket.inbound s' = rest2.
Proof.
  intros Hrc Hw Hc Hfr1 Hin1 HnoC HdecC Hh Hfr2 HneB HnoB Hdec.
  set (blk := (A ++ MSG_FILETRANS_B ++ C ++ [z])%list) in *.
  pose proof (len_nonneg A) as HA. pose proof (len_nonneg C) as HC.
  pose proof (len_nonneg B) as HB.
  assert (Hblk : len blk = len A + 3 + len C + 1).
  { unfold blk. rewrite !len_app. change (len MSG_FILETRANS_B) with 3.
    change (len [z]) with 1. lia. }
  unfold _getblock_and_transfer_files, bind at 1, get at 1. rewrite Hrc.
  destruct (_get_buffer_exchanged w w r s (exchanged_refl w r s Hw))
    as (buf & w1 & Hbuf & Hw1 & _).
  unfold bind at 1. rewrite Hbuf.
  destruct (_getblock_raw_ok blk wire1 buf 0 rest1 w1 r s Hfr1 Hw1 Hc Hin1)
    as (sch & b1 & Hget1 & Htake1 & Hlen1); [pose proof (len_nonneg buf); lia|].
  rewrite Z.add_0_l in *.
  change (take (Z.to_nat 0) buf) with (@nil byte) in Htake1.
  rewrite app_nil_l in Htake1.
  assert (Htake1' : take (length blk) b1 = blk)
    by (unfold len in Htake1; by rewrite Nat2Z.id in Htake1).
  (* the first block ends in a request *)
  assert (Hi : rfind b1 x0a 0 (len blk - 1) = len A + 2).
  { unfold rfind.
    assert (Hb : slice_bound (len b1) 0 = 0)
      by (unfold slice_bound; simpl; pose proof (len_nonneg b1); lia).
    rewrite Hb, (slice_of_prefix b1 blk) by (done || lia).
    assert (Hsl : slice blk 0 (len blk - 1)
                  = ((A ++ [x01; x03]) ++ x0a :: C)%list).
    { rewrite slice_nonneg by lia. rewrite drop_0, Z.sub_0_r.
      replace (Z.to_nat (len blk - 1))
        with (length ((A ++ [x01; x03]) ++ x0a :: C))
        by (rewrite Hblk; unfold len; rewrite !length_app; simpl; lia).
      unfold blk.
      replace (A ++ MSG_FILETRANS_B ++ C ++ [z])%list
        with (((A ++ [x01; x03]) ++ x0a :: C) ++ [z])%list
        by (by rewrite <- !app_assoc).
      by rewrite take_app_length. }
    rewrite Hsl, last_index_found by done.
    rewrite len_app. change (len [x01; x03]) with 2. lia. }
  assert (Hmark : slice b1 (len A + 2 - 2) (len A + 2 + 1) = MSG_FILETRANS_B).
  { rewrite (slice_of_prefix b1 blk) by (done || lia).
    replace (len A + 2 - 2) with (len A) by lia.
    replace (len A + 2 + 1) with (len A + len MSG_FILETRANS_B)
      by (change (len MSG_FILETRANS_B) with 3; lia).
    apply slice_middle. }
  assert (Hcmd : slice b1 (len A + 2 + 1) (len blk - 1) = C).
  { rewrite (slice_of_prefix b1 blk) by (done || lia).
    unfold blk. rewrite app_assoc.
    replace (len A + 2 + 1) with (len (A ++ MSG_FILETRANS_B))
      by (rewrite len_app; change (len MSG_FILETRANS_B) with 3; lia).
    replace (len ((A ++ MSG_FILETRANS_B) ++ C ++ [z]) - 1)
      with (len (A ++ MSG_FILETRANS_B) + len C)
      by (rewrite !len_app; change (len [z]) with 1; lia).
    apply slice_middle. }
  cbn [_getblock_and_transfer_files_loop]. do 2 (unfold bind at 1).
  rewrite Hget1. cbv beta iota zeta.
  rewrite Hi, Hmark, Hcmd.
  rewrite bool_decide_eq_true_2 by done.
  destruct (Z.leb_spec (0 + 2) (len A + 2)); [|lia].
  cbn [andb]. cbv iota.
  unfold decode at 1, bind at 1. rewrite HdecC. unfold ret at 1.
  destruct (Hh (put_socket w1 r (drained s rest1 sch)) sch)
    as (w2 & s2 & Hrun & Hw2 & Hc2 & Hin2); [by eapply has_socket_put|].
  unfold bind at 1. rewrite Hrun.
  (* the second block is the rest of the reply *)
  replace (len A + 2 - 2) with (len A) by lia.
  destruct (_getblock_raw_ok B wire2 b1 (len A) rest2 w2 r s2 Hfr2 Hw2 Hc2 Hin2)
    as (sch2 & b2 & Hget2 & Htake2 & Hlen2); [lia|].
  assert (HtA : take (Z.to_nat (len A)) b1 = A).
  { unfold len. rewrite Nat2Z.id.
    rewrite <- (take_drop (length blk) b1), Htake1'.
    rewrite take_app_le by (unfold len in *; lia).
    unfold blk. by rewrite take_app_length. }
  rewrite HtA in Htake2.
  assert (HBpos : 0 < len B)
    by (destruct B; [done | unfold len; simpl; lia]).
  unfold bind at 1. rewrite Hget2. cbv beta iota zeta.
  assert (Hcond : (len A + 2 <=? rfind b2 x0a (len A) (len A + len B - 1))
                  && bool_decide
                       (slice b2 (rfind b2 x0a (len A) (len A + len B - 1) - 2)
                                 (rfind b2 x0a (len A) (len A + len B - 1) + 1)
                        = MSG_FILETRANS_B) = false).
  { destruct (rfind_within b2 x0a (len A) (len A + len B - 1)) as [->|Hr];
      [lia | lia | |].
    - destruct (Z.leb_spec (len A + 2) (-1)); [lia | done].
    - destruct (Z.leb_spec (len A + 2)
                  (rfind b2 x0a (len A) (len A + len B - 1))); [|done].
      rewrite bool_decide_eq_false_2; [done|].
      apply (no_filetrans_from b2 B (len A)); try done; try lia.
      rewrite take_drop_commute.
      replace (Z.to_nat (len A) + length B)%nat
        with (Z.to_nat (len A + len B)) by (unfold len; lia).
      rewrite Htake2. unfold len. by rewrite Nat2Z.id, drop_app_length. }
  rewrite Hcond. unfold ret at 1.
  set (w3 := put_socket w2 r (drained s2 rest2 sch2)).
  destruct (_stash_buffer_exchanged b2 w3 w3 r (drained s2 rest2 sch2))
    as (w4 & Hstash & Hw4 & _).
  { apply exchanged_refl. by eapply has_socket_put. }
  unfold bind. rewrite Hstash.
  rewrite slice_nonneg by lia. rewrite drop_0, Z.sub_0_r, Htake2.
  unfold decode. rewrite Hdec.
  by exists w4, (drained s2 rest2 sch2).
Qed.

End Transfers.

Lemma getblock_with_transfer_witness :
  let A := bytes_of_string "&1 0 1" in
  let C := bytes_of_string "r 0 data.csv" in
  let B := bytes_of_string "&2 3 -1" in
  let wire1 := minor_block true (A ++ MSG_FILETRANS_B ++ C ++ [x0a])%list in
  let wire2 := minor_block true B in
  let w := Scenario.ready_world (wire1 ++ wire2 ++ [])%list in
  exists w' s',
    _getblock_and_transfer_files (Scenario.env 0) 2 w
    = (Return "&1 0 1&2 3 -1", w') /\
    has_socket w' 0 s' /\ Socket.inbound s' = [].
Proof.
  intros A C B wire1 wire2 w.
  apply (getblock_with_transfer (Scenario.env 0) 0 A C B x0a "r 0 data.csv"
           "&1 0 1&2 3 -1" wire1 (wire2 ++ []) wire2 [] w 0
           (Socket.connected (wire1 ++ wire2 ++ [])%list []));
    try one_reply A.
  intros w1 sch Hw1.
  exists w1, (drained (Socket.connected (wire1 ++ wire2 ++ [])%list [])
                      (wire2 ++ []) sch).
  split; [reflexivity|]. split; [exact Hw1|]. split; reflexivity.
Defined.

(** ** Making the connection *)

Lemma last_nonempty {A} (x : A) (l : list A) (d d' : A) :
  List.last (x :: l) d = List.last (x :: l) d'.
Proof.
  revert x. induction l as [|y l IH]; intros x; [done|].
  change (List.last (y :: l) d = List.last (y :: l) d'). apply IH.
Qed.

Section Reaching.

Context (env : Env).

(** The socket a successful attempt leaves: a new object, which
    [self.socket] refers to. *)
Lemma adopt_socket (s : Socket.t) (tcp : bool) (w : World) :
  exists w',
    (r <- new_socket s ;; set_socket (Some r) ;; set_is_tcp (Some tcp)) w
    = (Return tt, w') /\
    has_socket w' (length (sockets w)) s /\
    sockets w' = (sockets w ++ [s])%list /\
    is_tcp (self w') = Some tcp /\
    target (self w') = target (self w).
Proof.
  eexists. split; [reflexivity|]. simpl.
  split; [|done]. split; [done|]. simpl.
  rewrite lookup_app_r by lia. by rewrite Nat.sub_diag.
Qed.

Lemma try_addrs_fail (msg : string * Z -> string)
  (addrs : list (string * Z)) (err : option exn) (w : World) :
  (forall a, a ∈ addrs -> env_tcp_connect env a = inl (msg a)) ->
  try_addrs env addrs err w
  = (Return (inl (match addrs with
                  | [] => err
                  | _ => Some (Exn OSError
                                 (List.last (msg <$> addrs) ""))
                  end)), w).
Proof.
  revert err. induction addrs as [|a addrs IH]; intros err Hall; [done|].
  cbn [try_addrs]. rewrite (Hall a) by (apply elem_of_cons; by left).
  rewrite IH by (intros b Hb; apply Hall; apply elem_of_cons; by right).
  destruct addrs; done.
Qed.

Lemma try_addrs_first (msg : string * Z -> string)
  (pre post : list (string * Z)) (a : string * Z) (s : Socket.t)
  (err : option exn) (w : World) :
  (forall b, b ∈ pre -> env_tcp_connect env b = inl (msg b)) ->
  env_tcp_connect env a = inr s ->
  exists w',
    try_addrs env (pre ++ a :: post) err w = (Return (inr tt), w') /\
    has_socket w' (length (sockets w)) s /\
    sockets w' = (sockets w ++ [s])%list /\
    is_tcp (self w') = Some true /\
    target (self w') = target (self w).
Proof.
  revert err. induction pre as [|b pre IH]; intros err Hall Ha.
  - cbn [app try_addrs]. rewrite Ha.
    destruct (adopt_socket s true w) as (w' & Hrun & H').
    exists w'. split; [|exact H'].
    unfold bind in *.
    destruct (new_socket s w) as [[r| |] w1]; try done.
    destruct (set_socket (Some r) w1) as [[[]| |] w2]; try done.
    destruct (set_is_tcp (Some true) w2) as [[[]| |] w3]; try done.
    by injection Hrun as ->.
  - cbn [app try_addrs]. rewrite (Hall b) by (apply elem_of_cons; by left).
    apply IH; [|done]. intros c Hc. apply Hall.
    apply elem_of_cons; by right.
Qed.

(** X17.  When the Unix socket refuses the connection and so does every
    address of the TCP host, [try_connect] raises the error of the last
    attempt made, not that of the first; no socket is kept. *)
Theorem try_connect_last_error
  (msg : string * Z -> string) (path host um : string)
  (addrs : list (string * Z)) (w : World) :
  let t := target (self w) in
  Target.effective_unix_sock t = Some path ->
  env_unix_connect env path = inl um ->
  Target.effective_tcp_host t = Some host ->
  env_getaddrinfo env host (Target.effective_port t) = inr addrs ->
  (forall a, a ∈ addrs -> env_tcp_connect env a = inl (msg a)) ->
  try_connect env w
  = (Raise (Exn OSError (List.last (msg <$> addrs) um)), w).
Proof.
  intros t Hu Huc Hh Hg Hall.
  unfold try_connect, bind at 1, get at 1. fold t. rewrite Hu, Huc.
  unfold try_connect_tcp, bind at 1, get at 1. fold t. rewrite Hh, Hg.
  unfold bind. rewrite (try_addrs_fail msg) by done.
  destruct addrs as [|a addrs]; [done|].
  unfold raise. cbn [exn_kind exn_msg]. do 3 f_equal.
  rewrite fmap_cons. apply last_nonempty.
Qed.

(** X18.  Without a Unix socket in the target, [try_connect] takes the
    first address of the TCP host that accepts the connection: the socket
    becomes a new socket object that [self.socket] refers to, and [is_tcp]
    is set. *)
Theorem try_connect_first_address
  (msg : string * Z -> string) (host : string)
  (pre post : list (string * Z)) (a : string * Z) (s : Socket.t) (w : World) :
  let t := target (self w) in
  Target.effective_unix_sock t = None ->
  Target.effective_tcp_host t = Some host ->
  env_getaddrinfo env host (Target.effective_port t)
  = inr (pre ++ a :: post)%list ->
  (forall b, b ∈ pre -> env_tcp_connect env b = inl (msg b)) ->
  env_tcp_connect env a = inr s ->
  exists w',
    try_connect env w = (Return tt, w') /\
    has_socket w' (length (sockets w)) s /\
    sockets w' = (sockets w ++ [s])%list /\
    is_tcp (self w') = Some true.
Proof.
  intros t Hu Hh Hg Hall Ha.
  destruct (try_addrs_first msg pre post a s None w Hall Ha)
    as (w' & Hrun & Hs & Hso & Htcp & _).
  exists w'. split; [|done].
  unfold try_connect, bind at 1, get at 1. fold t. rewrite Hu.
  unfold try_connect_tcp, bind at 1, get at 1. fold t. rewrite Hh, Hg.
  unfold bind. by rewrite Hrun.
Qed.

(** The socket [try_connect] leaves when it returns. *)
Lemma try_connect_adopts (w w' : World) :
  try_connect env w = (Return tt, w') ->
  exists s tcp,
    has_socket w' (length (sockets w)) s /\
    sockets w' = (sockets w ++ [s])%list /\
    is_tcp (self w') = Some tcp.
Proof.
  assert (Hadopt : forall s tcp w0 w1,
             (r <- new_socket s ;; set_socket (Some r) ;;
              set_is_tcp (Some tcp)) w0 = (Return tt, w1) ->
             has_socket w1 (length (sockets w0)) s /\
             sockets w1 = (sockets w0 ++ [s])%list /\
             is_tcp (self w1) = Some tcp).
  { intros s tcp w0 w1 Hrun.
    destruct (adopt_socket s tcp w0) as (w2 & Hrun2 & H1 & H2 & H3 & _).
    rewrite Hrun in Hrun2. by injection Hrun2 as ->. }
  assert (Haddrs : forall addrs err w1,
             try_addrs env addrs err w = (Return (inr tt), w1) ->
             exists s, has_socket w1 (length (sockets w)) s /\
                       sockets w1 = (sockets w ++ [s])%list /\
                       is_tcp (self w1) = Some true).
  { induction addrs as [|a addrs IH]; intros err w1 Hrun; [done|].
    cbn [try_addrs] in Hrun.
    destruct (env_tcp_connect env a) as [m|s]; [by eapply IH|].
    exists s. apply Hadopt.
    unfold bind in *.
    destruct (new_socket s w) as [[r| |] w2]; try done.
    destruct (set_socket (Some r) w2) as [[[]| |] w3]; try done.
    destruct (set_is_tcp (Some true) w3) as [[[]| |] w4]; try done.
    by injection Hrun as ->. }
  assert (Htcp : forall err,
             try_connect_tcp env err w = (Return tt, w') ->
             exists s tcp,
               has_socket w' (length (sockets w)) s /\
               sockets w' = (sockets w ++ [s])%list /\
               is_tcp (self w') = Some tcp).
  { intros err Hrun.
    unfold try_connect_tcp, bind at 1, get at 1 in Hrun.
    destruct (Target.effective_tcp_host (target (self w))) as [host|].
    - destruct (env_getaddrinfo env host _) as [m|addrs]; [done|].
      unfold bind in Hrun.
      destruct (try_addrs env addrs err w) as [[[e|[]]| |] w1] eqn:Ha;
        try done.
      + by destruct e.
      + injection Hrun as <-.
        destruct (Haddrs addrs err w1 Ha) as (s & H'). by exists s, true.
    - unfold bind, ret in Hrun. by destruct err. }
  intros Hrun. unfold try_connect, bind at 1, get at 1 in Hrun.
  destruct (Target.effective_unix_sock (target (self w))) as [path|];
    [|by eapply Htcp].
  destruct (env_unix_connect env path) as [m|s]; [by eapply Htcp|].
  exists s, false. by apply Hadopt.
Qed.

End Reaching.


Lemma try_connect_last_error_witness :
  let w := fresh_world (Network.the_target (Some "/tmp/nowhere")) None in
  try_connect (Network.env "") w
  = (Raise (Exn OSError "[Errno 111] Connection refused by 10.0.0.3"), w).
Proof.
  intros w.
  apply (try_connect_last_error (Network.env "") Network.refused
           "/tmp/nowhere" "db.example" "[Errno 2] No such file or directory"
           [("10.0.0.1", 50000); ("10.0.0.2", 50000); ("10.0.0.3", 50000)] w);
    try reflexivity.
  intros a Ha.
  repeat (apply elem_of_cons in Ha as [->|Ha]; [reflexivity|]).
  by apply elem_of_nil in Ha.
Defined.

Lemma try_connect_first_address_witness :
  let w := fresh_world (Network.the_target None) None in
  exists w',
    try_connect (Network.env "10.0.0.2") w = (Return tt, w') /\
    has_socket w' 0 (Socket.connected [] []) /\
    sockets w' = ([] ++ [Socket.connected [] []])%list /\
    is_tcp (self w') = Some true.
Proof.
  intros w.
  apply (try_connect_first_address (Network.env "10.0.0.2") Network.refused
           "db.example" [("10.0.0.1", 50000)] [("10.0.0.3", 50000)]
           ("10.0.0.2", 50000) (Socket.connected [] []) w);
    try reflexivity.
  intros a Ha.
  repeat (apply elem_of_cons in Ha as [->|Ha]; [reflexivity|]).
  by apply elem_of_nil in Ha.
Defined.


(** ** Logging in *)

Lemma untouched_refl w : untouched w w.
Proof. by repeat split. Qed.

Lemma untouched_trans w1 w2 w3 :
  untouched w1 w2 -> untouched w2 w3 -> untouched w1 w3.
Proof.
  unfold untouched. intros H1 H2.
  destruct H1 as (?&?&?&?&?&?&?&?&?&?), H2 as (?&?&?&?&?&?&?&?&?&?).
  repeat split; congruence.
Qed.

Lemma keeps_ret {A} (a : A) : keeps (ret a).
Proof. intros w. apply untouched_refl. Qed.

Lemma keeps_raise {A} cls msg : keeps (@raise A cls msg).
Proof. intros w. apply untouched_refl. Qed.

Lemma keeps_lift {A} (o : outcome A) : keeps (lift o).
Proof. intros w. apply untouched_refl. Qed.

Lemma keeps_get {A} (f : Connection -> A) : keeps (get f).
Proof. intros w. apply untouched_refl. Qed.

Lemma keeps_assert b : keeps (assert b).
Proof. destruct b; [apply keeps_ret | apply keeps_raise]. Qed.

Lemma keeps_bind {A B} (m : M A) (k : A -> M B) :
  keeps m -> (forall a, keeps (k a)) -> keeps (bind m k).
Proof.
  intros Hm Hk w. unfold bind. specialize (Hm w).
  destruct (m w) as [[a| |] w1]; simpl in *; try done.
  eapply untouched_trans; [exact Hm | apply Hk].
Qed.

Lemma keeps_set_server_endian v : keeps (set_server_endian v).
Proof. intros w. by repeat split. Qed.

Lemma keeps_set_binexport_level v : keeps (set_binexport_level v).
Proof. intros w. by repeat split. Qed.

Lemma keeps_set_remaining_handshake_options v :
  keeps (set_remaining_handshake_options v).
Proof. intros w. by repeat split. Qed.

Ltac keeps_step :=
  lazymatch goal with
  | |- keeps (bind _ _) => apply keeps_bind; [|intros ?]
  | |- keeps (ret _) => apply keeps_ret
  | |- keeps (raise _ _) => apply keeps_raise
  | |- keeps (lift _) => apply keeps_lift
  | |- keeps (get _) => apply keeps_get
  | |- keeps (assert _) => apply keeps_assert
  | |- keeps (set_server_endian _) => apply keeps_set_server_endian
  | |- keeps (set_binexport_level _) => apply keeps_set_binexport_level
  | |- keeps (set_remaining_handshake_options _) =>
      apply keeps_set_remaining_handshake_options
  | |- keeps (if ?b then _ else _) => destruct b
  | |- keeps (match ?x with _ => _ end) => destruct x
  | |- keeps (let '(_, _) := ?x in _) => destruct x
  end.

Section Login.

Context (env : Env).

Lemma _challenge_response_frame (challenge : string) :
  keeps (_challenge_response env challenge).
Proof. unfold _challenge_response. repeat keeps_step. Qed.

(** X19.  Computing the response to a challenge touches neither the
    sockets nor the log, and of the connection it changes nothing but
    [server_endian], [binexport_level] and [remaining_handshake_options],
    whether it returns a response or raises. *)
Theorem _challenge_response_keeps (challenge : string) (w : World) :
  untouched w (snd (_challenge_response env challenge w)).
Proof.
  revert w. change (keeps (_challenge_response env challenge)).
  unfold _challenge_response. repeat keeps_step.
Qed.

Lemma _get_buffer_callback w :
  handshake_options_callback (self (snd (_get_buffer w)))
  = handshake_options_callback (self w).
Proof.
  unfold _get_buffer, bind, get.
  by destruct (stashed_buffer (self w)) as [[|x l]|].
Qed.

Lemma _stash_buffer_callback buffer w :
  handshake_options_callback (self (snd (_stash_buffer buffer w)))
  = handshake_options_callback (self w).
Proof.
  unfold _stash_buffer, bind, get.
  destruct (stashed_buffer (self w)) as [old|]; [|done].
  by destruct (len old <? len buffer).
Qed.

(** One block, read as text. *)
Lemma _getblock_plain (P wire rest : list byte) (text : string)
  (w : World) (r : nat) (s : Socket.t) :
  truthy (is_raw_control (self w)) = false ->
  has_socket w r s -> Socket.closed s = false ->
  framed P wire -> Socket.inbound s = (wire ++ rest)%list ->
  env_utf8_decode env P = Some text ->
  exists w' sch,
    _getblock env w = (Return text, w') /\
    exchanged w w' r (drained s rest sch) /\
    handshake_options_callback (self w')
    = handshake_options_callback (self w).
Proof.
  intros Hrc Hw Hc Hfr Hin Hdec.
  unfold _getblock, bind at 1, get at 1. rewrite Hrc.
  pose proof (_get_buffer_callback w) as Hcb1.
  destruct (_get_buffer_exchanged w w r s (exchanged_refl w r s Hw))
    as (buf & w1 & Hbuf & Hx1).
  rewrite Hbuf in Hcb1. cbn [snd] in Hcb1.
  unfold bind at 1. rewrite Hbuf.
  destruct Hx1 as (Hw1 & Hx1).
  destruct (_getblock_raw_ok P wire buf 0 rest w1 r s Hfr Hw1 Hc Hin)
    as (sch & b' & Hget & Htake & Hlen); [pose proof (len_nonneg buf); lia|].
  rewrite Z.add_0_l in *.
  unfold bind at 1. rewrite Hget. cbv beta iota zeta.
  pose proof (len_nonneg P).
  rewrite slice_nonneg by lia. rewrite drop_0, Z.sub_0_r, Htake.
  change (take (Z.to_nat 0) buf) with (@nil byte). rewrite app_nil_l.
  unfold decode at 1. rewrite Hdec. unfold bind at 1, ret at 1.
  pose proof (_stash_buffer_callback b'
                (put_socket w1 r (drained s rest sch))) as Hcb2.
  destruct (_stash_buffer_exchanged b' w
              (put_socket w1 r (drained s rest sch)) r (drained s rest sch))
    as (w2 & Hstash & Hx2).
  { apply exchanged_put with (s := s). by split. }
  rewrite Hstash in Hcb2. cbn [snd] in Hcb2.
  unfold bind. rewrite Hstash. unfold ret.
  exists w2, sch. split; [done|]. split; [done|].
  rewrite Hcb2. exact Hcb1.
Qed.

(** The exchange of [_login]: challenge read, response sent, prompt read. *)
Lemma _login_exchange
  (challenge response prompt : string) (Pc wirec Pp wirep rest : list byte)
  (w : World) (r : nat) (s : Socket.t) :
  truthy (is_raw_control (self w)) = false ->
  has_socket w r s -> Socket.closed s = false -> Socket.shut_wr s = false ->
  framed Pc wirec -> framed Pp wirep ->
  Socket.inbound s = (wirec ++ wirep ++ rest)%list ->
  env_utf8_decode env Pc = Some challenge ->
  env_utf8_decode env Pp = Some prompt ->
  (forall w0,
      target (self w0) = target (self w) ->
      handshake_options_callback (self w0)
      = handshake_options_callback (self w) ->
      fst (_challenge_response env challenge w0) = Return response) ->
  exists w1 w2 w3 w4 out sch,
    _getblock env w = (Return challenge, w1) /\
    _challenge_response env challenge w1 = (Return response, w2) /\
    _putblock env response w2 = (Return tt, w3) /\
    _getblock env w3 = (Return prompt, w4) /\
    framed (env_utf8_encode env response) out /\
    has_socket w4 r
      (Socket.Make rest sch (Socket.outbound s ++ out) false false) /\
    sockets w4
    = <[r := Socket.Make rest sch (Socket.outbound s ++ out) false false]>
        (sockets w) /\
    logged w4 = logged w /\ target (self w4) = target (self w) /\
    state (self w4) = state (self w).
Proof.
  intros Hrc Hw Hc Hs Hfc Hfp Hin Hdc Hdp Hcr.
  destruct (_getblock_plain Pc wirec (wirep ++ rest) challenge w r s)
    as (w1 & sch1 & Hg1 & Hx1 & Hcb1); try done.
  destruct Hx1 as (Hw1 & Hso1 & Hst1 & Ht1 & Hrc1 & _ & Hl1 & _).
  pose proof (Hcr w1 Ht1 Hcb1) as Hresp.
  pose proof (_challenge_response_frame challenge w1) as Hk.
  destruct (_challenge_response env challenge w1) as [o w2] eqn:Hrun.
  cbn [fst snd] in *. subst o.
  destruct Hk as (Hso2 & Hl2 & _ & Hst2 & Ht2 & Hsk2 & _ & Hrc2 & _ & _).
  set (s1 := drained s (wirep ++ rest) sch1) in *.
  assert (Hw2 : has_socket w2 r s1).
  { destruct Hw1 as [Hr1 Hlook]. split; congruence. }
  assert (Hrc2' : truthy (is_raw_control (self w2)) = false) by congruence.
  destruct (_putblock_raw_ok (env_utf8_encode env response) w2 r s1 Hw2)
    as (out & Hout & Hput); try done.
  assert (Hput' : _putblock env response w2
                  = (Return tt, put_socket w2 r (having_sent s1 out))).
  { unfold _putblock, bind at 1, get at 1. by rewrite Hrc2'. }
  destruct (_getblock_plain Pp wirep rest prompt
              (put_socket w2 r (having_sent s1 out)) r (having_sent s1 out))
    as (w4 & sch & Hg2 & Hx4 & _); try done.
  { eapply has_socket_put, Hw2. }
  exists w1, w2, (put_socket w2 r (having_sent s1 out)), w4, out, sch.
  do 5 (split; [done|]).
  destruct Hx4 as (Hw4 & Hso4 & Hst4 & Ht4 & _ & _ & Hl4 & _).
  split; [exact Hw4|]. simpl in *.
  split; [by rewrite Hso4, Hso2, Hso1, !list_insert_insert_eq|].
  repeat split; congruence.
Qed.

Ltac run_login Hw Hg1 Hrun Hput Hg2 :=
  unfold _login; rewrite (assert_socket_run _ _ _ _ Hw);
  unfold bind at 1; rewrite Hg1;
  unfold bind at 1; rewrite Hrun;
  unfold bind at 1; rewrite Hput;
  unfold bind at 1; rewrite Hg2.

(** A login that the server accepts. *)
Lemma _login_ok
  (challenge response prompt : string) (Pc wirec Pp wirep rest : list byte)
  (w : World) (r : nat) (s : Socket.t) :
  truthy (is_raw_control (self w)) = false ->
  has_socket w r s -> Socket.closed s = false -> Socket.shut_wr s = false ->
  framed Pc wirec -> framed Pp wirep ->
  Socket.inbound s = (wirec ++ wirep ++ rest)%list ->
  env_utf8_decode env Pc = Some challenge ->
  env_utf8_decode env Pp = Some prompt ->
  (forall w0,
      target (self w0) = target (self w) ->
      handshake_options_callback (self w0)
      = handshake_options_callback (self w) ->
      fst (_challenge_response env challenge w0) = Return response) ->
  Str.strip prompt = "" \/ Str.strip prompt = MSG_OK
  \/ Str.startswith MSG_INFO (Str.strip prompt) = true ->
  exists w' out sch,
    _login env w = (Return true, w') /\
    framed (env_utf8_encode env response) out /\
    has_socket w' r
      (Socket.Make rest sch (Socket.outbound s ++ out) false false) /\
    sockets w'
    = <[r := Socket.Make rest sch (Socket.outbound s ++ out) false false]>
        (sockets w) /\
    target (self w') = target (self w) /\ state (self w') = state (self w).
Proof.
  intros Hrc Hw Hc Hs Hfc Hfp Hin Hdc Hdp Hcr Hp.
  destruct (_login_exchange challenge response prompt Pc wirec Pp wirep rest
              w r s)
    as (w1 & w2 & w3 & w4 & out & sch & Hg1 & Hrun & Hput & Hg2 & Hout
        & Hw4 & Hso4 & _ & Ht4 & Hst4); try done.
  run_login Hw Hg1 Hrun Hput Hg2.
  destruct Hp as [->|[->|Hp]].
  - by exists w4, out, sch.
  - by exists w4, out, sch.
  - destruct (Str.strip prompt) as [|c p]; [done|].
    cbn [Str.startswith MSG_INFO] in Hp.
    apply andb_prop in Hp as [Hc' _]. apply Ascii.eqb_eq in Hc'. subst c.
    eexists _, out, sch. split; [reflexivity|]. split; [done|].
    destruct Hw4. by repeat split.
Qed.

(** X20.  When the prompt that follows the response is empty, [=OK] or
    starts with ['#'] once stripped of white space, [_login] returns
    [True]; the response has been sent as one block and the socket is
    open. *)
Theorem login_accepted
  (challenge response prompt : string) (Pc wirec Pp wirep rest : list byte)
  (w : World) (r : nat) (s : Socket.t) :
  truthy (is_raw_control (self w)) = false ->
  has_socket w r s -> Socket.closed s = false -> Socket.shut_wr s = false ->
  framed Pc wirec -> framed Pp wirep ->
  Socket.inbound s = (wirec ++ wirep ++ rest)%list ->
  env_utf8_decode env Pc = Some challenge ->
  env_utf8_decode env Pp = Some prompt ->
  (forall w0,
      target (self w0) = target (self w) ->
      handshake_options_callback (self w0)
      = handshake_options_callback (self w) ->
      fst (_challenge_response env challenge w0) = Return response) ->
  Str.strip prompt = "" \/ Str.strip prompt = MSG_OK
  \/ Str.startswith MSG_INFO (Str.strip prompt) = true ->
  exists w' out sch,
    _login env w = (Return true, w') /\
    framed (env_utf8_encode env response) out /\
    has_socket w' r
      (Socket.Make rest sch (Socket.outbound s ++ out) false false).
Proof.
  intros Hrc Hw Hc Hs Hfc Hfp Hin Hdc Hdp Hcr Hp.
  destruct (_login_ok challenge response prompt Pc wirec Pp wirep rest w r s)
    as (w' & out & sch & Hrun & Hout & Hw' & _); try done.
  by exists w', out, sch.
Qed.

(** X21.  When the stripped prompt starts with ['!'], [_login] logs the
    rest of it as an error and raises [DatabaseError] with it; the socket
    is neither closed nor forgotten. *)
Theorem login_refused
  (challenge response prompt e : string)
  (Pc wirec Pp wirep rest : list byte)
  (w : World) (r : nat) (s : Socket.t) :
  truthy (is_raw_control (self w)) = false ->
  has_socket w r s -> Socket.closed s = false -> Socket.shut_wr s = false ->
  framed Pc wirec -> framed Pp wirep ->
  Socket.inbound s = (wirec ++ wirep ++ rest)%list ->
  env_utf8_decode env Pc = Some challenge ->
  env_utf8_decode env Pp = Some prompt ->
  (forall w0,
      target (self w0) = target (self w) ->
      handshake_options_callback (self w0)
      = handshake_options_callback (self w) ->
      fst (_challenge_response env challenge w0) = Return response) ->
  Str.strip prompt = String "!" e ->
  exists w' out sch,
    _login env w = (Raise (Exn DatabaseError e), w') /\
    logged w' = (logged w ++ [(ERROR, e)])%list /\
    has_socket w' r
      (Socket.Make rest sch (Socket.outbound s ++ out) false false).
Proof.
  intros Hrc Hw Hc Hs Hfc Hfp Hin Hdc Hdp Hcr Hp.
  destruct (_login_exchange challenge response prompt Pc wirec Pp wirep rest
              w r s)
    as (w1 & w2 & w3 & w4 & out & sch & Hg1 & Hrun & Hput & Hg2 & Hout
        & Hw4 & _ & Hl4 & _); try done.
  run_login Hw Hg1 Hrun Hput Hg2. rewrite Hp.
  eexists _, out, sch. split; [reflexivity|]. simpl.
  split; [by rewrite Hl4|]. destruct Hw4. by split.
Qed.

(** X22.  When the stripped prompt starts with ['^'], what follows it on
    its first line is the redirect.  For a [mapi:merovingian:] redirect
    that the target accepts, [_login] returns [False] with the new target
    in place and the socket still open, so that the next round logs in
    again on the same connection. *)
Theorem login_redirect_merovingian
  (challenge response prompt : string) (t' : Target.t)
  (Pc wirec Pp wirep rest : list byte)
  (w : World) (r : nat) (s : Socket.t) :
  truthy (is_raw_control (self w)) = false ->
  has_socket w r s -> Socket.closed s = false -> Socket.shut_wr s = false ->
  framed Pc wirec -> framed Pp wirep ->
  Socket.inbound s = (wirec ++ wirep ++ rest)%list ->
  env_utf8_decode env Pc = Some challenge ->
  env_utf8_decode env Pp = Some prompt ->
  (forall w0,
      target (self w0) = target (self w) ->
      handshake_options_callback (self w0)
      = handshake_options_callback (self w) ->
      fst (_challenge_response env challenge w0) = Return response) ->
  let redirect := Str.drop 1 (hd "" (Str.split "010" (Str.strip prompt))) in
  Str.startswith MSG_REDIRECT (Str.strip prompt) = true ->
  Str.startswith "mapi:merovingian:" redirect = true ->
  env_target_parse_mapi_merovingian_url env (target (self w)) redirect
  = inr t' ->
  exists w' out sch,
    _login env w = (Return false, w') /\
    target (self w') = t' /\
    has_socket w' r
      (Socket.Make rest sch (Socket.outbound s ++ out) false false).
Proof.
  intros Hrc Hw Hc Hs Hfc Hfp Hin Hdc Hdp Hcr redirect Hp Hm Hparse.
  destruct (_login_exchange challenge response prompt Pc wirec Pp wirep rest
              w r s)
    as (w1 & w2 & w3 & w4 & out & sch & Hg1 & Hrun & Hput & Hg2 & Hout
        & Hw4 & _ & Hl4 & Ht4 & _); try done.
  run_login Hw Hg1 Hrun Hput Hg2. fold redirect.
  generalize dependent redirect. intros redirect Hm Hparse.
  destruct (Str.strip prompt) as [|c p]; [done|].
  cbn [Str.startswith MSG_REDIRECT] in Hp.
  apply andb_prop in Hp as [Hc' _]. apply Ascii.eqb_eq in Hc'. subst c.
  cbn -[Str.split _handle_redirect bind].
  unfold bind at 1, _handle_redirect, bind at 1, get at 1.
  rewrite Hm. unfold bind at 1. cbn [logger]. cbn [self]. rewrite Ht4, Hparse.
  eexists _, out, sch. split; [reflexivity|]. simpl.
  split; [done|]. destruct Hw4. by split.
Qed.

Lemma _handle_redirect_elsewhere (redirect : string) (t' : Target.t)
  (w : World) (r : nat) (s : Socket.t) :
  has_socket w r s ->
  Str.startswith "mapi:merovingian:" redirect = false ->
  env_target_parse_url env (target (self w)) redirect = inr t' ->
  exists w',
    _handle_redirect env redirect w = (Return tt, w') /\
    target (self w') = t' /\ socket (self w') = None /\
    sockets w' !! r
    = Some (Socket.Make (Socket.inbound s) (Socket.sched s)
              (Socket.outbound s) true (Socket.shut_wr s)).
Proof.
  intros [Hr Hlook] Hm Hparse.
  unfold _handle_redirect, on_self_socket, on_socket, set_target, set_socket,
    update, logger, bind, get, ret, raise.
  rewrite Hm. cbn [self sockets socket]. rewrite Hparse.
  cbn [self sockets socket]. rewrite Hr. cbn [self sockets socket].
  rewrite Hlook. cbn [Socket.close].
  eexists. split; [reflexivity|]. simpl.
  split; [done|]. split; [done|].
  apply list_lookup_insert_eq. by eapply lookup_lt_Some.
Qed.

(** X23.  For any other redirect that the target accepts, [_login] returns
    [False] with the new target in place, the socket closed and
    [self.socket] reset, so that the next round makes a new connection. *)
Theorem login_redirect_elsewhere
  (challenge response prompt : string) (t' : Target.t)
  (Pc wirec Pp wirep rest : list byte)
  (w : World) (r : nat) (s : Socket.t) :
  truthy (is_raw_control (self w)) = false ->
  has_socket w r s -> Socket.closed s = false -> Socket.shut_wr s = false ->
  framed Pc wirec -> framed Pp wirep ->
  Socket.inbound s = (wirec ++ wirep ++ rest)%list ->
  env_utf8_decode env Pc = Some challenge ->
  env_utf8_decode env Pp = Some prompt ->
  (forall w0,
      target (self w0) = target (self w) ->
      handshake_options_callback (self w0)
      = handshake_options_callback (self w) ->
      fst (_challenge_response env challenge w0) = Return response) ->
  let redirect := Str.drop 1 (hd "" (Str.split "010" (Str.strip prompt))) in
  Str.startswith MSG_REDIRECT (Str.strip prompt) = true ->
  Str.startswith "mapi:merovingian:" redirect = false ->
  env_target_parse_url env (target (self w)) redirect = inr t' ->
  exists w' out sch,
    _login env w = (Return false, w') /\
    target (self w') = t' /\
    socket (self w') = None /\
    sockets w' !! r
    = Some (Socket.Make rest sch (Socket.outbound s ++ out) true false).
Proof.
  intros Hrc Hw Hc Hs Hfc Hfp Hin Hdc Hdp Hcr redirect Hp Hm Hparse.
  destruct (_login_exchange challenge response prompt Pc wirec Pp wirep rest
              w r s)
    as (w1 & w2 & w3 & w4 & out & sch & Hg1 & Hrun & Hput & Hg2 & Hout
        & Hw4 & _ & Hl4 & Ht4 & _); try done.
  run_login Hw Hg1 Hrun Hput Hg2. fold redirect.
  generalize dependent redirect. intros redirect Hm Hparse.
  destruct (Str.strip prompt) as [|c p]; [done|].
  cbn [Str.startswith MSG_REDIRECT] in Hp.
  apply andb_prop in Hp as [Hc' _]. apply Ascii.eqb_eq in Hc'. subst c.
  cbn -[Str.split _handle_redirect bind].
  destruct (_handle_redirect_elsewhere redirect t' w4 r _ Hw4)
    as (w5 & Hred & Ht5 & Hs5 & Hlook5); [done | by rewrite Ht4 |].
  unfold bind at 1. rewrite Hred.
  by exists w5, out, sch.
Qed.

End Login.


Lemma scenario_response_run (w0 : World) :
  target (self w0) = Scenario.the_target ->
  handshake_options_callback (self w0) = None ->
  fst (_challenge_response (Scenario.env 0) Scenario.challenge w0)
  = Return scenario_response.
Proof.
  destruct w0 as [[st tg so tcp rc cb rem sb se bl] socks lg fc].
  simpl. intros -> ->. vm_compute. reflexivity.
Qed.

Ltac login_setup :=
  first
    [ reflexivity
    | split; reflexivity
    | apply framed_last; vm_compute; reflexivity
    | exact scenario_response_run ].

Lemma login_accepted_witness :
  let prompt := "=OK" ++ String "010" "" in
  exists w' out sch,
    _login (Scenario.env 0) (login_world prompt) = (Return true, w') /\
    framed (bytes_of_string scenario_response) out /\
    has_socket w' 0 (Socket.Make [] sch ([] ++ out) false false).
Proof.
  intros prompt.
  apply (login_accepted (Scenario.env 0) Scenario.challenge scenario_response
           prompt (bytes_of_string Scenario.challenge)
           (Scenario.block Scenario.challenge)
           (bytes_of_string prompt) (Scenario.block prompt) []
           (login_world prompt) 0
           (Socket.connected (Scenario.block Scenario.challenge
                              ++ Scenario.block prompt ++ [])%list []));
    try login_setup.
  right. left. reflexivity.
Defined.

Lemma login_refused_witness :
  let prompt := "!InvalidCredentialsException:checkCredentials" in
  exists w' out sch,
    _login (Scenario.env 0) (login_world prompt)
    = (Raise (Exn DatabaseError
                "InvalidCredentialsException:checkCredentials"), w') /\
    logged w'
    = ([] ++ [(ERROR, "InvalidCredentialsException:checkCredentials")])%list /\
    has_socket w' 0 (Socket.Make [] sch ([] ++ out) false false).
Proof.
  intros prompt.
  apply (login_refused (Scenario.env 0) Scenario.challenge scenario_response
           prompt "InvalidCredentialsException:checkCredentials"
           (bytes_of_string Scenario.challenge)
           (Scenario.block Scenario.challenge)
           (bytes_of_string prompt) (Scenario.block prompt) []
           (login_world prompt) 0
           (Socket.connected (Scenario.block Scenario.challenge
                              ++ Scenario.block prompt ++ [])%list []));
    login_setup.
Defined.

Lemma login_redirect_merovingian_witness :
  let prompt := "^mapi:merovingian://proxy?database=demo"
                ++ String "010" "^mapi:monetdb://other:50000/demo"
                ++ String "010" "" in
  exists w' out sch,
    _login (Scenario.env 0) (login_world prompt) = (Return false, w') /\
    target (self w') = Scenario.the_target /\
    has_socket w' 0 (Socket.Make [] sch ([] ++ out) false false).
Proof.
  intros prompt.
  apply (login_redirect_merovingian (Scenario.env 0) Scenario.challenge
           scenario_response prompt Scenario.the_target
           (bytes_of_string Scenario.challenge)
           (Scenario.block Scenario.challenge)
           (bytes_of_string prompt) (Scenario.block prompt) []
           (login_world prompt) 0
           (Socket.connected (Scenario.block Scenario.challenge
                              ++ Scenario.block prompt ++ [])%list []));
    login_setup.
Defined.

Lemma login_redirect_elsewhere_witness :
  let prompt := "^mapi:monetdb:///s1" ++ String "010" "" in
  exists w' out sch,
    _login (Scenario.env 0) (login_world prompt) = (Return false, w') /\
    target (self w') = Scenario.with_unix_sock Scenario.the_target "s1" /\
    socket (self w') = None /\
    sockets w' !! 0%nat = Some (Socket.Make [] sch ([] ++ out) true false).
Proof.
  intros prompt.
  apply (login_redirect_elsewhere (Scenario.env 0) Scenario.challenge
           scenario_response prompt
           (Scenario.with_unix_sock Scenario.the_target "s1")
           (bytes_of_string Scenario.challenge)
           (Scenario.block Scenario.challenge)
           (bytes_of_string prompt) (Scenario.block prompt) []
           (login_world prompt) 0
           (Socket.connected (Scenario.block Scenario.challenge
                              ++ Scenario.block prompt ++ [])%list []));
    login_setup.
Defined.


(** ** Connecting *)

Lemma bind_get {A B} (f : Connection -> A) (k : A -> M B) w :
  bind (get f) k w = k (f (self w)) w.
Proof. reflexivity. Qed.

Lemma bind_ret {A B} (a : A) (k : A -> M B) w : bind (ret a) k w = k a w.
Proof. reflexivity. Qed.

Lemma bind_assoc {A B C} (m : M A) (k : A -> M B) (k' : B -> M C) w :
  bind (bind m k) k' w = bind m (fun a => bind (k a) k') w.
Proof. unfold bind. by destruct (m w) as [[a| |] w1]. Qed.

Section Connected.

Context (env : Env).

(** What the first part of [connect] leaves when it returns. *)
Lemma connect_prelude_returns database callback w wp :
  connect_prelude env database callback w = (Return tt, wp) ->
  socket (self wp) = None /\ target (self wp) = database /\
  sockets wp = sockets w /\
  handshake_options_callback (self wp)
  = match callback with
    | Some _ => callback
    | None => handshake_options_callback (self w)
    end.
Proof.
  unfold connect_prelude, set_handshake_options_callback, set_target,
    set_socket, update, assert, bind, get, ret, raise.
  destruct callback as [cb|]; cbn [self sockets socket target];
    destruct (env_target_validate env database); try done;
    cbn [self sockets socket target];
    destruct (socket (self w)) as [r|]; cbn [self sockets socket target].
  1,3: destruct (match the_socket _ with Some sock => Socket.closed sock
                 | None => false end); [|done].
  all: by intros [= <-].
Qed.

(** The first round of the loop, up to the login. *)
Lemma connect_round_wires (tcp : bool) wp w2 r s :
  socket (self wp) = None ->
  try_connect env wp = (Return tt, w2) ->
  has_socket w2 r s -> Socket.closed s = false -> Socket.shut_wr s = false ->
  is_tcp (self w2) = Some tcp ->
  (tcp = true -> Target.effective_use_tls (target (self w2)) = false) ->
  (tcp = false -> Target.effective_language (target (self w2)) <> "control") ->
  connect_round env wp
  = _login env (put_socket (wired false w2) r (having_sent s (greeting tcp))).
Proof.
  intros Hnone Htry [Hr Hlook] Hc Hs Htcp Htls Hlang.
  assert (Hw3 : has_socket (wired false w2) r s) by (by split).
  assert (Hsend : forall data,
             sendall data (wired false w2)
             = (Return tt, put_socket (wired false w2) r (having_sent s data))).
  { intros data. unfold sendall, bind.
    rewrite (on_self_socket_run _ _ r s Hw3), send_open by done. done. }
  unfold connect_round.
  rewrite bind_get, Hnone.
  rewrite bind_assoc, (bind_run _ _ _ _ _ Htry).
  rewrite bind_assoc, bind_get, Hr.
  rewrite bool_decide_eq_true_2 by eauto. unfold assert.
  rewrite bind_assoc, bind_ret.
  rewrite bind_assoc, (bind_run _ _ _ tt (wired false w2)) by reflexivity.
  rewrite bind_assoc, bind_get. rewrite bind_assoc, bind_get.
  change (target (self (wired false w2))) with (target (self w2)).
  change (is_tcp (self (wired false w2))) with (is_tcp (self w2)).
  rewrite Htcp.
  destruct tcp; cbn [truthy greeting].
  - unfold prime_or_wrap_connection. rewrite bind_assoc, bind_get.
    change (target (self (wired false w2))) with (target (self w2)).
    rewrite Htls by done. cbn [negb].
    rewrite (bind_run _ _ _ _ _ (Hsend _)). by rewrite bind_get.
  - destruct (String.eqb_spec
                (Target.effective_language (target (self w2))) "control")
      as [Heq|_]; [by destruct Hlang|].
    rewrite (bind_run _ _ _ _ _ (Hsend _)). by rewrite bind_get.
Qed.

(** X24.  A first connection that the server accepts.  Once the socket is
    there, [connect] sends its greeting, eight NUL bytes over TCP and ['0']
    over a Unix domain socket, then the response to the challenge as one
    block; when the prompt that follows is empty, [=OK] or starts with
    ['#'], the loop ends after this one round, and what is left to do is to
    set the state to [READY] and call the fallbacks. *)
Theorem connect_logs_in
  (database : Target.t) (callback : option (Z -> list HandshakeOption.t))
  (tcp : bool) (challenge response prompt : string)
  (Pc wirec Pp wirep rest : list byte)
  (w wp w2 : World) (r : nat) (s : Socket.t) :
  connect_prelude env database callback w = (Return tt, wp) ->
  try_connect env wp = (Return tt, w2) ->
  has_socket w2 r s -> Socket.closed s = false -> Socket.shut_wr s = false ->
  is_tcp (self w2) = Some tcp -> target (self w2) = database ->
  (tcp = true -> Target.effective_use_tls database = false) ->
  (tcp = false -> Target.effective_language database <> "control") ->
  framed Pc wirec -> framed Pp wirep ->
  Socket.inbound s = (wirec ++ wirep ++ rest)%list ->
  env_utf8_decode env Pc = Some challenge ->
  env_utf8_decode env Pp = Some prompt ->
  (forall w0,
      target (self w0) = database ->
      handshake_options_callback (self w0)
      = handshake_options_callback (self w2) ->
      fst (_challenge_response env challenge w0) = Return response) ->
  Str.strip prompt = "" \/ Str.strip prompt = MSG_OK
  \/ Str.startswith MSG_INFO (Str.strip prompt) = true ->
  exists w' out sch,
    connect env database callback w = connect_finish env w' /\
    framed (env_utf8_encode env response) out /\
    has_socket w' r
      (Socket.Make rest sch
         (Socket.outbound s ++ greeting tcp ++ out) false false) /\
    target (self w') = database.
Proof.
  intros Hpre Htry Hw2 Hc Hs Htcp Ht Htls Hlang Hfc Hfp Hin Hdc Hdp Hcr Hp.
  destruct (connect_prelude_returns _ _ _ _ Hpre) as (Hnone & _).
  pose proof (connect_round_wires tcp wp w2 r s Hnone Htry Hw2 Hc Hs Htcp)
    as Hround.
  rewrite Ht in Hround. specialize (Hround Htls Hlang).
  set (w4 := put_socket (wired false w2) r (having_sent s (greeting tcp)))
    in *.
  destruct (_login_ok env challenge response prompt Pc wirec Pp wirep rest
              w4 r (having_sent s (greeting tcp)))
    as (w' & out & sch & Hlogin & Hout & Hw' & _ & Ht' & _); try done.
  { eapply has_socket_put. destruct Hw2. by split. }
  { intros w0 Ht0 Hcb0. apply Hcr; [by rewrite Ht0 | exact Hcb0]. }
  exists w', out, sch. split; [|split; [done|split]].
  - unfold connect. rewrite (bind_run _ _ _ _ _ Hpre).
    rewrite (bind_run _ _ _ tt w'); [done|].
    apply connect_loop_done. by rewrite Hround.
  - cbn [having_sent Socket.outbound] in Hw'. by rewrite <- app_assoc in Hw'.
  - by rewrite Ht'.
Qed.

(** X25.  With the language [control] on a Unix domain socket there is no
    login: [connect] marks the connection as a raw control connection and
    goes on to set the state to [READY], having sent and read nothing. *)
Theorem connect_control
  (database : Target.t) (callback : option (Z -> list HandshakeOption.t))
  (w wp w2 : World) :
  connect_prelude env database callback w = (Return tt, wp) ->
  try_connect env wp = (Return tt, w2) ->
  is_tcp (self w2) = Some false -> target (self w2) = database ->
  Target.effective_language database = "control" ->
  connect env database callback w = connect_finish env (wired true w2) /\
  sockets (wired true w2) = sockets w2 /\
  is_raw_control (self (wired true w2)) = Some true.
Proof.
  intros Hpre Htry Htcp Ht Hlang. split; [|done].
  destruct (connect_prelude_returns _ _ _ _ Hpre) as (Hnone & _).
  destruct (try_connect_adopts env wp w2 Htry) as (s & b & Hw2 & _).
  destruct Hw2 as [Hr Hlook].
  unfold connect. rewrite (bind_run _ _ _ _ _ Hpre).
  rewrite (bind_run _ _ _ tt (wired true w2)); [done|].
  apply connect_loop_done.
  unfold connect_round.
  rewrite bind_get, Hnone.
  rewrite bind_assoc, (bind_run _ _ _ _ _ Htry).
  rewrite bind_assoc, bind_get, Hr.
  rewrite bool_decide_eq_true_2 by eauto. unfold assert.
  rewrite bind_assoc, bind_ret.
  rewrite bind_assoc, (bind_run _ _ _ tt (wired false w2)) by reflexivity.
  rewrite bind_assoc, bind_get. rewrite bind_assoc, bind_get.
  change (target (self (wired false w2))) with (target (self w2)).
  change (is_tcp (self (wired false w2))) with (is_tcp (self w2)).
  rewrite Htcp, Ht, Hlang. cbn [truthy]. simpl String.eqb. cbv iota.
  reflexivity.
Qed.

(** X26.  [connect] does not run over a socket that is still open.  On a
    connection whose socket has not been closed it raises [DatabaseError]
    with the message of the validation when the target is invalid, and
    [AssertionError] otherwise; the socket stays as it is, open and in
    place. *)
Theorem connect_refuses
  (database : Target.t) (callback : option (Z -> list HandshakeOption.t))
  (w : World) (r : nat) (s : Socket.t) :
  has_socket w r s -> Socket.closed s = false ->
  fst (connect env database callback w)
  = Raise (match env_target_validate env database with
           | Some msg => Exn DatabaseError msg
           | None => Exn AssertionError ""
           end) /\
  has_socket (snd (connect env database callback w)) r s.
Proof.
  intros [Hr Hlook] Hc.
  unfold connect, connect_prelude, set_handshake_options_callback,
    set_target, update, assert, bind, get, ret, raise, the_socket.
  destruct callback; simpl;
    (destruct (env_target_validate env database); simpl; [by split|]);
    rewrite Hr; simpl; rewrite Hlook; simpl; rewrite Hc; by split.
Qed.

End Connected.

Lemma connect_logs_in_witness :
  let prompt := "" in
  let input := (Scenario.block Scenario.challenge
                ++ Scenario.block prompt ++ [])%list in
  let w := fresh_world Target.default None in
  exists w' out sch,
    connect (Scenario.env 0) Scenario.the_target None w
    = connect_finish (Scenario.env 0) w' /\
    framed (bytes_of_string scenario_response) out /\
    has_socket w' 0
      (Socket.Make [] sch ([] ++ greeting false ++ out) false false) /\
    target (self w') = Scenario.the_target.
Proof.
  intros prompt input w.
  set (wp := snd (connect_prelude (Scenario.env 0) Scenario.the_target None w)).
  apply (connect_logs_in (Scenario.env 0) Scenario.the_target None false
           Scenario.challenge scenario_response prompt
           (bytes_of_string Scenario.challenge)
           (Scenario.block Scenario.challenge)
           (bytes_of_string prompt) (Scenario.block prompt) []
           w wp (snd (try_connect (Scenario.env 0) wp)) 0
           (Socket.connected input []));
    try login_setup; try discriminate.
  left. reflexivity.
Defined.

Lemma connect_control_witness :
  let t := Target.Make None None None "control" false (Some "s0") None
             50000 None in
  let w := fresh_world Target.default None in
  let wp := snd (connect_prelude (Scenario.env 0) t None w) in
  let w2 := snd (try_connect (Scenario.env 0) wp) in
  connect (Scenario.env 0) t None w
  = connect_finish (Scenario.env 0) (wired true w2) /\
  sockets (wired true w2) = sockets w2 /\
  is_raw_control (self (wired true w2)) = Some true.
Proof.
  intros t w wp w2.
  apply (connect_control (Scenario.env 0) t None w wp w2); reflexivity.
Defined.

Lemma connect_refuses_witness :
  let w := Scenario.ready_world [] in
  fst (connect (Scenario.env 0) Scenario.the_target None w)
  = Raise (Exn AssertionError "") /\
  has_socket (snd (connect (Scenario.env 0) Scenario.the_target None w)) 0
    (Socket.connected [] []).
Proof.
  intros w.
  apply (connect_refuses (Scenario.env 0) Scenario.the_target None w 0
           (Socket.connected [] [])); [split|]; reflexivity.
Defined.


(** ** Errors of the server and of the handshake *)

Lemma str_take_drop (n : nat) (s : string) : Str.take n s ++ Str.drop n s = s.
Proof.
  revert s. induction n as [|n IH]; intros s; [done|].
  destruct s as [|c s]; [done|].
  change (String c (Str.take n s ++ Str.drop n s) = String c s).
  by rewrite IH.
Qed.

Lemma kind_of_two (R : string) :
  kind_of R = OperationalError \/ kind_of R = IntegrityError.
Proof.
  unfold kind_of.
  destruct (_ && _); [by left|]. destruct (_ && _); [by right | by left].
Qed.

(** X27.  [handle_error] gives no class but [OperationalError] and
    [IntegrityError], and the message it gives is the end of the string it
    was given; the one way for it to fail is the [ValueError] of a string
    that starts with [SQLException:] and has no colon further on. *)
Theorem handle_error_outcomes (E : string) :
  (exists k m pre,
      handle_error E = Return (k, m) /\
      (k = OperationalError \/ k = IntegrityError) /\ E = pre ++ m) \/
  (handle_error E = Raise (Exn ValueError "substring not found") /\
   String.prefix "SQLException:" E = true /\ Str.index E ":" 14 = None).
Proof.
  unfold handle_error.
  change (Str.take 13 E) with (Str.take (String.length "SQLException:") E).
  rewrite StrFacts.take_eqb_prefix.
  destruct (String.prefix "SQLException:" E).
  - destruct (Str.index E ":" 14) as [idx|]; [|by right].
    left. rewrite classify_kind_of.
    exists (kind_of (Str.drop (idx + 10) E)), (Str.drop (idx + 10) E),
      (Str.take (idx + 10) E).
    split; [done|]. split; [apply kind_of_two|].
    by rewrite str_take_drop.
  - left. rewrite classify_kind_of. exists (kind_of E), E, "".
    split; [done|]. split; [apply kind_of_two | done].
Qed.

Section Rejected.

Context (env : Env).

(** X28.  A challenge the client turns down: with fewer than six fields
    it is invalid; otherwise the byte order is looked at first, then the
    protocol, then the password hash; the error is the one of the first
    that is not what the client speaks. *)
Theorem challenge_rejected (fields : list string) (e : exn) (w : World) :
  Forall colon_free fields ->
  rejection env fields = Some e ->
  fst (_challenge_response env (challenge_of fields) w) = Raise e.
Proof.
  intros Hcf Hrej. unfold _challenge_response.
  rewrite (split_challenge_of fields Hcf).
  rewrite List.last_last, List.removelast_last.
  change (negb ("" =? "")%string) with false. cbn [orb].
  rewrite len_app. change (len [""]) with 1.
  destruct fields as [|salt [|st [|protocol [|hashes [|endian [|algo more]]]]]];
    try (injection Hrej as <-; reflexivity).
  assert (Hlen : (len (salt :: st :: protocol :: hashes :: endian :: algo
                       :: more) + 1 <? 7) = false).
  { apply Z.ltb_ge. unfold len. simpl length. lia. }
  rewrite Hlen. cbn [rejection] in Hrej.
  unfold bind at 1, get at 1.
  destruct (st =? "merovingian")%string;
    (destruct (String.eqb endian "LIT") eqn:HL;
     [|destruct (String.eqb endian "BIG") eqn:HB]);
    cbn [negb orb] in Hrej; try (injection Hrej as <-; reflexivity);
    (destruct (String.eqb protocol "9") eqn:H9;
     cbn [negb] in Hrej; [|injection Hrej as <-; reflexivity]);
    cbn [nth] in *;
    (destruct (env_hashlib_new env algo) eqn:Ha; [done|]);
    injection Hrej as <-;
    reflexivity.
Qed.

End Rejected.

Lemma challenge_rejected_witness :
  fst (_challenge_response (Scenario.env 0)
         (challenge_of ["sXYZ"; "mserver"; "8"; "SHA1"; "MID"; "SHA512"])
         (Scenario.ready_world []))
  = Raise (Exn NotSupportedError "Unknown byte order: MID").
Proof.
  apply (challenge_rejected (Scenario.env 0)
           ["sXYZ"; "mserver"; "8"; "SHA1"; "MID"; "SHA512"]);
    [repeat constructor | reflexivity].
Defined.

(** ** Disconnecting *)

Section Lifecycle.

Context (env : Env).

(** X29.  [disconnect] closes the socket and sets the state to [INIT] but
    keeps the reference to the socket; a [connect] that follows accepts the
    closed socket, forgets it and enters its loop with no socket, so that
    its first round makes a new connection. *)
Theorem disconnect_then_connect
  (database : Target.t) (callback : option (Z -> list HandshakeOption.t))
  (w : World) (r : nat) (s : Socket.t) :
  has_socket w r s ->
  env_target_validate env database = None ->
  let closed_s := Socket.Make (Socket.inbound s) (Socket.sched s)
                    (Socket.outbound s) true (Socket.shut_wr s) in
  exists wd wp,
    disconnect w = (Return tt, wd) /\
    state (self wd) = STATE_INIT /\ has_socket wd r closed_s /\
    connect env database callback wd
    = (connect_loop env 10 ;; connect_finish env) wp /\
    socket (self wp) = None /\ target (self wp) = database /\
    sockets wp = <[r := closed_s]> (sockets w).
Proof.
  intros [Hr Hlook] Hv closed_s.
  assert (Hlt : (r < length (sockets w))%nat) by (by eapply lookup_lt_Some).
  set (wd := MkWorld
               (MkConnection STATE_INIT (target (self w)) (Some r)
                  (is_tcp (self w)) (is_raw_control (self w))
                  (handshake_options_callback (self w))
                  (remaining_handshake_options (self w))
                  (stashed_buffer (self w)) (server_endian (self w))
                  (binexport_level (self w)))
               (<[r := closed_s]> (sockets w))
               (logged w ++ [(INFO, "disconnecting from database")])
               (fallback_calls w)).
  exists wd.
  exists (MkWorld
            (MkConnection STATE_INIT database None (is_tcp (self w))
               (is_raw_control (self w))
               (match callback with
                | Some _ => callback
                | None => handshake_options_callback (self w)
                end)
               (remaining_handshake_options (self w))
               (stashed_buffer (self w)) (server_endian (self w))
               (binexport_level (self w)))
            (<[r := closed_s]> (sockets w))
            (logged w ++ [(INFO, "disconnecting from database")])
            (fallback_calls w)).
  assert (Hd : disconnect w = (Return tt, wd)).
  { unfold disconnect, on_self_socket, on_socket, set_state, update, logger,
      bind, get.
    simpl. rewrite Hr. simpl. by rewrite Hlook. }
  split; [done|]. split; [done|]. split.
  { split; [done|]. simpl. by apply list_lookup_insert_eq. }
  split; [|done].
  unfold connect. unfold bind at 1.
  unfold connect_prelude, set_handshake_options_callback, set_target,
    set_socket, update, assert, bind, get, ret, raise, the_socket.
  destruct callback; simpl; rewrite Hv; simpl;
    rewrite list_lookup_insert_eq by done; simpl; reflexivity.
Qed.

End Lifecycle.

Lemma disconnect_then_connect_witness :
  let w := Scenario.ready_world [] in
  let closed_s := Socket.Make [] [] [] true false in
  exists wd wp,
    disconnect w = (Return tt, wd) /\
    state (self wd) = STATE_INIT /\ has_socket wd 0 closed_s /\
    connect (Scenario.env 0) Scenario.the_target None wd
    = (connect_loop (Scenario.env 0) 10 ;; connect_finish (Scenario.env 0)) wp /\
    socket (self wp) = None /\ target (self wp) = Scenario.the_target /\
    sockets wp = <[0%nat := closed_s]> (sockets w).
Proof.
  intros w closed_s.
  apply (disconnect_then_connect (Scenario.env 0) Scenario.the_target None w 0
           (Socket.connected [] [])); [split|]; reflexivity.
Defined.

(** ** Commands on a control connection *)

Section ControlCommands.

Context (env : Env).

(** X30.  A command on a raw control connection: the encoded text is sent
    as it is and the writing side shut down; everything the server sends
    until it closes is the reply; when that starts with [OK], [cmd] returns
    what follows, stripped of white space. *)
Theorem cmd_control_ok
  (fuel : nat) (operation rest : string)
  (w : World) (r : nat) (s : Socket.t) :
  state (self w) = STATE_READY ->
  is_raw_control (self w) = Some true ->
  has_socket w r s -> Socket.closed s = false -> Socket.shut_wr s = false ->
  env_utf8_decode env (bytes_strip (Socket.inbound s))
  = Some (String "O" (String "K" rest)) ->
  exists w' sch,
    cmd env (S fuel) operation w = (Return (RStr (strip_or_empty rest)), w') /\
    has_socket w' r
      (Socket.Make [] sch (Socket.outbound s ++ env_utf8_encode env operation)
         false true).
Proof.
  intros Hst Hrc Hw Hc Hs Hdec.
  set (w0 := snd (logger DEBUG ("executing command " ++ operation) w)).
  assert (Hw0 : has_socket w0 r s) by (destruct Hw; by split).
  set (s1 := Socket.Make (Socket.inbound s) (Socket.sched s)
               (Socket.outbound s ++ env_utf8_encode env operation)
               false true).
  assert (Hput : _putblock env operation w0
                 = (Return tt, put_socket w0 r s1)).
  { unfold _putblock, bind at 1, get at 1.
    change (is_raw_control (self w0)) with (is_raw_control (self w)).
    rewrite Hrc. cbn [truthy]. unfold _send_all_and_shutdown, bind.
    pose proof (len_nonneg (env_utf8_encode env operation)).
    rewrite (_send_all_loop_ok _ _ 0 w0 r s Hw0 Hc Hs) by lia.
    unfold try_except.
    erewrite on_self_socket_run by (eapply has_socket_put, Hw0).
    by rewrite put_socket_put. }
  assert (Hw1 : has_socket (put_socket w0 r s1) r s1)
    by (eapply has_socket_put, Hw0).
  destruct (_recv_to_end_loop_ok (S (length (Socket.inbound s1))) []
              (put_socket w0 r s1) r s1 Hw1 eq_refl ltac:(lia))
    as (parts & sch & Hrun & Hcat).
  assert (Hget : _getblock_and_transfer_files env (S fuel) (put_socket w0 r s1)
                 = (Return (String "O" (String "K" rest)),
                    put_socket (put_socket w0 r s1) r (drained s1 [] sch))).
  { unfold _getblock_and_transfer_files, bind at 1, get at 1.
    change (is_raw_control (self (put_socket w0 r s1)))
      with (is_raw_control (self w)).
    rewrite Hrc. cbn [truthy]. unfold _recv_to_end.
    rewrite (has_socket_the_socket _ r s1 Hw1).
    unfold bind. rewrite Hrun. simpl in Hcat. rewrite Hcat.
    unfold decode. cbn [Socket.inbound s1]. by rewrite Hdec. }
  exists (put_socket (put_socket w0 r s1) r (drained s1 [] sch)), sch.
  split; [|by eapply has_socket_put].
  subst w0.
  cbn [cmd]. unfold bind at 1. cbn [logger].
  unfold bind at 1, get at 1. cbn [self]. rewrite Hst.
  change (negb (STATE_READY =? STATE_READY)) with false. cbn iota.
  unfold bind at 1. simpl in Hput. rewrite Hput.
  unfold bind at 1. simpl in Hget. rewrite Hget.
  cbn -[strip_or_empty put_socket]. unfold bind, get. cbn [self put_socket].
  rewrite Hrc. reflexivity.
Qed.

End ControlCommands.

Lemma cmd_control_ok_witness :
  let s := Socket.connected
             (bytes_of_string ("OK running" ++ String "010" "")) [0; 0]%nat in
  let w := MkWorld (MkConnection STATE_READY Scenario.the_target (Some 0%nat)
                      (Some false) (Some true) None [] None None 0)
             [s] [] [] in
  exists w' sch,
    cmd (Scenario.env 0) 1 "status" w = (Return (RStr "running"), w') /\
    has_socket w' 0
      (Socket.Make [] sch ([] ++ bytes_of_string "status") false true).
Proof.
  intros s w.
  apply (cmd_control_ok (Scenario.env 0) 0 "status" " running" w 0 s);
    first [reflexivity | split; reflexivity].
Defined.
